(** * Retrieval pipeline of the EdTech tutor agent

    A shallow embedding of [src/agent/retrieval]: the result merger of
    [rag_pipeline.py], the query expander of [multi_query.py], the
    embedding cache of [embeddings.py], the contextual compressor of
    [compressor.py] and the orchestration in [RAGPipeline.retrieve].

    Conventions of the model.
    - Python [str] is [string]; a character is a code point below 256.
    - A similarity score is a Python float that the code only compares and
      sorts by; it is taken in [Z] (a score in fixed-point units), whose
      order is the order of the finite floats.
    - A [dict] whose iteration order is observable ([seen_ids]) is an
      association list in insertion order; the embedding cache, whose
      order is never observed, is a [gmap].
    - The collaborators outside the repository (text generation, embedding
      service, vector index) are oracles of the world: what they answer to
      their n-th call.  Every call is recorded in a log.
    - An exception is an instance of Python's [Exception]: what
      [except Exception] and the retry decorators catch.  The cancellation
      of a task ([CancelledError], which is not an [Exception]) is not an
      error of the pipeline and is outside the model. *)

From Stdlib Require Import ZArith QArith String Ascii List Lia DecimalString.
From stdpp Require Import base option list strings gmap.

Local Open Scope string_scope.
Local Open Scope list_scope.
Local Open Scope Z_scope.

(** ** Python strings *)

Module PyStr.

(** [str.isspace] on the code points below 256. *)
Definition is_space (c : ascii) : bool :=
  let n := nat_of_ascii c in
  ((9 <=? n) && (n <=? 13) || (28 <=? n) && (n <=? 32)
   || (n =? 133) || (n =? 160))%nat.

Fixpoint lstrip (s : string) : string :=
  match s with
  | EmptyString => EmptyString
  | String c s' => if is_space c then lstrip s' else s
  end.

Fixpoint rstrip (s : string) : string :=
  match s with
  | EmptyString => EmptyString
  | String c s' =>
      match rstrip s' with
      | EmptyString => if is_space c then EmptyString else String c EmptyString
      | r => String c r
      end
  end.

Definition strip (s : string) : string := rstrip (lstrip s).

(** [s.split(sep)] for a one-character separator: never empty. *)
Fixpoint split (sep : ascii) (s : string) : list string :=
  match s with
  | EmptyString => [EmptyString]
  | String c s' =>
      if Ascii.eqb c sep then EmptyString :: split sep s'
      else match split sep s' with
           | [] => [String c EmptyString]
           | w :: ws => String c w :: ws
           end
  end.

(** [s[:n]] for [n >= 0]. *)
Fixpoint prefix (n : nat) (s : string) : string :=
  match n, s with
  | O, _ => EmptyString
  | _, EmptyString => EmptyString
  | S n', String c s' => String c (prefix n' s')
  end.

(** [ch in s]. *)
Fixpoint contains (ch : ascii) (s : string) : bool :=
  match s with
  | EmptyString => false
  | String c s' => Ascii.eqb c ch || contains ch s'
  end.

(** [s.split(ch, 1)[-1]]: what follows the first [ch], or [s] itself. *)
Fixpoint after_first (ch : ascii) (s : string) : string :=
  match s with
  | EmptyString => EmptyString
  | String c s' =>
      if Ascii.eqb c ch then s'
      else if contains ch s' then after_first ch s' else s
  end.

(** [len(s)]. *)
Definition len (s : string) : Z := Z.of_nat (String.length s).

(** [str(n)] for an [int]. *)
Definition of_int (n : Z) : string := NilZero.string_of_int (Z.to_int n).

(** [l[:k]] on a list, with Python's reading of a negative bound. *)
Definition slice_to {A} (k : Z) (l : list A) : list A :=
  if 0 <=? k then take (Z.to_nat k) l
  else take (Z.to_nat (Z.of_nat (length l) + k)) l.

End PyStr.

(** ** Ordered dictionaries *)

Module Dict.

Definition t (V : Type) : Type := list (string * V).

Fixpoint get {V} (k : string) (d : t V) : option V :=
  match d with
  | [] => None
  | (k', v) :: d' => if String.eqb k k' then Some v else get k d'
  end.

(** [d[k] = v]: a present key keeps its place, a new key goes last. *)
Fixpoint set {V} (k : string) (v : V) (d : t V) : t V :=
  match d with
  | [] => [(k, v)]
  | (k', v') :: d' =>
      if String.eqb k k' then (k, v) :: d' else (k', v') :: set k v d'
  end.

Definition keys {V} (d : t V) : list string := fst <$> d.
Definition values {V} (d : t V) : list V := snd <$> d.

End Dict.

(** ** Scored points and the result merger ([rag_pipeline.py]) *)

Inductive Value : Type :=
| VStr (s : string)
| VNum (n : Z)
| VBool (b : bool)
| VRatio (n d : Z)
| VNull.

(** A point id of the vector index: an integer or a string. *)
Inductive PointId : Type :=
| IntId (n : Z)
| StrId (s : string).

Definition str_of_id (i : PointId) : string :=
  match i with
  | IntId n => PyStr.of_int n
  | StrId s => s
  end.

Record ScoredPoint : Type := {
  id : PointId;
  score : Z;
  payload : option (Dict.t Value)
}.

(** [point_id = str(result.id)]. *)
Definition point_id (result : ScoredPoint) : string := str_of_id (id result).

(** [sorted(xs, key=..., reverse=True)]: the stable descending sort. *)
Fixpoint insert_desc {A} (key : A -> Z) (x : A) (l : list A) : list A :=
  match l with
  | [] => [x]
  | y :: l' => if key x <? key y then y :: insert_desc key x l' else x :: l
  end.

Definition sorted_reverse {A} (key : A -> Z) (l : list A) : list A :=
  foldr (insert_desc key) [] l.

(** One turn of the loop of [_deduplicate_results]. *)
Definition dedup_step (seen_ids : Dict.t ScoredPoint) (result : ScoredPoint)
  : Dict.t ScoredPoint :=
  match Dict.get (point_id result) seen_ids with
  | None => Dict.set (point_id result) result seen_ids
  | Some old =>
      if score old <? score result
      then Dict.set (point_id result) result seen_ids
      else seen_ids
  end.

Definition _deduplicate_results (results : list ScoredPoint) : list ScoredPoint :=
  let seen_ids := fold_left dedup_step results [] in
  sorted_reverse score (Dict.values seen_ids).

(** The order of the merged hits as the specification words it: descending
    by score, equal scores in ascending id.  Ids are compared through their
    strings. *)
Definition sorted_by_score_then_id (out : list ScoredPoint) : Prop :=
  forall l1 r1 l2 r2 l3,
    out = l1 ++ r1 :: l2 ++ r2 :: l3 ->
    score r2 <= score r1
    /\ (score r1 = score r2 -> String.leb (point_id r1) (point_id r2) = true).

Definition hit (i : Z) (s : Z) : ScoredPoint :=
  {| id := IntId i; score := s; payload := Some [] |}.


(** ** Exceptions, collaborators and the world *)

Inductive Exn : Type :=
| RetrievalError (message : string) (details : Dict.t string)
| EmbeddingError (message : string)
| OtherError (kind : string) (message : string).

(** [str(e)]. *)
Definition exn_str (e : Exn) : string :=
  match e with
  | RetrievalError m _ => m
  | EmbeddingError m => m
  | OtherError _ m => m
  end.

Inductive Result (A : Type) : Type :=
| Ok (a : A)
| Raise (e : Exn).
Arguments Ok {A} a.
Arguments Raise {A} e.

Inductive Message : Type :=
| SystemMessage (content : string)
| HumanMessage (content : string).

(** [result.generations]: the texts of the generations, per prompt. *)
Definition LLMResult : Type := list (list string).

Definition Embedding : Type := list Z.

Inductive Match : Type :=
| MatchAny (any : list Value)
| MatchValue (value : Value).

Record FieldCondition : Type := { key : string; match_ : Match }.
Record Filter : Type := { must : list FieldCondition }.

(** A value of the [metadata_filter] dict: one value or a list of them. *)
Inductive FilterValue : Type :=
| One (v : Value)
| Many (vs : list Value).

Record SearchRequest : Type := {
  req_collection_name : string;
  query_vector : Embedding;
  limit : Z;
  req_score_threshold : Z;
  query_filter : option Filter
}.

(** What the collaborators answer to their n-th call (n counts from 0),
    and the hash behind the cache key. *)
Record Services : Type := {
  llm_generate : nat -> list Message -> bool -> Result LLMResult;
  aembed_documents : nat -> list string -> Result (list Embedding);
  qdrant_search : nat -> SearchRequest -> Result (list ScoredPoint);
  md5_hexdigest : string -> string
}.

Record Settings : Type := {
  rag_top_k : Z;
  rag_score_threshold : Z;
  rag_multi_query_variations : Z;
  rag_compression_enabled : bool;
  rag_max_context_length : Z
}.

Record World : Type := {
  generate_calls : list (list Message * bool);
  embed_calls : list (list string);
  search_calls : list SearchRequest;
  _embeddings : bool;
  _cache : gmap string Embedding;
  observed : list (string * Q)
}.

(** Computations that read and write the world and may raise. *)
Definition M (A : Type) : Type := World -> Result A * World.

Definition ret {A} (a : A) : M A := fun w => (Ok a, w).
Definition raise {A} (e : Exn) : M A := fun w => (Raise e, w).
Definition bind {A B} (c : M A) (k : A -> M B) : M B :=
  fun w => match c w with
           | (Ok a, w') => k a w'
           | (Raise e, w') => (Raise e, w')
           end.
Definition try_except {A} (c : M A) (handler : Exn -> M A) : M A :=
  fun w => match c w with
           | (Ok a, w') => (Ok a, w')
           | (Raise e, w') => handler e w'
           end.
Definition lift {A} (r : Result A) : M A := fun w => (r, w).

Notation "'let*' x := c 'in' k" := (bind c (fun x => k))
  (at level 10, x name, c at level 100, k at level 200).

(** [@retry(retry_if_exception_type(Exception), stop_after_attempt(3),
    reraise=True)]: the waits between attempts are not modelled. *)
Definition retry3 {A} (c : M A) : M A :=
  try_except c (fun _ => try_except c (fun _ => c)).

(** [python_or x d] is [x or d] for an optional integer. *)
Definition python_or (x : option Z) (d : Z) : Z :=
  match x with
  | Some n => if n =? 0 then d else n
  | None => d
  end.

(** [seq[i]] for [i >= 0]. *)
Definition index {A} (l : list A) (i : nat) : Result A :=
  match l !! i with
  | Some a => Ok a
  | None => Raise (OtherError "IndexError" "list index out of range")
  end.

(** [result.generations[0][0].text]. *)
Definition first_generation_text (result : LLMResult) : Result string :=
  match index result 0 with
  | Ok g => index g 0
  | Raise e => Raise e
  end.

Definition log_generate (call : list Message * bool) (w : World) : World :=
  {| generate_calls := generate_calls w ++ [call];
     embed_calls := embed_calls w;
     search_calls := search_calls w;
     _embeddings := _embeddings w;
     _cache := _cache w;
     observed := observed w |}.

Definition log_embed (texts : list string) (w : World) : World :=
  {| generate_calls := generate_calls w;
     embed_calls := embed_calls w ++ [texts];
     search_calls := search_calls w;
     _embeddings := _embeddings w;
     _cache := _cache w;
     observed := observed w |}.

Definition log_search (req : SearchRequest) (w : World) : World :=
  {| generate_calls := generate_calls w;
     embed_calls := embed_calls w;
     search_calls := search_calls w ++ [req];
     _embeddings := _embeddings w;
     _cache := _cache w;
     observed := observed w |}.

Definition with_cache (c : gmap string Embedding) (w : World) : World :=
  {| generate_calls := generate_calls w;
     embed_calls := embed_calls w;
     search_calls := search_calls w;
     _embeddings := _embeddings w;
     _cache := c;
     observed := observed w |}.

Definition log_observed (o : string * Q) (w : World) : World :=
  {| generate_calls := generate_calls w;
     embed_calls := embed_calls w;
     search_calls := search_calls w;
     _embeddings := _embeddings w;
     _cache := _cache w;
     observed := observed w ++ [o] |}.

Record Document : Type := {
  page_content : string;
  metadata : Dict.t Value
}.

(** Truth value of a Python object. *)
Definition truthy (v : Value) : bool :=
  match v with
  | VStr s => negb (String.eqb s "")
  | VNum n => negb (n =? 0)
  | VBool b => b
  | VRatio n _ => negb (n =? 0)
  | VNull => false
  end.

Definition dquote : string := String (ascii_of_nat 34) EmptyString.

Section Pipeline.

Context (svc : Services) (settings : Settings).

(** [await llm_provider.generate(messages, use_fallback)]. *)
Definition generate (messages : list Message) (use_fallback : bool)
  : M LLMResult :=
  fun w =>
    (llm_generate svc (length (generate_calls w)) messages use_fallback,
     log_generate (messages, use_fallback) w).

(** *** Query expansion ([multi_query.py]) *)

Definition MULTI_QUERY_SYSTEM_PROMPT (num_variations : Z) : string :=
  "You are an AI assistant specialized in generating query variations for information retrieval in an educational context.

Your task is to generate " +:+ PyStr.of_int num_variations +:+ " different variations of the given query that maintain the same semantic meaning but use different phrasings, synonyms, and perspectives.

Guidelines:
- Each variation should capture the core intent of the original query
- Use different terminology and sentence structures
- Consider technical and non-technical phrasings
- Include relevant keywords and concepts
- Keep variations concise and focused

Return ONLY the variations, one per line, without numbering or additional text.".

Record MultiQueryRetriever : Type := { num_variations : Z }.

Definition MultiQueryRetriever_init (n : option Z) : MultiQueryRetriever :=
  {| num_variations := python_or n (rag_multi_query_variations settings) |}.

Definition multi_query_retriever : MultiQueryRetriever :=
  MultiQueryRetriever_init None.

Definition newline : ascii := ascii_of_nat 10.

(** The lines of the answer, stripped, blank ones left out. *)
Definition parse_variations (variations_text : string) : list string :=
  map PyStr.strip
    (filter (fun line => PyStr.strip line <> "")
            (PyStr.split newline (PyStr.strip variations_text))).

(** [var.split(".", 1)[-1].strip() if "." in var[:5] else var]. *)
Definition remove_numbering (var : string) : string :=
  if PyStr.contains "." (PyStr.prefix 5 var)
  then PyStr.strip (PyStr.after_first "." var)
  else var.

Definition all_queries_of (self : MultiQueryRetriever)
    (original_query variations_text : string) : list string :=
  let variations := map remove_numbering (parse_variations variations_text) in
  let all_queries :=
    original_query :: filter (fun var => var <> original_query) variations in
  PyStr.slice_to (num_variations self + 1) all_queries.

Definition expansion_messages (self : MultiQueryRetriever)
    (original_query : string) : list Message :=
  [SystemMessage (MULTI_QUERY_SYSTEM_PROMPT (num_variations self));
   HumanMessage ("Query: " +:+ original_query)].

Definition generate_queries (self : MultiQueryRetriever)
    (original_query : string) : M (list string) :=
  if bool_decide (PyStr.strip original_query = "") then
    raise (RetrievalError "Cannot generate queries from empty input" [])
  else
    try_except
      (let* result :=
         generate (expansion_messages self original_query) false in
       let* variations_text := lift (first_generation_text result) in
       ret (all_queries_of self original_query variations_text))
      (fun _ => ret [original_query]).

(** *** Embedding cache ([embeddings.py]) *)

Definition _get_cache_key (text : string) : string := md5_hexdigest svc text.

(** The [embeddings] property: it raises until [initialize] has run. *)
Definition embeddings : M unit :=
  fun w =>
    if _embeddings w then (Ok tt, w)
    else (Raise (EmbeddingError "Embeddings not initialized"), w).

(** [await self.embeddings.aembed_documents(texts)]. *)
Definition embeddings_aembed_documents (texts : list string)
  : M (list Embedding) :=
  let* _ := embeddings in
  fun w => (aembed_documents svc (length (embed_calls w)) texts,
            log_embed texts w).

(** The cache test of the first loop: [use_cache] and the key is cached. *)
Definition cache_hit (cache : gmap string Embedding) (use_cache : bool)
    (text : string) : option Embedding :=
  if use_cache then cache !! _get_cache_key text else None.

(** The first loop of [embed_documents]: cached vectors, and the texts
    still to embed with their positions. *)
Fixpoint partition_cached (cache : gmap string Embedding) (use_cache : bool)
    (i : nat) (texts : list string)
    (embeddings : list Embedding) (texts_to_embed : list string)
    (text_indices : list nat)
  : list Embedding * list string * list nat :=
  match texts with
  | [] => (embeddings, texts_to_embed, text_indices)
  | text :: rest =>
      match cache_hit cache use_cache text with
      | Some e =>
          partition_cached cache use_cache (S i) rest
            (embeddings ++ [e]) texts_to_embed text_indices
      | None =>
          partition_cached cache use_cache (S i) rest
            embeddings (texts_to_embed ++ [text]) (text_indices ++ [i])
      end
  end.

Definition cache_results (use_cache : bool)
    (pairs : list (string * Embedding)) : M unit :=
  fun w =>
    (Ok tt,
     if use_cache
     then with_cache
            (fold_left (fun c p => <[_get_cache_key (fst p) := snd p]> c)
                       pairs (_cache w)) w
     else w).

(** The merge loop over [range(len(texts))]. *)
Fixpoint merge_with_cached (indices : list nat) (text_indices : list nat)
    (new_embeddings embeddings : list Embedding) (new_idx cached_idx : nat)
  : Result (list Embedding) :=
  match indices with
  | [] => Ok []
  | i :: rest =>
      if bool_decide (i ∈ text_indices) then
        match index new_embeddings new_idx with
        | Ok e =>
            match merge_with_cached rest text_indices new_embeddings
                    embeddings (S new_idx) cached_idx with
            | Ok r => Ok (e :: r)
            | Raise x => Raise x
            end
        | Raise x => Raise x
        end
      else
        match index embeddings cached_idx with
        | Ok e =>
            match merge_with_cached rest text_indices new_embeddings
                    embeddings new_idx (S cached_idx) with
            | Ok r => Ok (e :: r)
            | Raise x => Raise x
            end
        | Raise x => Raise x
        end
  end.

(** One attempt of [embed_documents], without the retry decorator. *)
Definition embed_documents_attempt (texts : list string) (use_cache : bool)
  : M (list Embedding) :=
  match texts with
  | [] => ret []
  | _ =>
      try_except
        (fun w =>
           let '(embeddings, texts_to_embed, text_indices) :=
             partition_cached (_cache w) use_cache 0 texts [] [] [] in
           match texts_to_embed with
           | [] => ret embeddings w
           | _ =>
               (let* new_embeddings :=
                  embeddings_aembed_documents texts_to_embed in
                let* _ :=
                  cache_results use_cache (zip texts_to_embed new_embeddings) in
                lift (merge_with_cached (seq 0 (length texts)) text_indices
                        new_embeddings embeddings 0 0)) w
           end)
        (fun e =>
           raise (EmbeddingError
                    ("Failed to generate batch embeddings: " +:+ exn_str e)))
  end.

Definition embed_documents (texts : list string) (use_cache : bool)
  : M (list Embedding) :=
  retry3 (embed_documents_attempt texts use_cache).

(** *** Contextual compression ([compressor.py]) *)

Definition COMPRESSION_SYSTEM_PROMPT (query document : string) : string :=
  "You are an AI assistant that extracts only the most relevant information from documents based on a query.

Your task:
1. Read the provided document chunk
2. Identify ONLY the information directly relevant to answering the query
3. Extract and return this relevant information concisely
4. If the chunk contains NO relevant information, return " +:+ dquote +:+ "NOT_RELEVANT" +:+ dquote +:+ "

Guidelines:
- Be precise and concise
- Keep the original meaning and context
- Remove fluff, redundant information, and tangential details
- Preserve key facts, numbers, and specific details
- If unsure about relevance, include it (better to over-include than miss important info)

Query: " +:+ query +:+ "

Document chunk:
" +:+ document +:+ "

Relevant extract:".

Record ContextualizedCompressor : Type := {
  max_context_length : Z;
  use_fallback_model : bool
}.

Definition ContextualizedCompressor_init (n : option Z) (fallback : bool)
  : ContextualizedCompressor :=
  {| max_context_length := python_or n (rag_max_context_length settings);
     use_fallback_model := fallback |}.

Definition compressor : ContextualizedCompressor :=
  ContextualizedCompressor_init None true.

Definition _compress_single_document (self : ContextualizedCompressor)
    (document_text query : string) : M string :=
  try_except
    (let* result :=
       generate [SystemMessage (COMPRESSION_SYSTEM_PROMPT query document_text)]
                (use_fallback_model self) in
     let* text := lift (first_generation_text result) in
     ret (PyStr.strip text))
    (fun _ => ret document_text).

Definition compression_ratio (compressed_content original : string) : Value :=
  if 0 <? PyStr.len original
  then VRatio (PyStr.len compressed_content) (PyStr.len original)
  else VNum 0.

Definition compressed_doc (doc : Document) (compressed_content : string)
  : Document :=
  {| page_content := compressed_content;
     metadata :=
       Dict.set "compression_ratio"
         (compression_ratio compressed_content (page_content doc))
         (Dict.set "compressed_length" (VNum (PyStr.len compressed_content))
            (Dict.set "original_length" (VNum (PyStr.len (page_content doc)))
               (Dict.set "compressed" (VBool true) (metadata doc)))) |}.

(** The loop of [compress_documents], with its two local variables. *)
Fixpoint compress_loop (self : ContextualizedCompressor) (query : string)
    (documents : list Document)
    (compressed_docs : list Document) (total_tokens : Z)
  : M (list Document * Z) :=
  match documents with
  | [] => ret (compressed_docs, total_tokens)
  | doc :: rest =>
      if max_context_length self <=? total_tokens then
        ret (compressed_docs, total_tokens)
      else
        let* compressed_content :=
          _compress_single_document self (page_content doc) query in
        if bool_decide (compressed_content = "NOT_RELEVANT") then
          compress_loop self query rest compressed_docs total_tokens
        else
          let doc_tokens := PyStr.len compressed_content / 4 in
          compress_loop self query rest
            (compressed_docs ++ [compressed_doc doc compressed_content])
            (total_tokens + doc_tokens)
  end.

Fixpoint fallback_loop (self : ContextualizedCompressor)
    (documents : list Document)
    (truncated_docs : list Document) (total_tokens : Z) : list Document :=
  match documents with
  | [] => truncated_docs
  | doc :: rest =>
      let doc_tokens := PyStr.len (page_content doc) / 4 in
      if max_context_length self <? total_tokens + doc_tokens then
        let remaining_tokens := max_context_length self - total_tokens in
        let remaining_chars := remaining_tokens * 4 in
        if 0 <? remaining_chars then
          truncated_docs ++
            [{| page_content :=
                  PyStr.prefix (Z.to_nat remaining_chars) (page_content doc)
                  +:+ "...";
                metadata := Dict.set "truncated" (VBool true) (metadata doc) |}]
        else truncated_docs
      else
        fallback_loop self rest (truncated_docs ++ [doc])
          (total_tokens + doc_tokens)
  end.

Definition _fallback_truncate (self : ContextualizedCompressor)
    (documents : list Document) : list Document :=
  fallback_loop self documents [] 0.

Definition compress_documents (self : ContextualizedCompressor)
    (documents : list Document) (query : string) : M (list Document) :=
  match documents with
  | [] => ret []
  | _ =>
      if bool_decide (PyStr.strip query = "") then ret documents
      else
        try_except
          (let* r := compress_loop self query documents [] 0 in
           ret (fst r))
          (fun _ => ret (_fallback_truncate self documents))
  end.

(** *** The orchestrator ([rag_pipeline.py]) *)

Record RAGPipeline : Type := {
  collection_name : string;
  top_k : Z;
  score_threshold : Z;
  enable_compression : bool
}.

Definition RAGPipeline_init (collection : string) (k : option Z)
    (threshold : option Z) (compression : option bool) : RAGPipeline :=
  {| collection_name := collection;
     top_k := python_or k (rag_top_k settings);
     score_threshold := python_or threshold (rag_score_threshold settings);
     enable_compression :=
       match compression with
       | Some b => b
       | None => rag_compression_enabled settings
       end |}.

Definition create_rag_pipeline (collection : string) : RAGPipeline :=
  RAGPipeline_init collection None None None.

(** [models.MatchValue(value=...)] and [models.MatchAny(any=...)].  The
    models of the index client validate their field: [value] is a strict
    bool, int or str, and [any] a list of strict str or a list of strict
    int (a bool is no strict int); anything else raises the client's
    [ValidationError], whose text is not modelled.  In a filter [VNum] is
    an int and [VRatio] a float. *)
Definition is_str (v : Value) : bool :=
  match v with
  | VStr _ => true
  | _ => false
  end.

Definition is_int (v : Value) : bool :=
  match v with
  | VNum _ => true
  | _ => false
  end.

Definition models_MatchValue (value : Value) : Result Match :=
  match value with
  | VBool _ | VNum _ | VStr _ => Ok (MatchValue value)
  | VRatio _ _ | VNull =>
      Raise (OtherError "ValidationError" "validation error for MatchValue")
  end.

Definition models_MatchAny (any : list Value) : Result Match :=
  if forallb is_str any || forallb is_int any then Ok (MatchAny any)
  else Raise (OtherError "ValidationError" "validation error for MatchAny").

(** The loop of [_build_qdrant_filter] over [metadata_filter.items()]: it
    stops at the first value that the client refuses. *)
Fixpoint build_conditions (items : list (string * FilterValue))
    (conditions : list FieldCondition) : Result (list FieldCondition) :=
  match items with
  | [] => Ok conditions
  | (key, value) :: rest =>
      match (match value with
             | Many vs => models_MatchAny vs
             | One v => models_MatchValue v
             end) with
      | Ok m => build_conditions rest (conditions ++ [{| key := key; match_ := m |}])
      | Raise e => Raise e
      end
  end.

Definition _build_qdrant_filter (metadata_filter : option (Dict.t FilterValue))
  : Result (option Filter) :=
  match metadata_filter with
  | None => Ok None
  | Some [] => Ok None
  | Some items =>
      match build_conditions items [] with
      | Ok [] => Ok None
      | Ok conditions => Ok (Some {| must := conditions |})
      | Raise e => Raise e
      end
  end.

(** [await qdrant_manager.search(...)]. *)
Definition search (req : SearchRequest) : M (list ScoredPoint) :=
  fun w => (qdrant_search svc (length (search_calls w)) req, log_search req w).

(** The search loop over [zip(queries, query_embeddings)]. *)
Fixpoint search_each (self : RAGPipeline) (qdrant_filter : option Filter)
    (pairs : list (string * Embedding)) (all_results : list ScoredPoint)
  : M (list ScoredPoint) :=
  match pairs with
  | [] => ret all_results
  | (_, embedding) :: rest =>
      let* results :=
        search {| req_collection_name := collection_name self;
                  query_vector := embedding;
                  limit := top_k self;
                  req_score_threshold := score_threshold self;
                  query_filter := qdrant_filter |} in
      search_each self qdrant_filter rest (all_results ++ results)
  end.

Definition dict_get_default {V} (k : string) (default : V) (d : Dict.t V) : V :=
  match Dict.get k d with
  | Some v => v
  | None => default
  end.

(** One turn of the loop of [_convert_to_documents].  [Document] takes a
    [str] as [page_content] and raises its validation error on anything
    else; the text of that error is not modelled. *)
Definition convert_one (result : ScoredPoint) : Result Document :=
  match payload result with
  | None =>
      Raise (OtherError "AttributeError"
               "'NoneType' object has no attribute 'get'")
  | Some pl =>
      let page_content0 := dict_get_default "page_content" (VStr "") pl in
      let page_content1 :=
        if truthy page_content0 then page_content0
        else dict_get_default "text" (VStr "") pl in
      match page_content1 with
      | VStr text =>
          Ok {| page_content := text;
                metadata :=
                  fold_left (fun m kv => Dict.set (fst kv) (snd kv) m)
                    (filter (fun kv => fst kv <> "page_content") pl)
                    [("id", VStr (point_id result));
                     ("score", VNum (score result))] |}
      | _ => Raise (OtherError "ValidationError" "page_content: str type expected")
      end
  end.

Fixpoint _convert_to_documents (results : list ScoredPoint)
  : Result (list Document) :=
  match results with
  | [] => Ok []
  | result :: rest =>
      match convert_one result with
      | Ok d =>
          match _convert_to_documents rest with
          | Ok ds => Ok (d :: ds)
          | Raise e => Raise e
          end
      | Raise e => Raise e
      end
  end.

(** A score read back from the metadata, as a number. *)
Definition as_number (v : Value) : Result Q :=
  match v with
  | VNum n => Ok (inject_Z n)
  | VBool b => Ok (inject_Z (if b then 1 else 0))
  | VRatio n d => Ok (Qmake n (Z.to_pos d))
  | _ => Raise (OtherError "TypeError" "unsupported operand type(s) for +")
  end.

Fixpoint sum_scores (documents : list Document) (acc : Q) : Result Q :=
  match documents with
  | [] => Ok acc
  | doc :: rest =>
      match as_number (dict_get_default "score" (VNum 0) (metadata doc)) with
      | Ok x => sum_scores rest (Qplus acc x)
      | Raise e => Raise e
      end
  end.

(** Step 7: the mean score goes to the relevance histogram. *)
Definition track_quality (self : RAGPipeline) (documents : list Document)
  : M unit :=
  match documents with
  | [] => ret tt
  | _ =>
      let* total := lift (sum_scores documents (inject_Z 0)) in
      fun w =>
        (Ok tt,
         log_observed
           (collection_name self,
            Qdiv total (inject_Z (Z.of_nat (length documents)))) w)
  end.

(** The [try] block of [retrieve]. *)
Definition retrieve_body (self : RAGPipeline) (query : string)
    (metadata_filter : option (Dict.t FilterValue))
    (enable_multi_query : bool) : M (list Document) :=
  let* queries :=
    (if enable_multi_query
     then generate_queries multi_query_retriever query
     else ret [query]) in
  let* query_embeddings := embed_documents queries true in
  let* qdrant_filter := lift (_build_qdrant_filter metadata_filter) in
  let* all_results :=
    search_each self qdrant_filter (zip queries query_embeddings) [] in
  let unique_docs := _deduplicate_results all_results in
  let* documents := lift (_convert_to_documents unique_docs) in
  let* documents :=
    (if enable_compression self && negb (bool_decide (documents = []))
     then compress_documents compressor documents query
     else ret documents) in
  let* _ := track_quality self documents in
  ret documents.

Definition retrieve (self : RAGPipeline) (query : string)
    (metadata_filter : option (Dict.t FilterValue))
    (enable_multi_query : bool) : M (list Document) :=
  try_except
    (retrieve_body self query metadata_filter enable_multi_query)
    (fun e =>
       raise (RetrievalError
                ("RAG retrieval failed: " +:+ exn_str e)
                [("query", query); ("collection", collection_name self)])).

Definition retrieve_by_topic (self : RAGPipeline) (query topic : string)
  : M (list Document) :=
  retrieve self query (Some [("topic", One (VStr topic))]) true.

End Pipeline.

(** ** Failing calls, and worlds to run the pipeline in *)

(** The n-th generation call fails: it raises, or what it returns has no
    [generations[0][0]]. *)
Definition generation_failed (svc : Services) (n : nat)
    (messages : list Message) (use_fallback : bool) : bool :=
  match llm_generate svc n messages use_fallback with
  | Raise _ => true
  | Ok result =>
      match first_generation_text result with
      | Raise _ => true
      | Ok _ => false
      end
  end.

(** Between [w] and [w'] exactly one generation call was made, and it
    failed. *)
Definition made_failing_call (svc : Services) (w w' : World) : Prop :=
  exists messages use_fallback,
    generate_calls w' = generate_calls w ++ [(messages, use_fallback)]
    /\ generation_failed svc (length (generate_calls w)) messages use_fallback
       = true.

(** The list of queries as the specification words it: the original first,
    between 1 and [num_variations + 1] entries, no text twice. *)
Definition queries_as_specified (self : MultiQueryRetriever)
    (original_query : string) (queries : list string) : Prop :=
  head queries = Some original_query
  /\ 1 <= Z.of_nat (length queries) <= num_variations self + 1
  /\ NoDup queries.

Definition fresh_world : World :=
  {| generate_calls := [];
     embed_calls := [];
     search_calls := [];
     _embeddings := true;
     _cache := ∅;
     observed := [] |}.

(** The defaults of [config.py], the score threshold 0.7 in tenths. *)
Definition default_settings : Settings :=
  {| rag_top_k := 5;
     rag_score_threshold := 7;
     rag_multi_query_variations := 3;
     rag_compression_enabled := true;
     rag_max_context_length := 8000 |}.

Definition transport_error : Exn := OtherError "ConnectionError" "connection reset".

(** Collaborators that always give the same answers. *)
Definition constant_services (answer : Result LLMResult)
    (vectors : list string -> Result (list Embedding))
    (hits : SearchRequest -> Result (list ScoredPoint)) : Services :=
  {| llm_generate := fun _ _ _ => answer;
     aembed_documents := fun _ texts => vectors texts;
     qdrant_search := fun _ req => hits req;
     md5_hexdigest := fun text => text |}.

(** An embedding service that answers each text by the vector of its first
    code point and its length, and an index without hits. *)
Definition text_vector (text : string) : Embedding :=
  [match text with
   | String c _ => Z.of_nat (nat_of_ascii c)
   | EmptyString => 0
   end; PyStr.len text].

Definition text_vectors (texts : list string) : Result (list Embedding) :=
  Ok (text_vector <$> texts).

Definition no_hits (req : SearchRequest) : Result (list ScoredPoint) := Ok [].

Definition failing_llm : Services :=
  constant_services (Raise transport_error) text_vectors no_hits.

Definition repeating_llm : Services :=
  constant_services (Ok [["loops
loops"]]) text_vectors no_hits.

Definition numbering_llm : Services :=
  constant_services (Ok [["1. What is recursion?
2) Define recursion

recursion
 3. Recursive calls "]]) text_vectors no_hits.

Definition three_variations : MultiQueryRetriever := {| num_variations := 3 |}.

(** ** Reference functions for the compressor *)

(** What [_compress_single_document] returns when its generation call is
    the n-th one. *)
Definition compression_result (svc : Services)
    (self : ContextualizedCompressor) (n : nat)
    (document_text query : string) : string :=
  match llm_generate svc n
          [SystemMessage (COMPRESSION_SYSTEM_PROMPT query document_text)]
          (use_fallback_model self) with
  | Ok result =>
      match first_generation_text result with
      | Ok text => PyStr.strip text
      | Raise _ => document_text
      end
  | Raise _ => document_text
  end.

(** The token estimate of a list of documents: [len(content) // 4] each. *)
Definition estimated_tokens (documents : list Document) : Z :=
  foldr (fun doc acc => PyStr.len (page_content doc) / 4 + acc) 0 documents.

(** The budget example as the specification words it: of three documents
    the first two come back, compressed, and nothing else. *)
Definition first_two_only (d1 d2 : Document) (r : Result (list Document))
  : Prop :=
  exists c1 c2, r = Ok [compressed_doc d1 c1; compressed_doc d2 c2].

(** [s * n]. *)
Fixpoint string_times (s : string) (n : nat) : string :=
  match n with
  | O => EmptyString
  | S n' => s +:+ string_times s n'
  end.

(** A text-generation service whose every answer is 1600 characters long,
    400 estimated tokens. *)
Definition long_answers : Services :=
  constant_services (Ok [[string_times "abcd" 400]]) text_vectors no_hits.

Definition budget_1000 : ContextualizedCompressor :=
  {| max_context_length := 1000; use_fallback_model := true |}.

Definition sample_doc (n : Z) (text : string) : Document :=
  {| page_content := text;
     metadata := [("id", VStr (PyStr.of_int n)); ("score", VNum 9)] |}.

(** A text-generation service that finds the second document it is shown
    not relevant. *)
Definition second_not_relevant : Services :=
  {| llm_generate := fun n _ _ =>
       if Nat.eqb n 1 then Ok [["NOT_RELEVANT"]] else Ok [[" the relevant part "]];
     aembed_documents := fun _ texts => text_vectors texts;
     qdrant_search := fun _ req => no_hits req;
     md5_hexdigest := fun text => text |}.

Definition three_docs : list Document :=
  [sample_doc 1 "one"; sample_doc 2 "two"; sample_doc 3 "three"].

(** ** The result cap as the specification words it, and an index to
    try it on *)

Definition within_result_limit (self : RAGPipeline)
    (r : Result (list Document)) : Prop :=
  forall documents,
    r = Ok documents -> Z.of_nat (length documents) <= top_k self.

(** An index that answers every search of limit 1 or more with one hit,
    whose id is the first component of the query vector; with
    [text_vectors], the first code point of the query. *)
Definition one_hit_per_query (req : SearchRequest) : Result (list ScoredPoint) :=
  if 1 <=? limit req then
    Ok [hit (match query_vector req with
             | x :: _ => x
             | [] => 0
             end) 9]
  else if 0 <=? limit req then Ok []
  else Raise (OtherError "UnexpectedResponse" "400 Bad Request").

Definition one_variant_llm : Services :=
  constant_services (Ok [["What is recursion?"]]) text_vectors
    one_hit_per_query.

Definition failing_index : Services :=
  constant_services (Ok [["What is recursion?"]]) text_vectors
    (fun _ => Raise transport_error).

Definition top_one : RAGPipeline :=
  {| collection_name := "courses";
     top_k := 1;
     score_threshold := 7;
     enable_compression := false |}.

(** ** Reference functions for the embedding batch

    The texts of a batch that the cache does not answer, the vectors it
    does answer, the positions of the former, and the result in input
    order: each text gets its cached vector or the next new one. *)

Definition uncached_texts (svc : Services) (cache : gmap string Embedding)
    (use_cache : bool) (texts : list string) : list string :=
  filter (fun text => cache_hit svc cache use_cache text = None) texts.

Definition cached_vectors (svc : Services) (cache : gmap string Embedding)
    (use_cache : bool) (texts : list string) : list Embedding :=
  omap (cache_hit svc cache use_cache) texts.

Fixpoint uncached_positions (svc : Services) (cache : gmap string Embedding)
    (use_cache : bool) (i : nat) (texts : list string) : list nat :=
  match texts with
  | [] => []
  | text :: rest =>
      match cache_hit svc cache use_cache text with
      | Some _ => uncached_positions svc cache use_cache (S i) rest
      | None => i :: uncached_positions svc cache use_cache (S i) rest
      end
  end.

Fixpoint in_input_order (svc : Services) (cache : gmap string Embedding)
    (use_cache : bool) (texts : list string) (new_embeddings : list Embedding)
  : list Embedding :=
  match texts with
  | [] => []
  | text :: rest =>
      match cache_hit svc cache use_cache text with
      | Some e => e :: in_input_order svc cache use_cache rest new_embeddings
      | None =>
          match new_embeddings with
          | v :: vs => v :: in_input_order svc cache use_cache rest vs
          | [] => []
          end
      end
  end.

(** The batch as the specification words it for [["a"; "b"; "a"]]: one
    call, whose argument is the set of the texts without repetition, and
    three vectors of which the first and the last are equal. *)
Definition batch_as_specified (texts : list string)
    (calls : list (list string)) (r : Result (list Embedding)) : Prop :=
  (exists batch, calls = [batch] /\ NoDup batch
                 /\ forall t, t ∈ batch <-> t ∈ texts)
  /\ (exists v0 v1 v2, r = Ok [v0; v1; v2] /\ v0 = v2).

Definition caching_service : Services :=
  constant_services (Ok []) text_vectors no_hits.

(** ** Reference functions for the merger

    What one id's entry of [seen_ids] goes through when the hits are read
    in order, and the order in which ids enter the dictionary. *)

Definition better (acc : option ScoredPoint) (h : ScoredPoint)
  : option ScoredPoint :=
  match acc with
  | None => Some h
  | Some old => if score old <? score h then Some h else Some old
  end.

Definition champion (k : string) (acc : option ScoredPoint)
    (l : list ScoredPoint) : option ScoredPoint :=
  fold_left (fun a h => if String.eqb k (point_id h) then better a h else a)
            l acc.

Definition first_seen (l : list ScoredPoint) : list string :=
  fold_left (fun ks h => if bool_decide (point_id h ∈ ks) then ks
                         else ks ++ [point_id h]) l [].

(** ** The rest of the embeddings manager ([embeddings.py]) *)

(** [await self.embeddings.aembed_query(text)].  The single-text endpoint
    of the embedding service is an oracle of its own; its calls are
    numbered and logged with the batch calls, as one-text batches. *)
Definition embeddings_aembed_query (svc : Services)
    (aembed_query : nat -> string -> Result Embedding) (text : string)
  : M Embedding :=
  let* _ := embeddings in
  fun w => (aembed_query (length (embed_calls w)) text, log_embed [text] w).

(** One attempt of [embed_query], without the retry decorator. *)
Definition embed_query_attempt (svc : Services)
    (aembed_query : nat -> string -> Result Embedding)
    (text : string) (use_cache : bool) : M Embedding :=
  if bool_decide (PyStr.strip text = "") then
    raise (EmbeddingError "Cannot embed empty text")
  else
    fun w =>
      match cache_hit svc (_cache w) use_cache text with
      | Some e => (Ok e, w)
      | None =>
          try_except
            (let* embedding := embeddings_aembed_query svc aembed_query text in
             let* _ := cache_results svc use_cache [(text, embedding)] in
             ret embedding)
            (fun e =>
               raise (EmbeddingError
                        ("Failed to generate embedding: " +:+ exn_str e)))
            w
      end.

Definition embed_query (svc : Services)
    (aembed_query : nat -> string -> Result Embedding)
    (text : string) (use_cache : bool) : M Embedding :=
  retry3 (embed_query_attempt svc aembed_query text use_cache).

(** ** A caller of the pipeline ([quiz_generator.py]) *)

(** [sep.join(parts)]. *)
Fixpoint join (sep : string) (parts : list string) : string :=
  match parts with
  | [] => ""
  | [part] => part
  | part :: rest => part +:+ sep +:+ join sep rest
  end.

Record QuizGenerator : Type := { rag_pipeline : RAGPipeline }.

Definition QuizGenerator_init (settings : Settings)
    (qdrant_collection_courses : string) : QuizGenerator :=
  {| rag_pipeline := create_rag_pipeline settings qdrant_collection_courses |}.

Definition _get_topic_context (svc : Services) (settings : Settings)
    (self : QuizGenerator) (topic : string) : M string :=
  try_except
    (let* documents :=
       retrieve svc settings (rag_pipeline self)
         ("Explain " +:+ topic +:+ " concepts and examples") None false in
     match documents with
     | [] => ret ""
     | _ =>
         ret (join (String newline (String newline ""))
                (page_content <$> take 3 documents))
     end)
    (fun _ => ret "").

(** ** The vector index client ([qdrant_client.py])

    [QdrantManager.search] over the client library: what the library
    answers to its n-th [get_collections] and its n-th [search].  The
    metrics decorator only counts and re-raises, and is left out. *)

Module Qdrant.

Inductive Exn : Type :=
| CollectionNotFoundError (message : string) (details : Dict.t Value)
| QdrantQueryError (message : string) (details : Dict.t Value)
| QdrantConnectionError (message : string)
| ClientError (kind : string) (message : string).

Definition exn_str (e : Exn) : string :=
  match e with
  | CollectionNotFoundError m _ => m
  | QdrantQueryError m _ => m
  | QdrantConnectionError m => m
  | ClientError _ m => m
  end.

Inductive Outcome (A : Type) : Type :=
| Done (a : A)
| Failed (e : Exn).
Arguments Done {A} a.
Arguments Failed {A} e.

Record ClientRequest : Type := {
  collection_name : string;
  query_vector : Embedding;
  limit : Z;
  score_threshold : Z;
  query_filter : option Filter;
  with_payload : bool;
  with_vectors : bool
}.

(** What the client library answers: a value, or an exception of its own
    ([UnexpectedResponse], a timeout, ...), given by its class name and
    message. *)
Inductive Answer (A : Type) : Type :=
| Answered (a : A)
| Errored (kind message : string).
Arguments Answered {A} a.
Arguments Errored {A} kind message.

Definition of_answer {A} (x : Answer A) : Outcome A :=
  match x with
  | Answered a => Done a
  | Errored kind message => Failed (ClientError kind message)
  end.

Record Client : Type := {
  get_collections : nat -> Answer (list string);
  client_search : nat -> ClientRequest -> Answer (list ScoredPoint)
}.

Record State : Type := {
  _client : bool;
  _is_healthy : bool;
  collections_calls : nat;
  search_requests : list ClientRequest
}.

Definition Q (A : Type) : Type := State -> Outcome A * State.

Definition ret {A} (a : A) : Q A := fun s => (Done a, s).
Definition raise {A} (e : Exn) : Q A := fun s => (Failed e, s).
Definition bind {A B} (c : Q A) (k : A -> Q B) : Q B :=
  fun s => match c s with
           | (Done a, s') => k a s'
           | (Failed e, s') => (Failed e, s')
           end.
Definition try_except {A} (c : Q A) (handler : Exn -> Q A) : Q A :=
  fun s => match c s with
           | (Done a, s') => (Done a, s')
           | (Failed e, s') => handler e s'
           end.

(** [@retry(retry=retry_if_exception_type(...), stop=stop_after_attempt(k),
    reraise=True)] with [more_attempts = k - 1] attempts after the first;
    the waits are not modelled. *)
Fixpoint retry_if {A} (retryable : Exn -> bool) (more_attempts : nat)
    (c : Q A) : Q A :=
  fun s =>
    match c s with
    | (Done a, s') => (Done a, s')
    | (Failed e, s') =>
        match more_attempts with
        | O => (Failed e, s')
        | S n => if retryable e then retry_if retryable n c s'
                 else (Failed e, s')
        end
    end.

(** [retry_if_exception_type((UnexpectedResponse, asyncio.TimeoutError))]. *)
Definition transient (e : Exn) : bool :=
  match e with
  | ClientError kind _ =>
      String.eqb kind "UnexpectedResponse" || String.eqb kind "TimeoutError"
  | _ => false
  end.

(** The [client] property. *)
Definition client : Q unit :=
  fun s => if _client s then (Done tt, s)
           else (Failed (QdrantConnectionError "Qdrant client not initialized"), s).

Definition client_get_collections (api : Client) : Q (list string) :=
  bind client (fun _ s =>
    (of_answer (get_collections api (collections_calls s)),
     {| _client := _client s;
        _is_healthy := _is_healthy s;
        collections_calls := S (collections_calls s);
        search_requests := search_requests s |})).

Definition client_search_call (api : Client) (req : ClientRequest)
  : Q (list ScoredPoint) :=
  bind client (fun _ s =>
    (of_answer (client_search api (length (search_requests s)) req),
     {| _client := _client s;
        _is_healthy := _is_healthy s;
        collections_calls := collections_calls s;
        search_requests := search_requests s ++ [req] |})).

Definition _collection_exists (api : Client) (name : string) : Q bool :=
  try_except
    (bind (client_get_collections api) (fun collections =>
     ret (existsb (fun c => String.eqb c name) collections)))
    (fun _ => ret false).

(** One attempt of [search], without the retry decorator. *)
Definition search_attempt (api : Client) (settings : Settings)
    (name : string) (vector : Embedding) (limit_ : Z)
    (threshold : option Z) (filter_ : option Filter)
  : Q (list ScoredPoint) :=
  try_except
    (bind (_collection_exists api name) (fun found =>
     if negb found then
       raise (CollectionNotFoundError
                ("Collection '" +:+ name +:+ "' not found")
                [("collection", VStr name)])
     else
       client_search_call api
         {| collection_name := name;
            query_vector := vector;
            limit := limit_;
            score_threshold := python_or threshold (rag_score_threshold settings);
            query_filter := filter_;
            with_payload := true;
            with_vectors := false |}))
    (fun e =>
       match e with
       | CollectionNotFoundError _ _ => raise e
       | _ =>
           raise (QdrantQueryError
                    ("Search failed in collection '" +:+ name +:+ "': "
                     +:+ exn_str e)
                    [("collection", VStr name); ("limit", VNum limit_)])
       end).

Definition search (api : Client) (settings : Settings)
    (qdrant_retry_attempts : nat)
    (name : string) (vector : Embedding) (limit_ : Z)
    (threshold : option Z) (filter_ : option Filter)
  : Q (list ScoredPoint) :=
  retry_if transient (Nat.pred qdrant_retry_attempts)
    (search_attempt api settings name vector limit_ threshold filter_).

End Qdrant.

(** More worlds to run the code in. *)

Definition failing_embeddings : Services :=
  constant_services (Ok []) (fun _ => Raise transport_error) no_hits.

Definition cold_world : World :=
  {| generate_calls := [];
     embed_calls := [];
     search_calls := [];
     _embeddings := false;
     _cache := ∅;
     observed := [] |}.

(** The request that [retrieve] sends to the index for one query
    vector, once the filter is built. *)
Definition search_request (self : RAGPipeline)
    (qdrant_filter : option Filter) (embedding : Embedding)
  : SearchRequest :=
  {| req_collection_name := collection_name self;
     query_vector := embedding;
     limit := top_k self;
     req_score_threshold := score_threshold self;
     query_filter := qdrant_filter |}.

(** The values of a metadata filter that the index client takes: a bool,
    an int or a str, a list of str, or a list of int. *)
Definition accepted_by_client (value : FilterValue) : Prop :=
  match value with
  | One (VBool _) | One (VNum _) | One (VStr _) => True
  | One _ => False
  | Many vs =>
      (forall x, x ∈ vs -> exists s, x = VStr s)
      \/ (forall x, x ∈ vs -> exists n, x = VNum n)
  end.

(** The condition that one entry of the filter becomes. *)
Definition condition_of (entry : string * FilterValue) : FieldCondition :=
  {| key := fst entry;
     match_ := match snd entry with
               | Many vs => MatchAny vs
               | One v => MatchValue v
               end |}.

(** An index with two hits that carry a text, a text generation that finds
    the first document it is shown not relevant, and a pipeline that
    compresses what it retrieves. *)
Definition text_hit (i s : Z) (text : string) : ScoredPoint :=
  {| id := IntId i; score := s; payload := Some [("text", VStr text)] |}.

Definition first_not_relevant : Services :=
  {| llm_generate := fun n _ _ =>
       if Nat.eqb n 0 then Ok [["NOT_RELEVANT"]] else Ok [[" the relevant part "]];
     aembed_documents := fun _ texts => text_vectors texts;
     qdrant_search := fun _ _ => Ok [text_hit 1 9 "one"; text_hit 2 8 "two"];
     md5_hexdigest := fun text => text |}.

Definition compressing_pipeline : RAGPipeline :=
  {| collection_name := "courses";
     top_k := 5;
     score_threshold := 7;
     enable_compression := true |}.

(** A filter with a float in it. *)
Definition float_filter : option (Dict.t FilterValue) :=
  Some [("topic", One (VStr "python")); ("level", One (VRatio 3 2))].

(** Worlds that differ at most in the embedding log and the cache, or at
    most in the log of generation calls. *)
Definition only_embeddings_changed (w w' : World) : Prop :=
  generate_calls w' = generate_calls w
  /\ search_calls w' = search_calls w
  /\ observed w' = observed w.

Definition only_generation_changed (w w' : World) : Prop :=
  embed_calls w' = embed_calls w
  /\ search_calls w' = search_calls w
  /\ _cache w' = _cache w
  /\ _embeddings w' = _embeddings w
  /\ observed w' = observed w.

(** Clients of the index: one whose searches time out, one that cannot
    list its collections; and a manager that has been initialized. *)
Definition timing_out_client : Qdrant.Client :=
  {| Qdrant.get_collections := fun _ => Qdrant.Answered ["courses"; "quiz_bank"];
     Qdrant.client_search := fun _ _ => Qdrant.Errored "TimeoutError" "timed out" |}.

Definition unreachable_client : Qdrant.Client :=
  {| Qdrant.get_collections :=
       fun _ => Qdrant.Errored "UnexpectedResponse" "503 Service Unavailable";
     Qdrant.client_search := fun _ _ => Qdrant.Answered [] |}.

Definition ready_manager : Qdrant.State :=
  {| Qdrant._client := true;
     Qdrant._is_healthy := true;
     Qdrant.collections_calls := 0;
     Qdrant.search_requests := [] |}.

(* ================================================================== *)
(** * Properties *)

Example str_examples :
  PyStr.of_int 0 = "0" /\ PyStr.of_int 42 = "42" /\ PyStr.of_int (-7) = "-7"
  /\ PyStr.strip "  a b
" = "a b" /\ PyStr.split "," "a,,b" = ["a"; ""; "b"]
  /\ PyStr.after_first "." "1. x.y" = " x.y"
  /\ PyStr.slice_to (-1) [1;2;3] = [1;2] /\ PyStr.slice_to 5 [1;2;3] = [1;2;3].
Proof. repeat split; reflexivity. Qed.

Example generate_queries_example :
  fst (generate_queries numbering_llm three_variations "recursion" fresh_world)
  = Ok ["recursion"; "What is recursion?"; "2) Define recursion";
        "Recursive calls"].
Proof. vm_compute. reflexivity. Qed.

Example fallback_truncate_example :
  (fun d => (String.length (page_content d), Dict.get "truncated" (metadata d)))
    <$> _fallback_truncate budget_1000
          ((fun n => sample_doc n (string_times "abcd" 400)) <$> [1; 2; 3])
  = [(1600%nat, None); (1600%nat, None); (803%nat, Some (VBool true))].
Proof. vm_compute. reflexivity. Qed.

Example dedup_example :
  _deduplicate_results [hit 1 5; hit 2 7; hit 1 9; hit 3 7; hit 2 7]
  = [hit 1 9; hit 2 7; hit 3 7].
Proof. reflexivity. Qed.


(** ** Ordered dictionaries *)

Section DictFacts.

Context {V : Type}.
Implicit Types (d : Dict.t V) (k : string) (v : V).

Lemma dict_get_set k k' v d :
  Dict.get k (Dict.set k' v d) = if String.eqb k k' then Some v else Dict.get k d.
Proof.
  induction d as [|[k0 v0] d IH]; simpl.
  - reflexivity.
  - destruct (String.eqb_spec k' k0) as [->|Hne]; simpl.
    + destruct (String.eqb k k0); reflexivity.
    + rewrite IH. destruct (String.eqb_spec k k0) as [->|]; [|reflexivity].
      destruct (String.eqb_spec k0 k'); congruence.
Qed.

Lemma dict_get_None k d : Dict.get k d = None <-> k ∉ Dict.keys d.
Proof.
  induction d as [|[k0 v0] d IH]; simpl.
  - split; [intros _; apply not_elem_of_nil | reflexivity].
  - rewrite not_elem_of_cons. destruct (String.eqb_spec k k0); split.
    + discriminate.
    + intros [? _]; contradiction.
    + intros H; split; [assumption | apply IH, H].
    + intros [_ H]; apply IH, H.
Qed.

Lemma dict_keys_set k v d :
  Dict.keys (Dict.set k v d)
  = match Dict.get k d with
    | Some _ => Dict.keys d
    | None => Dict.keys d ++ [k]
    end.
Proof.
  induction d as [|[k0 v0] d IH]; simpl.
  - reflexivity.
  - destruct (String.eqb_spec k k0) as [->|Hne]; simpl.
    + reflexivity.
    + rewrite IH. destruct (Dict.get k d); reflexivity.
Qed.

Lemma dict_elem_get k v d :
  NoDup (Dict.keys d) -> (k, v) ∈ d <-> Dict.get k d = Some v.
Proof.
  induction d as [|[k0 v0] d IH]; simpl; intros Hnd.
  - split; [intros H; inversion H | discriminate].
  - apply NoDup_cons in Hnd as [Hk0 Hnd]. rewrite elem_of_cons.
    destruct (String.eqb_spec k k0) as [->|Hne].
    + split.
      * intros [[= ->]|Hin]; [reflexivity|].
        exfalso. apply Hk0. apply (list_elem_of_fmap_2 fst) in Hin. exact Hin.
      * intros [= ->]. left; reflexivity.
    + rewrite <- (IH Hnd). split.
      * intros [[= ? ?]|?]; [contradiction | assumption].
      * intros ?; right; assumption.
Qed.

End DictFacts.

(** ** The result merger *)

Lemma dedup_step_get k d a :
  Dict.get k (dedup_step d a)
  = if String.eqb k (point_id a) then better (Dict.get k d) a else Dict.get k d.
Proof.
  unfold dedup_step, better.
  destruct (String.eqb_spec k (point_id a)) as [->|Hne].
  - destruct (Dict.get (point_id a) d) as [old|] eqn:E.
    + destruct (score old <? score a).
      * rewrite dict_get_set, String.eqb_refl. reflexivity.
      * exact E.
    + rewrite dict_get_set, String.eqb_refl. reflexivity.
  - assert (Dict.get k (Dict.set (point_id a) a d) = Dict.get k d) as Hset.
    { rewrite dict_get_set. destruct (String.eqb_spec k (point_id a)); congruence. }
    destruct (Dict.get (point_id a) d) as [old|]; [|exact Hset].
    destruct (score old <? score a); [exact Hset | reflexivity].
Qed.

Lemma fold_dedup_get k l : forall d,
  Dict.get k (fold_left dedup_step l d) = champion k (Dict.get k d) l.
Proof.
  induction l as [|a l IH]; intros d; simpl.
  - reflexivity.
  - rewrite IH, dedup_step_get. reflexivity.
Qed.

Lemma dedup_step_keys d a :
  Dict.keys (dedup_step d a)
  = if bool_decide (point_id a ∈ Dict.keys d) then Dict.keys d
    else Dict.keys d ++ [point_id a].
Proof.
  unfold dedup_step.
  destruct (Dict.get (point_id a) d) as [old|] eqn:E.
  - rewrite bool_decide_true.
    + destruct (score old <? score a); [|reflexivity].
      rewrite dict_keys_set, E. reflexivity.
    + destruct (decide (point_id a ∈ Dict.keys d)) as [|Hn]; [assumption|].
      apply dict_get_None in Hn. congruence.
  - rewrite bool_decide_false by (apply dict_get_None, E).
    rewrite dict_keys_set, E. reflexivity.
Qed.

Lemma fold_dedup_keys l : forall d,
  Dict.keys (fold_left dedup_step l d)
  = fold_left (fun ks h => if bool_decide (point_id h ∈ ks) then ks
                           else ks ++ [point_id h]) l (Dict.keys d).
Proof.
  induction l as [|a l IH]; intros d; simpl.
  - reflexivity.
  - rewrite IH, dedup_step_keys. reflexivity.
Qed.

Lemma fold_dedup_NoDup l : forall d,
  NoDup (Dict.keys d) -> NoDup (Dict.keys (fold_left dedup_step l d)).
Proof.
  induction l as [|a l IH]; intros d Hd; simpl.
  - exact Hd.
  - apply IH. rewrite dedup_step_keys. case_bool_decide as Hin.
    + exact Hd.
    + apply NoDup_app. split; [exact Hd|]. split.
      * intros x Hx Hx'. apply list_elem_of_singleton in Hx'. subst. contradiction.
      * apply NoDup_singleton.
Qed.

Lemma champion_is_Some k l : forall acc,
  is_Some acc -> is_Some (champion k acc l).
Proof.
  induction l as [|a l IH]; intros acc Hacc; simpl.
  - exact Hacc.
  - apply IH. destruct (String.eqb k (point_id a)); [|exact Hacc].
    unfold better. destruct acc as [old|]; [|eauto].
    destruct (score old <? score a); eauto.
Qed.

Lemma champion_of_member h l : forall acc,
  h ∈ l -> is_Some (champion (point_id h) acc l).
Proof.
  induction l as [|a l IH]; intros acc Hin.
  - inversion Hin.
  - apply elem_of_cons in Hin as [->|Hin]; simpl.
    + apply champion_is_Some. rewrite String.eqb_refl.
      unfold better. destruct acc as [old|]; [|eauto].
      destruct (score old <? score a); eauto.
    + apply IH, Hin.
Qed.

(** The entry that survives for a key is either the one that was there,
    unbeaten, or a hit of the list that beats everything before it and is
    not beaten by anything after it. *)
Lemma champion_spec k l : forall acc r,
  champion k acc l = Some r ->
  (acc = Some r /\ forall h, h ∈ l -> point_id h = k -> score h <= score r)
  \/ (exists l1 l2,
        l = l1 ++ r :: l2 /\ point_id r = k
        /\ (forall h, h ∈ l1 -> point_id h = k -> score h < score r)
        /\ (forall a, acc = Some a -> score a < score r)
        /\ (forall h, h ∈ l2 -> point_id h = k -> score h <= score r)).
Proof.
  induction l as [|a l IH]; intros acc r Hc; simpl in Hc.
  - left. split; [exact Hc|]. intros h Hh. inversion Hh.
  - apply IH in Hc as [[Hacc Hle]|(l1 & l2 & -> & Hk & Hlt & Hacc & Hle)].
    + destruct (String.eqb_spec k (point_id a)) as [->|Hne].
      * unfold better in Hacc. destruct acc as [old|].
        -- destruct (score old <? score a) eqn:Hcmp.
           ++ injection Hacc as ->. right. exists [], l.
              repeat split; try assumption.
              ** intros h Hh. inversion Hh.
              ** intros a0 [= <-]. lia.
           ++ injection Hacc as ->. left. split; [reflexivity|].
              intros h Hh Hk. apply elem_of_cons in Hh as [->|Hh]; [lia|].
              apply Hle; assumption.
        -- injection Hacc as ->. right. exists [], l.
           repeat split; try assumption.
           ++ intros h Hh. inversion Hh.
           ++ intros a0 [=].
      * left. split; [exact Hacc|].
        intros h Hh Hk. apply elem_of_cons in Hh as [->|Hh]; [congruence|].
        apply Hle; assumption.
    + right. exists (a :: l1), l2. repeat split; try assumption.
      * intros h Hh Hkh. apply elem_of_cons in Hh as [->|Hh]; [|apply Hlt; assumption].
        destruct (String.eqb_spec k (point_id a)) as [_|]; [|congruence].
        unfold better in Hacc. destruct acc as [old|].
        -- destruct (score old <? score a) eqn:Hcmp.
           ++ apply Hacc. reflexivity.
           ++ specialize (Hacc old eq_refl). lia.
        -- apply Hacc. reflexivity.
      * intros a0 ->. destruct (String.eqb k (point_id a)).
        -- unfold better in Hacc. destruct (score a0 <? score a) eqn:Hcmp.
           ++ specialize (Hacc a eq_refl). lia.
           ++ apply Hacc. reflexivity.
        -- apply Hacc. reflexivity.
Qed.

Lemma insert_desc_perm {A} (key : A -> Z) x l :
  insert_desc key x l ≡ₚ x :: l.
Proof.
  induction l as [|y l IH]; simpl.
  - reflexivity.
  - destruct (key x <? key y); [|reflexivity].
    rewrite IH. apply Permutation_swap.
Qed.

Lemma sorted_reverse_perm {A} (key : A -> Z) l :
  sorted_reverse key l ≡ₚ l.
Proof.
  induction l as [|x l IH]; simpl.
  - reflexivity.
  - rewrite insert_desc_perm, IH. reflexivity.
Qed.

Lemma pair_sublist_cons {A} (x y b : A) (t : list A) :
  [x; y] `sublist_of` b :: t ->
  [x; y] `sublist_of` t \/ (x = b /\ y ∈ t).
Proof.
  intros H. apply sublist_cons_r in H as [H|(l' & [= -> <-] & H)].
  - left; exact H.
  - right. split; [reflexivity|]. apply singleton_sublist_l, H.
Qed.

Lemma pair_sublist_here {A} (x y : A) (t : list A) :
  y ∈ t -> [x; y] `sublist_of` x :: t.
Proof. intros H. apply sublist_skip, singleton_sublist_l, H. Qed.

(** Where the inserted element lands: after the strictly greater keys,
    before everything else. *)
Lemma insert_desc_pairs {A} (key : A -> Z) a s x y :
  (forall u v, [u; v] `sublist_of` s -> key v <= key u) ->
  [x; y] `sublist_of` insert_desc key a s ->
  [x; y] `sublist_of` s
  \/ (x = a /\ y ∈ s /\ key y <= key a)
  \/ (y = a /\ x ∈ s /\ key a < key x).
Proof.
  induction s as [|b s IH]; simpl; intros Hs Hxy.
  - apply sublist_length in Hxy. simpl in Hxy. lia.
  - assert (forall u v, [u; v] `sublist_of` s -> key v <= key u) as Hs'.
    { intros u v Huv. apply Hs, sublist_cons, Huv. }
    destruct (key a <? key b) eqn:Hcmp.
    + apply pair_sublist_cons in Hxy as [Hxy|[-> Hy]].
      * destruct (IH Hs' Hxy) as [H|[(-> & Hy & Hle)|(-> & Hx & Hlt)]].
        -- left. apply sublist_cons, H.
        -- right; left. repeat split; [right; exact Hy | exact Hle].
        -- right; right. repeat split; [right; exact Hx | exact Hlt].
      * rewrite insert_desc_perm in Hy. apply elem_of_cons in Hy as [->|Hy].
        -- right; right. repeat split; [left | lia].
        -- left. apply pair_sublist_here, Hy.
    + apply pair_sublist_cons in Hxy as [Hxy|[-> Hy]].
      * left; exact Hxy.
      * right; left. repeat split; [exact Hy|].
        apply elem_of_cons in Hy as [->|Hy]; [lia|].
        specialize (Hs b y (pair_sublist_here _ _ _ Hy)). lia.
Qed.

(** The sort is descending and stable. *)
Lemma sorted_reverse_pairs {A} (key : A -> Z) l : forall x y,
  [x; y] `sublist_of` sorted_reverse key l ->
  key y <= key x /\ (key x = key y -> [x; y] `sublist_of` l).
Proof.
  induction l as [|a l IH]; simpl; intros x y Hxy.
  - apply sublist_length in Hxy. simpl in Hxy. lia.
  - apply insert_desc_pairs in Hxy
      as [H|[(-> & Hy & Hle)|(-> & Hx & Hlt)]].
    + destruct (IH _ _ H) as [Hle Hst]. split; [exact Hle|].
      intros E. apply sublist_cons, Hst, E.
    + split; [exact Hle|]. intros _. apply pair_sublist_here.
      rewrite sorted_reverse_perm in Hy. exact Hy.
    + split; lia.
    + intros u v Huv. apply (IH _ _ Huv).
Qed.

Lemma pair_sublist_split {A} (x y : A) l1 l2 l3 :
  [x; y] `sublist_of` l1 ++ x :: l2 ++ y :: l3.
Proof.
  apply sublist_inserts_l, sublist_skip, sublist_inserts_l, sublist_skip,
    sublist_nil_l.
Qed.

Lemma fmap_ext_elem {A B} (f g : A -> B) (l : list A) :
  (forall x, x ∈ l -> f x = g x) -> f <$> l = g <$> l.
Proof.
  induction l as [|a l IH]; intros H; simpl.
  - reflexivity.
  - rewrite (H a) by left. f_equal. apply IH. intros x Hx. apply H. right; exact Hx.
Qed.

(** Ids enter the dictionary in the order of their first appearance. *)
Lemma first_seen_spec l :
  (forall k, k ∈ first_seen l <-> exists h, h ∈ l /\ point_id h = k)
  /\ (forall k1 k2, [k1; k2] `sublist_of` first_seen l ->
        exists p h s, l = p ++ h :: s /\ point_id h = k1
                      /\ forall h', h' ∈ p -> point_id h' <> k2).
Proof.
  induction l as [|h0 l [IHa IHb]] using rev_ind.
  - split.
    + intros k. split; [intros H; inversion H | intros (h & H & _); inversion H].
    + intros k1 k2 H. apply sublist_length in H. simpl in H. lia.
  - unfold first_seen in *. rewrite fold_left_app. simpl.
    set (ks := fold_left _ l []) in *.
    assert (forall k, (exists h, h ∈ l ++ [h0] /\ point_id h = k)
                      <-> k ∈ ks \/ k = point_id h0) as Hmem.
    { intros k. rewrite IHa. split.
      - intros (h & Hin & Hk). apply elem_of_app in Hin as [Hin|Hin].
        + left; eauto.
        + apply list_elem_of_singleton in Hin. subst. right; reflexivity.
      - intros [(h & Hin & Hk)| ->].
        + exists h. split; [apply elem_of_app; left; exact Hin | exact Hk].
        + exists h0. split; [apply elem_of_app; right; left | reflexivity]. }
    case_bool_decide as Hin; split.
    + intros k. rewrite Hmem. split; [tauto|]. intros [?| ->]; assumption.
    + intros k1 k2 H. destruct (IHb _ _ H) as (p & h & s & -> & Hk & Hp).
      exists p, h, (s ++ [h0]). rewrite <- app_assoc. simpl. auto.
    + intros k. rewrite Hmem, elem_of_app, list_elem_of_singleton. reflexivity.
    + intros k1 k2 H. apply sublist_app_r in H as (m1 & m2 & E & H1 & H2).
      destruct m1 as [|a1 [|a2 [|a3 m1]]]; simpl in E.
      * subst m2. apply sublist_length in H2. simpl in H2. lia.
      * injection E as <- <-.
        apply singleton_sublist_l in H1, H2.
        apply list_elem_of_singleton in H2. subst k2.
        apply IHa in H1 as (h & Hh & Hk).
        apply list_elem_of_split in Hh as (p & s & ->).
        exists p, h, (s ++ [h0]). rewrite <- !app_assoc. simpl.
        repeat split; [exact Hk|].
        intros h' Hh' Heq. apply Hin, IHa. exists h'.
        split; [apply elem_of_app; left; exact Hh' | exact Heq].
      * injection E as <- <- <-.
        destruct (IHb _ _ H1) as (p & h & s & -> & Hk & Hp).
        exists p, h, (s ++ [h0]). rewrite <- app_assoc. simpl. auto.
      * discriminate E.
Qed.

Lemma seen_ids_entry results k r :
  (k, r) ∈ fold_left dedup_step results []
  <-> champion k None results = Some r.
Proof.
  rewrite dict_elem_get by (apply fold_dedup_NoDup, NoDup_nil_2).
  rewrite fold_dedup_get. reflexivity.
Qed.

Lemma champion_None_spec k l r :
  champion k None l = Some r ->
  exists l1 l2,
    l = l1 ++ r :: l2 /\ point_id r = k
    /\ (forall h, h ∈ l1 -> point_id h = k -> score h < score r)
    /\ (forall h, h ∈ l2 -> point_id h = k -> score h <= score r).
Proof.
  intros H. apply champion_spec in H as [[? _]|(l1 & l2 & ? & ? & ? & _ & ?)].
  - discriminate.
  - exists l1, l2. auto.
Qed.

Lemma seen_ids_keys results :
  point_id <$> Dict.values (fold_left dedup_step results [])
  = Dict.keys (fold_left dedup_step results []).
Proof.
  unfold Dict.values, Dict.keys. rewrite <- list_fmap_compose.
  apply fmap_ext_elem. intros [k r] Hin. simpl.
  apply seen_ids_entry, champion_None_spec in Hin as (_ & _ & _ & Hk & _).
  exact Hk.
Qed.

Lemma merged_member results r :
  r ∈ _deduplicate_results results
  <-> champion (point_id r) None results = Some r.
Proof.
  unfold _deduplicate_results. rewrite sorted_reverse_perm.
  unfold Dict.values. rewrite list_elem_of_fmap. split.
  - intros ([k r'] & -> & Hin). simpl.
    apply seen_ids_entry in Hin.
    destruct (champion_None_spec _ _ _ Hin) as (_ & _ & _ & <- & _).
    exact Hin.
  - intros H. exists (point_id r, r). split; [reflexivity|].
    apply seen_ids_entry, H.
Qed.

Lemma merged_ids_NoDup results :
  NoDup (point_id <$> _deduplicate_results results).
Proof.
  unfold _deduplicate_results. rewrite sorted_reverse_perm, seen_ids_keys.
  apply fold_dedup_NoDup, NoDup_nil_2.
Qed.

(** C1.  The merged list has no two hits with the same id (neither as the
    string the code keys them by, nor as the raw id); every id of the input
    has a hit in the output; and the hit retained for an id is a hit of the
    input whose score is the maximum over the input hits with that id, the
    first of them in input order when several reach the maximum. *)
Theorem deduplicate_keeps_first_maximum (results : list ScoredPoint) :
  NoDup (point_id <$> _deduplicate_results results)
  /\ NoDup (id <$> _deduplicate_results results)
  /\ (forall h, h ∈ results ->
        exists r, r ∈ _deduplicate_results results /\ point_id r = point_id h)
  /\ (forall r, r ∈ _deduplicate_results results ->
        exists l1 l2,
          results = l1 ++ r :: l2
          /\ (forall h, h ∈ l1 -> point_id h = point_id r -> score h < score r)
          /\ (forall h, h ∈ l2 -> point_id h = point_id r -> score h <= score r)).
Proof.
  pose proof (merged_ids_NoDup results) as Hnd.
  split; [exact Hnd|]. split; [|split].
  - apply (NoDup_fmap_1 str_of_id). rewrite <- list_fmap_compose. exact Hnd.
  - intros h Hin.
    destruct (champion_of_member h results None Hin) as [r Hr].
    exists r. destruct (champion_None_spec _ _ _ Hr) as (_ & _ & _ & Hk & _).
    split; [|exact Hk]. apply merged_member. rewrite Hk. exact Hr.
  - intros r Hr. apply merged_member, champion_None_spec in Hr
      as (l1 & l2 & E & _ & Hlt & Hle).
    exists l1, l2. auto.
Qed.

(** C2, as the code has it.  The merged list is in descending order of
    score, and two hits of equal score stand in the order in which their
    ids first appeared in the input: the id of the earlier one occurs in
    the input before any occurrence of the id of the later one. *)
Theorem deduplicate_sorted_stable (results l1 l2 l3 : list ScoredPoint)
    (r1 r2 : ScoredPoint) :
  _deduplicate_results results = l1 ++ r1 :: l2 ++ r2 :: l3 ->
  score r2 <= score r1
  /\ (score r1 = score r2 ->
      exists p h s,
        results = p ++ h :: s /\ point_id h = point_id r1
        /\ forall h', h' ∈ p -> point_id h' <> point_id r2).
Proof.
  intros E.
  pose proof (pair_sublist_split r1 r2 l1 l2 l3) as Hsub. rewrite <- E in Hsub.
  apply sorted_reverse_pairs in Hsub as [Hle Hst].
  split; [exact Hle|]. intros Heq. specialize (Hst Heq).
  apply (fmap_sublist point_id) in Hst. rewrite seen_ids_keys in Hst.
  rewrite fold_dedup_keys in Hst.
  apply (proj2 (first_seen_spec results)) in Hst. exact Hst.
Qed.

Lemma deduplicate_sorted_stable_witness :
  score (hit 1 1) <= score (hit 2 1)
  /\ (score (hit 2 1) = score (hit 1 1) ->
      exists p h s,
        [hit 2 1; hit 1 1] = p ++ h :: s /\ point_id h = point_id (hit 2 1)
        /\ forall h', h' ∈ p -> point_id h' <> point_id (hit 1 1)).
Proof.
  apply (deduplicate_sorted_stable [hit 2 1; hit 1 1] [] [] [] (hit 2 1) (hit 1 1)).
  reflexivity.
Defined.

(** C2 as stated fails: two hits of equal score come out in input order,
    here id 2 before id 1. *)
Lemma deduplicate_not_sorted_by_id :
  ~ sorted_by_score_then_id (_deduplicate_results [hit 2 1; hit 1 1]).
Proof.
  intros H.
  destruct (H [] (hit 2 1) [] (hit 1 1) [] eq_refl) as [_ Hid].
  specialize (Hid eq_refl). vm_compute in Hid. discriminate Hid.
Qed.

(** ** Query expansion *)

Section Expansion.

Context (svc : Services) (self : MultiQueryRetriever).

Lemma generate_queries_blank original_query w :
  PyStr.strip original_query = "" ->
  generate_queries svc self original_query w
  = (Raise (RetrievalError "Cannot generate queries from empty input" []), w).
Proof.
  intros H. unfold generate_queries. rewrite bool_decide_true by exact H.
  reflexivity.
Qed.

(** On a query that is not blank, exactly one generation call is made, and
    the answer is a list whatever the call does. *)
Lemma generate_queries_run original_query w :
  PyStr.strip original_query <> "" ->
  generate_queries svc self original_query w
  = (Ok (match llm_generate svc (length (generate_calls w))
                 (expansion_messages self original_query) false with
         | Ok result =>
             match first_generation_text result with
             | Ok variations_text =>
                 all_queries_of self original_query variations_text
             | Raise _ => [original_query]
             end
         | Raise _ => [original_query]
         end),
     log_generate (expansion_messages self original_query, false) w).
Proof.
  intros H. unfold generate_queries. rewrite bool_decide_false by exact H.
  unfold try_except, bind, generate, lift, ret.
  destruct (llm_generate svc _ _ _) as [result|e]; [|reflexivity].
  destruct (first_generation_text result); reflexivity.
Qed.

Lemma all_queries_of_shape original_query variations_text :
  0 <= num_variations self ->
  exists variants,
    all_queries_of self original_query variations_text
    = original_query :: variants
    /\ Z.of_nat (length variants) <= num_variations self
    /\ forall v, v ∈ variants -> v <> original_query.
Proof.
  intros Hnv. unfold all_queries_of, PyStr.slice_to.
  destruct (Z.leb_spec 0 (num_variations self + 1)) as [_|]; [|lia].
  replace (Z.to_nat (num_variations self + 1))
    with (S (Z.to_nat (num_variations self))) by lia.
  simpl. eexists. split; [reflexivity|]. split.
  - rewrite length_take. lia.
  - intros v Hv.
    pose proof (elem_of_sublist _ _ _ Hv (sublist_take _ _)) as Hv'.
    apply list_elem_of_filter in Hv' as [Hne _]. exact Hne.
Qed.

(** C6.  When the generation call that [generate_queries] makes raises, or
    returns a result without a first generation, the function returns the
    one-element list of the original query; nothing is raised. *)
Theorem generate_queries_soft_failure (original_query : string)
    (w w' : World) (r : Result (list string)) :
  generate_queries svc self original_query w = (r, w') ->
  made_failing_call svc w w' ->
  r = Ok [original_query].
Proof.
  intros Hrun (messages & use_fallback & Hlog & Hfail).
  destruct (decide (PyStr.strip original_query = "")) as [Hblank|Hq].
  - rewrite generate_queries_blank in Hrun by exact Hblank.
    injection Hrun as _ <-. apply (f_equal length) in Hlog.
    rewrite length_app in Hlog. simpl in Hlog. lia.
  - rewrite generate_queries_run in Hrun by exact Hq.
    injection Hrun as <- <-. simpl in Hlog.
    apply app_inv_head in Hlog. injection Hlog as <- <-.
    unfold generation_failed in Hfail.
    destruct (llm_generate svc _ _ _) as [result|e]; [|reflexivity].
    destruct (first_generation_text result); [discriminate | reflexivity].
Qed.

(** C7, as the code has it.  On a query that is not blank the function
    returns a list: the original query first, then at most
    [num_variations] variants, none of them equal to the original query.
    Variants may repeat each other. *)
Theorem generate_queries_shape (original_query : string) (w : World) :
  0 <= num_variations self ->
  PyStr.strip original_query <> "" ->
  exists variants w',
    generate_queries svc self original_query w
    = (Ok (original_query :: variants), w')
    /\ 1 <= Z.of_nat (length (original_query :: variants))
         <= num_variations self + 1
    /\ forall v, v ∈ variants -> v <> original_query.
Proof.
  intros Hnv Hq. rewrite generate_queries_run by exact Hq.
  assert (exists variants,
            match llm_generate svc (length (generate_calls w))
                    (expansion_messages self original_query) false with
            | Ok result =>
                match first_generation_text result with
                | Ok variations_text =>
                    all_queries_of self original_query variations_text
                | Raise _ => [original_query]
                end
            | Raise _ => [original_query]
            end = original_query :: variants
            /\ Z.of_nat (length variants) <= num_variations self
            /\ forall v, v ∈ variants -> v <> original_query) as (vs & -> & Hlen & Hne).
  { assert (exists variants : list string,
              [original_query] = original_query :: variants
              /\ Z.of_nat (length variants) <= num_variations self
              /\ forall v, v ∈ variants -> v <> original_query) as Hnil.
    { exists []. split; [reflexivity|]. split; [simpl; lia|].
      intros v Hv. inversion Hv. }
    destruct (llm_generate svc _ _ _) as [result|e]; [|exact Hnil].
    destruct (first_generation_text result); [|exact Hnil].
    apply all_queries_of_shape, Hnv. }
  exists vs, (log_generate (expansion_messages self original_query, false) w).
  split; [reflexivity|]. split; [|exact Hne].
  simpl length. lia.
Qed.

End Expansion.

Lemma generate_queries_soft_failure_witness :
  fst (generate_queries failing_llm three_variations "Explain recursion"
         fresh_world)
  = Ok ["Explain recursion"].
Proof.
  apply (generate_queries_soft_failure failing_llm three_variations
           "Explain recursion" fresh_world
           (snd (generate_queries failing_llm three_variations
                   "Explain recursion" fresh_world))).
  - vm_compute. reflexivity.
  - exists (expansion_messages three_variations "Explain recursion"), false.
    split; vm_compute; reflexivity.
Defined.

Lemma generate_queries_shape_witness :
  exists variants w',
    generate_queries repeating_llm three_variations "recursion" fresh_world
    = (Ok ("recursion" :: variants), w')
    /\ 1 <= Z.of_nat (length ("recursion" :: variants))
         <= num_variations three_variations + 1
    /\ forall v, v ∈ variants -> v <> "recursion".
Proof.
  apply (generate_queries_shape repeating_llm three_variations "recursion"
           fresh_world).
  - vm_compute. discriminate.
  - vm_compute. discriminate.
Defined.

(** C7 as stated fails: an answer that repeats a line gives a list that
    repeats a variant. *)
Lemma generate_queries_repeats_variant :
  fst (generate_queries repeating_llm three_variations "recursion" fresh_world)
  = Ok ["recursion"; "loops"; "loops"]
  /\ ~ queries_as_specified three_variations "recursion"
         ["recursion"; "loops"; "loops"].
Proof.
  split.
  - vm_compute. reflexivity.
  - intros (_ & _ & Hnd). apply NoDup_cons in Hnd as [_ Hnd].
    apply NoDup_cons in Hnd as [Hnotin _]. apply Hnotin. left.
Qed.

(** ** The embedding batch *)

Section Batch.

Context (svc : Services) (cache : gmap string Embedding) (use_cache : bool).

Local Abbreviation uncached := (uncached_texts svc cache use_cache).
Local Abbreviation cached := (cached_vectors svc cache use_cache).
Local Abbreviation positions := (uncached_positions svc cache use_cache).
Local Abbreviation ordered := (in_input_order svc cache use_cache).

Lemma partition_cached_spec texts : forall i es ts ixs,
  partition_cached svc cache use_cache i texts es ts ixs
  = (es ++ cached texts, ts ++ uncached texts, ixs ++ positions i texts).
Proof.
  induction texts as [|text rest IH]; intros i es ts ixs; simpl.
  - rewrite !app_nil_r. reflexivity.
  - unfold uncached_texts, cached_vectors.
    rewrite filter_cons. simpl.
    destruct (cache_hit svc cache use_cache text) as [e|] eqn:Hhit.
    + rewrite IH, decide_False by discriminate.
      rewrite <- app_assoc. reflexivity.
    + rewrite IH, decide_True by reflexivity.
      rewrite <- !app_assoc. reflexivity.
Qed.

Lemma uncached_positions_ge texts : forall i j,
  j ∈ positions i texts -> (i <= j)%nat.
Proof.
  induction texts as [|text rest IH]; intros i j Hj; simpl in Hj.
  - inversion Hj.
  - destruct (cache_hit svc cache use_cache text).
    + apply IH in Hj. lia.
    + apply elem_of_cons in Hj as [->|Hj]; [lia|]. apply IH in Hj. lia.
Qed.

Lemma drop_cons_inv {A} (l : list A) n x xs :
  drop n l = x :: xs -> l !! n = Some x /\ drop (S n) l = xs.
Proof.
  intros H. split.
  - rewrite <- (Nat.add_0_r n), <- lookup_drop, H. reflexivity.
  - replace (S n) with (n + 1)%nat by lia.
    rewrite <- drop_drop, H. reflexivity.
Qed.

(** The merge loop gives every text its cached vector or the next new
    one, as long as the service returned enough vectors. *)
Lemma merge_with_cached_spec texts : forall i ixs new ni emb ci,
  (forall j, j ∈ ixs -> (j < i)%nat) ->
  (ni + length (uncached texts) <= length new)%nat ->
  drop ci emb = cached texts ->
  merge_with_cached (seq i (length texts)) (ixs ++ positions i texts)
    new emb ni ci
  = Ok (ordered texts (drop ni new)).
Proof.
  induction texts as [|text rest IH]; intros i ixs new ni emb ci Hixs Hlen Hemb.
  - reflexivity.
  - simpl. unfold uncached_texts, cached_vectors in Hlen, Hemb.
    rewrite filter_cons in Hlen. simpl in Hemb.
    destruct (cache_hit svc cache use_cache text) as [e|] eqn:Hhit.
    + rewrite decide_False in Hlen by discriminate.
      rewrite bool_decide_false.
      2:{ intros Hin. apply elem_of_app in Hin as [Hin|Hin].
          - apply Hixs in Hin. lia.
          - apply uncached_positions_ge in Hin. lia. }
      apply drop_cons_inv in Hemb as [Hci Hemb].
      unfold index. rewrite Hci.
      rewrite (IH (S i) ixs new ni emb (S ci)).
      * reflexivity.
      * intros j Hj. apply Hixs in Hj. lia.
      * exact Hlen.
      * exact Hemb.
    + rewrite decide_True in Hlen by reflexivity. simpl in Hlen.
      rewrite bool_decide_true.
      2:{ apply elem_of_app. right. left. }
      destruct (drop ni new) as [|v vs] eqn:Hdrop.
      { apply (f_equal length) in Hdrop. rewrite length_drop in Hdrop.
        simpl in Hdrop. lia. }
      apply drop_cons_inv in Hdrop as [Hni Hdrop].
      unfold index. rewrite Hni.
      replace (ixs ++ i :: positions (S i) rest)
        with ((ixs ++ [i]) ++ positions (S i) rest)
        by (rewrite <- app_assoc; reflexivity).
      rewrite (IH (S i) (ixs ++ [i]) new (S ni) emb ci).
      * rewrite Hdrop. reflexivity.
      * intros j Hj. apply elem_of_app in Hj as [Hj|Hj].
        -- apply Hixs in Hj. lia.
        -- apply list_elem_of_singleton in Hj. lia.
      * unfold uncached_texts. lia.
      * exact Hemb.
Qed.

Lemma in_input_order_length texts : forall vs,
  (length (uncached texts) <= length vs)%nat ->
  length (ordered texts vs) = length texts.
Proof.
  induction texts as [|text rest IH]; intros vs Hlen; simpl.
  - reflexivity.
  - unfold uncached_texts in Hlen. rewrite filter_cons in Hlen.
    destruct (cache_hit svc cache use_cache text) as [e|] eqn:Hhit.
    + rewrite decide_False in Hlen by discriminate.
      simpl. rewrite IH by exact Hlen. reflexivity.
    + rewrite decide_True in Hlen by reflexivity. simpl in Hlen.
      destruct vs as [|v vs]; simpl in *; [lia|].
      rewrite IH by (unfold uncached_texts; lia). reflexivity.
Qed.

End Batch.

Lemma empty_cache_uncached svc texts :
  uncached_texts svc ∅ true texts = texts.
Proof.
  induction texts as [|text rest IH]; [reflexivity|].
  unfold uncached_texts in *. rewrite filter_cons, IH.
  rewrite decide_True; [reflexivity|].
  unfold cache_hit. apply lookup_empty.
Qed.

Lemma empty_cache_in_input_order svc texts : forall vs,
  in_input_order svc ∅ true texts vs = take (length texts) vs.
Proof.
  induction texts as [|text rest IH]; intros vs; simpl.
  - reflexivity.
  - unfold cache_hit. rewrite lookup_empty.
    destruct vs as [|v vs]; [reflexivity|]. rewrite IH. reflexivity.
Qed.

Lemma all_cached_in_input_order svc cache use_cache texts vs :
  uncached_texts svc cache use_cache texts = [] ->
  in_input_order svc cache use_cache texts vs
  = cached_vectors svc cache use_cache texts.
Proof.
  induction texts as [|text rest IH]; intros Hun; simpl.
  - reflexivity.
  - unfold uncached_texts in Hun. rewrite filter_cons in Hun.
    unfold cached_vectors. simpl.
    destruct (cache_hit svc cache use_cache text) as [e|] eqn:Hhit.
    + rewrite decide_False in Hun by discriminate.
      rewrite IH by exact Hun. reflexivity.
    + rewrite decide_True in Hun by reflexivity. discriminate Hun.
Qed.

Lemma retry3_first_success {A} (c : M A) w a w' :
  c w = (Ok a, w') -> retry3 c w = (Ok a, w').
Proof. intros H. unfold retry3, try_except. rewrite H. reflexivity. Qed.

(** What one attempt does when the service, if it is needed, answers. *)
Lemma embed_documents_attempt_success svc texts use_cache w vs :
  (uncached_texts svc (_cache w) use_cache texts <> [] ->
   _embeddings w = true
   /\ aembed_documents svc (length (embed_calls w))
        (uncached_texts svc (_cache w) use_cache texts) = Ok vs
   /\ (length (uncached_texts svc (_cache w) use_cache texts) <= length vs)%nat) ->
  exists w',
    embed_documents_attempt svc texts use_cache w
    = (Ok (in_input_order svc (_cache w) use_cache texts vs), w')
    /\ embed_calls w'
       = embed_calls w
         ++ match uncached_texts svc (_cache w) use_cache texts with
            | [] => []
            | batch => [batch]
            end.
Proof.
  intros Hsvc. destruct texts as [|text rest].
  { exists w. split; [reflexivity|]. simpl. rewrite app_nil_r. reflexivity. }
  remember (text :: rest) as texts eqn:Htexts.
  assert (embed_documents_attempt svc texts use_cache w
          = try_except
              (fun w =>
                 let '(embeddings, texts_to_embed, text_indices) :=
                   partition_cached svc (_cache w) use_cache 0 texts [] [] [] in
                 match texts_to_embed with
                 | [] => ret embeddings w
                 | _ =>
                     (let* new_embeddings :=
                        embeddings_aembed_documents svc texts_to_embed in
                      let* _ :=
                        cache_results svc use_cache
                          (zip texts_to_embed new_embeddings) in
                      lift (merge_with_cached (seq 0 (length texts)) text_indices
                              new_embeddings embeddings 0 0)) w
                 end)
              (fun e =>
                 raise (EmbeddingError
                          ("Failed to generate batch embeddings: " +:+ exn_str e)))
              w) as ->.
  { subst texts. reflexivity. }
  clear Htexts text rest.
  unfold try_except. rewrite partition_cached_spec. simpl app.
  destruct (uncached_texts svc (_cache w) use_cache texts) as [|u us] eqn:Hun.
  - exists w. unfold ret. rewrite app_nil_r.
    rewrite all_cached_in_input_order by exact Hun. split; reflexivity.
  - destruct Hsvc as (Hinit & Hcall & Hlen); [discriminate|].
    unfold bind, embeddings_aembed_documents, bind, embeddings, cache_results, lift.
    rewrite Hinit, Hcall.
    assert (merge_with_cached (seq 0 (length texts))
              (uncached_positions svc (_cache w) use_cache 0 texts) vs
              (cached_vectors svc (_cache w) use_cache texts) 0 0
            = Ok (in_input_order svc (_cache w) use_cache texts vs)) as Hmerge.
    { apply (merge_with_cached_spec svc (_cache w) use_cache texts 0 [] vs 0
               (cached_vectors svc (_cache w) use_cache texts) 0).
      - intros j Hj. inversion Hj.
      - rewrite Hun. exact Hlen.
      - reflexivity. }
    rewrite Hmerge. eexists. split; [reflexivity|].
    destruct use_cache; reflexivity.
Qed.

(** C5, as the code has it.  When the embedding service answers the batch
    of the texts that the cache does not hold with at least as many
    vectors, [embed_documents] makes that one service call (none when
    every text is cached) and returns one vector per input text in input
    order: the cached vector of a cached text, the next new vector
    otherwise.  With an empty cache the argument of the call is the whole
    input list, repetitions included, and the result is the service's
    answer, cut to the number of texts. *)
Theorem embed_documents_one_batch_in_order (svc : Services)
    (texts : list string) (use_cache : bool) (w : World)
    (vs : list Embedding) :
  (uncached_texts svc (_cache w) use_cache texts <> [] ->
   _embeddings w = true
   /\ aembed_documents svc (length (embed_calls w))
        (uncached_texts svc (_cache w) use_cache texts) = Ok vs
   /\ (length (uncached_texts svc (_cache w) use_cache texts) <= length vs)%nat) ->
  exists w',
    embed_documents svc texts use_cache w
    = (Ok (in_input_order svc (_cache w) use_cache texts vs), w')
    /\ embed_calls w'
       = embed_calls w
         ++ match uncached_texts svc (_cache w) use_cache texts with
            | [] => []
            | batch => [batch]
            end
    /\ length (in_input_order svc (_cache w) use_cache texts vs) = length texts
    /\ (_cache w = ∅ -> use_cache = true ->
        uncached_texts svc (_cache w) use_cache texts = texts
        /\ in_input_order svc (_cache w) use_cache texts vs
           = take (length texts) vs).
Proof.
  intros Hsvc.
  destruct (embed_documents_attempt_success svc texts use_cache w vs Hsvc)
    as (w' & Hrun & Hlog).
  exists w'. split; [|split; [exact Hlog|split]].
  - unfold embed_documents. apply retry3_first_success, Hrun.
  - destruct (uncached_texts svc (_cache w) use_cache texts) as [|u us] eqn:Hun.
    + apply in_input_order_length. rewrite Hun. simpl. lia.
    + apply in_input_order_length. rewrite Hun.
      apply Hsvc. discriminate.
  - intros -> ->. split.
    + apply empty_cache_uncached.
    + apply empty_cache_in_input_order.
Qed.

Lemma embed_documents_one_batch_in_order_witness :
  exists w',
    embed_documents caching_service ["a"; "b"; "a"] true fresh_world
    = (Ok (in_input_order caching_service (_cache fresh_world) true
             ["a"; "b"; "a"] [[97; 1]; [98; 1]; [97; 1]]), w')
    /\ embed_calls w'
       = embed_calls fresh_world
         ++ match uncached_texts caching_service (_cache fresh_world) true
                  ["a"; "b"; "a"] with
            | [] => []
            | batch => [batch]
            end
    /\ length (in_input_order caching_service (_cache fresh_world) true
                 ["a"; "b"; "a"] [[97; 1]; [98; 1]; [97; 1]])
       = length ["a"; "b"; "a"]
    /\ (_cache fresh_world = ∅ -> true = true ->
        uncached_texts caching_service (_cache fresh_world) true
          ["a"; "b"; "a"] = ["a"; "b"; "a"]
        /\ in_input_order caching_service (_cache fresh_world) true
             ["a"; "b"; "a"] [[97; 1]; [98; 1]; [97; 1]]
           = take (length ["a"; "b"; "a"]) [[97; 1]; [98; 1]; [97; 1]]).
Proof.
  apply (embed_documents_one_batch_in_order caching_service ["a"; "b"; "a"]
           true fresh_world [[97; 1]; [98; 1]; [97; 1]]).
  intros _. split; [reflexivity | split; [reflexivity | vm_compute; lia]].
Defined.

(** C5 as stated fails: the one call is made on the three texts, with the
    repeated text twice, not on the set of the two distinct texts. *)
Lemma embed_documents_batch_repeats_text :
  embed_calls (snd (embed_documents caching_service ["a"; "b"; "a"] true
                      fresh_world))
  = [["a"; "b"; "a"]]
  /\ ~ batch_as_specified ["a"; "b"; "a"]
         (embed_calls (snd (embed_documents caching_service ["a"; "b"; "a"] true
                              fresh_world)))
         (fst (embed_documents caching_service ["a"; "b"; "a"] true fresh_world)).
Proof.
  assert (embed_calls (snd (embed_documents caching_service ["a"; "b"; "a"] true
                              fresh_world))
          = [["a"; "b"; "a"]]) as Hcalls by (vm_compute; reflexivity).
  split; [exact Hcalls|].
  rewrite Hcalls. intros [(batch & [= <-] & Hnd & _) _].
  apply NoDup_cons in Hnd as [Hnotin _]. apply Hnotin. right. left.
Qed.

(** ** The compressor *)

Section Compression.

Context (svc : Services) (self : ContextualizedCompressor) (query : string).

Lemma compress_single_run document_text w :
  _compress_single_document svc self document_text query w
  = (Ok (compression_result svc self (length (generate_calls w))
           document_text query),
     log_generate
       ([SystemMessage (COMPRESSION_SYSTEM_PROMPT query document_text)],
        use_fallback_model self) w).
Proof.
  unfold _compress_single_document, compression_result.
  unfold try_except, bind, generate, lift, ret.
  destruct (llm_generate svc _ _ _) as [result|e]; [|reflexivity].
  destruct (first_generation_text result); reflexivity.
Qed.

(** One turn of the loop on a document that the budget still admits. *)
Lemma compress_loop_step doc rest compressed_docs total_tokens w :
  total_tokens < max_context_length self ->
  compress_loop svc self query (doc :: rest) compressed_docs total_tokens w
  = let c := compression_result svc self (length (generate_calls w))
               (page_content doc) query in
    let w1 :=
      log_generate
        ([SystemMessage (COMPRESSION_SYSTEM_PROMPT query (page_content doc))],
         use_fallback_model self) w in
    if bool_decide (c = "NOT_RELEVANT")
    then compress_loop svc self query rest compressed_docs total_tokens w1
    else compress_loop svc self query rest
           (compressed_docs ++ [compressed_doc doc c])
           (total_tokens + PyStr.len c / 4) w1.
Proof.
  intros Hbudget. simpl.
  destruct (Z.leb_spec (max_context_length self) total_tokens) as [|_]; [lia|].
  unfold bind at 1. rewrite compress_single_run.
  destruct (bool_decide _); reflexivity.
Qed.

Lemma compress_loop_stop documents compressed_docs total_tokens w :
  max_context_length self <= total_tokens ->
  compress_loop svc self query documents compressed_docs total_tokens w
  = (Ok (compressed_docs, total_tokens), w).
Proof.
  intros Hbudget. destruct documents as [|doc rest]; simpl.
  - reflexivity.
  - destruct (Z.leb_spec (max_context_length self) total_tokens) as [_|]; [|lia].
    reflexivity.
Qed.

Lemma estimated_tokens_snoc documents doc :
  estimated_tokens (documents ++ [doc])
  = estimated_tokens documents + PyStr.len (page_content doc) / 4.
Proof.
  unfold estimated_tokens. induction documents as [|d ds IH]; simpl.
  - lia.
  - rewrite IH. lia.
Qed.

(** The loop always returns.  What it adds are compressed forms of input
    documents whose compression result is not the sentinel, the k-th
    document being compressed by the k-th call of the loop; the running
    total grows by the estimate of exactly the added documents. *)
Lemma compress_loop_spec documents : forall compressed_docs total_tokens w,
  exists out w',
    compress_loop svc self query documents compressed_docs total_tokens w
    = (Ok (compressed_docs ++ out, total_tokens + estimated_tokens out), w')
    /\ (length out <= length documents)%nat
    /\ forall d', d' ∈ out ->
         exists k doc,
           documents !! k = Some doc
           /\ compression_result svc self (length (generate_calls w) + k)
                (page_content doc) query <> "NOT_RELEVANT"
           /\ d' = compressed_doc doc
                     (compression_result svc self
                        (length (generate_calls w) + k)
                        (page_content doc) query).
Proof.
  induction documents as [|doc rest IH]; intros compressed_docs total_tokens w.
  - exists [], w. simpl. rewrite app_nil_r, Z.add_0_r.
    split; [reflexivity|]. split; [lia|]. intros d' Hd'. inversion Hd'.
  - destruct (Z.le_gt_cases (max_context_length self) total_tokens) as [Hstop|Hgo].
    + exists [], w. rewrite compress_loop_stop by exact Hstop.
      simpl. rewrite app_nil_r, Z.add_0_r.
      split; [reflexivity|]. split; [lia|]. intros d' Hd'. inversion Hd'.
    + rewrite compress_loop_step by exact Hgo. cbv zeta.
      set (c := compression_result svc self (length (generate_calls w))
                  (page_content doc) query).
      set (w1 := log_generate _ w).
      assert (length (generate_calls w1) = S (length (generate_calls w))) as Hw1.
      { unfold w1, log_generate. simpl. rewrite length_app. simpl. lia. }
      case_bool_decide as Hc.
      * destruct (IH compressed_docs total_tokens w1) as (out & w' & Hrun & Hlen & Hout).
        exists out, w'. split; [exact Hrun|]. split; [simpl; lia|].
        intros d' Hd'. destruct (Hout d' Hd') as (k & dk & Hk & Hne & Hd).
        exists (S k), dk. rewrite Hw1 in Hne, Hd.
        replace (length (generate_calls w) + S k)%nat
          with (S (length (generate_calls w)) + k)%nat by lia.
        auto.
      * destruct (IH (compressed_docs ++ [compressed_doc doc c])
                    (total_tokens + PyStr.len c / 4) w1)
          as (out & w' & Hrun & Hlen & Hout).
        exists (compressed_doc doc c :: out), w'. split; [|split].
        -- rewrite Hrun, <- app_assoc.
           change (estimated_tokens (compressed_doc doc c :: out))
             with (PyStr.len c / 4 + estimated_tokens out).
           rewrite Z.add_assoc. reflexivity.
        -- simpl; lia.
        -- intros d' Hd'. apply elem_of_cons in Hd' as [->|Hd'].
           ++ exists 0%nat, doc. rewrite Nat.add_0_r. fold c. auto.
           ++ destruct (Hout d' Hd') as (k & dk & Hk & Hne & Hd).
              exists (S k), dk. rewrite Hw1 in Hne, Hd.
              replace (length (generate_calls w) + S k)%nat
                with (S (length (generate_calls w)) + k)%nat by lia.
              auto.
Qed.

End Compression.

Lemma compress_documents_run svc self documents query w :
  PyStr.strip query <> "" ->
  compress_documents svc self documents query w
  = match compress_loop svc self query documents [] 0 w with
    | (Ok r, w') => (Ok (fst r), w')
    | (Raise _, w') => (Ok (_fallback_truncate self documents), w')
    end.
Proof.
  intros Hq. destruct documents as [|doc rest]; [reflexivity|].
  unfold compress_documents. rewrite bool_decide_false by exact Hq.
  unfold try_except, bind, ret.
  destruct (compress_loop _ _ _ _ _ _ _) as [[r|e] w']; reflexivity.
Qed.

(** C10.  On an empty list of documents [compress_documents] returns the
    empty list, and on a blank query it returns the documents it was
    given; in both cases the world is untouched: no generation call is
    made. *)
Theorem compress_documents_trivial_inputs (svc : Services)
    (self : ContextualizedCompressor) (documents : list Document)
    (query : string) (w : World) :
  compress_documents svc self [] query w = (Ok [], w)
  /\ (PyStr.strip query = "" ->
      compress_documents svc self documents query w = (Ok documents, w)).
Proof.
  split; [reflexivity|]. intros Hq.
  destruct documents as [|doc rest]; [reflexivity|].
  unfold compress_documents. rewrite bool_decide_true by exact Hq.
  reflexivity.
Qed.

(** C3, as the code has it.  With a budget of 1000 and three documents
    whose compressed contents are each estimated at 400 tokens, none of
    them the sentinel, all three come back: the budget is compared with
    the running total before a document is compressed, and the total is
    0, 400 and 800 before the three.  Whatever follows them is dropped,
    the total being 1200 by then. *)
Theorem compress_documents_budget_example (svc : Services)
    (self : ContextualizedCompressor) (query : string)
    (d1 d2 d3 : Document) (rest : list Document) (w : World) :
  max_context_length self = 1000 ->
  PyStr.strip query <> "" ->
  let n := length (generate_calls w) in
  let c1 := compression_result svc self n (page_content d1) query in
  let c2 := compression_result svc self (S n) (page_content d2) query in
  let c3 := compression_result svc self (S (S n)) (page_content d3) query in
  c1 <> "NOT_RELEVANT" -> c2 <> "NOT_RELEVANT" -> c3 <> "NOT_RELEVANT" ->
  PyStr.len c1 / 4 = 400 -> PyStr.len c2 / 4 = 400 -> PyStr.len c3 / 4 = 400 ->
  fst (compress_documents svc self (d1 :: d2 :: d3 :: rest) query w)
  = Ok [compressed_doc d1 c1; compressed_doc d2 c2; compressed_doc d3 c3].
Proof.
  intros Hmax Hq n c1 c2 c3 H1 H2 H3 L1 L2 L3.
  rewrite compress_documents_run by exact Hq.
  rewrite compress_loop_step by lia. cbv zeta. fold n. fold c1.
  rewrite bool_decide_false by exact H1.
  set (w1 := log_generate _ w).
  assert (length (generate_calls w1) = S n) as E1.
  { unfold w1, log_generate, n. simpl. rewrite length_app. simpl. lia. }
  rewrite compress_loop_step by lia. cbv zeta. rewrite E1. fold c2.
  rewrite bool_decide_false by exact H2.
  set (w2 := log_generate _ w1).
  assert (length (generate_calls w2) = S (S n)) as E2.
  { unfold w2, w1, log_generate, n. simpl. rewrite !length_app. simpl. lia. }
  rewrite compress_loop_step by lia. cbv zeta. rewrite E2. fold c3.
  rewrite bool_decide_false by exact H3.
  rewrite compress_loop_stop by lia. reflexivity.
Qed.

Lemma compress_documents_trivial_inputs_witness :
  compress_documents long_answers budget_1000 [] "recursion" fresh_world
  = (Ok [], fresh_world)
  /\ compress_documents long_answers budget_1000 three_docs "  " fresh_world
     = (Ok three_docs, fresh_world).
Proof.
  destruct (compress_documents_trivial_inputs long_answers budget_1000
              three_docs "recursion" fresh_world) as [Hempty _].
  destruct (compress_documents_trivial_inputs long_answers budget_1000
              three_docs "  " fresh_world) as [_ Hblank].
  split; [exact Hempty|]. apply Hblank. vm_compute. reflexivity.
Defined.

Lemma compress_documents_budget_example_witness :
  fst (compress_documents long_answers budget_1000
         (sample_doc 1 "one" :: sample_doc 2 "two" :: sample_doc 3 "three"
          :: [sample_doc 4 "four"]) "recursion" fresh_world)
  = Ok [compressed_doc (sample_doc 1 "one") (string_times "abcd" 400);
        compressed_doc (sample_doc 2 "two") (string_times "abcd" 400);
        compressed_doc (sample_doc 3 "three") (string_times "abcd" 400)].
Proof.
  apply (compress_documents_budget_example long_answers budget_1000
           "recursion" (sample_doc 1 "one") (sample_doc 2 "two")
           (sample_doc 3 "three") [sample_doc 4 "four"] fresh_world).
  - reflexivity.
  - vm_compute. discriminate.
  - vm_compute. discriminate.
  - vm_compute. discriminate.
  - vm_compute. discriminate.
  - vm_compute. reflexivity.
  - vm_compute. reflexivity.
  - vm_compute. reflexivity.
Defined.

(** C3 as stated fails: the third document comes back too. *)
Lemma compress_documents_keeps_third :
  ~ first_two_only (sample_doc 1 "one") (sample_doc 2 "two")
      (fst (compress_documents long_answers budget_1000 three_docs "recursion"
              fresh_world)).
Proof.
  intros (c1 & c2 & H). vm_compute in H. discriminate H.
Qed.

(** ** The orchestrator *)

Lemma bind_Ok_inv {A B} (c : M A) (k : A -> M B) w b w' :
  bind c k w = (Ok b, w') ->
  exists a w1, c w = (Ok a, w1) /\ k a w1 = (Ok b, w').
Proof.
  unfold bind. destruct (c w) as [[a|e] w1]; intros H.
  - exists a, w1. split; [reflexivity | exact H].
  - discriminate H.
Qed.

Lemma bind_Raise {A B} (c : M A) (k : A -> M B) w e w' :
  c w = (Raise e, w') -> bind c k w = (Raise e, w').
Proof. intros H. unfold bind. rewrite H. reflexivity. Qed.

Lemma bind_Ok {A B} (c : M A) (k : A -> M B) w a w1 :
  c w = (Ok a, w1) -> bind c k w = k a w1.
Proof. intros H. unfold bind. rewrite H. reflexivity. Qed.

Lemma dict_set_length {V} k (v : V) d :
  (length (Dict.set k v d) <= S (length d))%nat.
Proof.
  induction d as [|[k0 v0] d IH]; simpl.
  - lia.
  - destruct (String.eqb k k0); simpl; lia.
Qed.

Lemma fold_dedup_length l : forall d,
  (length (fold_left dedup_step l d) <= length d + length l)%nat.
Proof.
  induction l as [|a l IH]; intros d; simpl.
  - lia.
  - specialize (IH (dedup_step d a)).
    assert (length (dedup_step d a) <= S (length d))%nat.
    { unfold dedup_step. pose proof (dict_set_length (point_id a) a d).
      destruct (Dict.get (point_id a) d) as [old|]; [|assumption].
      destruct (score old <? score a); [assumption | lia]. }
    lia.
Qed.

Lemma deduplicate_length results :
  (length (_deduplicate_results results) <= length results)%nat.
Proof.
  unfold _deduplicate_results. rewrite sorted_reverse_perm.
  unfold Dict.values. rewrite length_fmap.
  pose proof (fold_dedup_length results []). simpl in *. lia.
Qed.

Lemma convert_to_documents_length results : forall documents,
  _convert_to_documents results = Ok documents ->
  length documents = length results.
Proof.
  induction results as [|r rs IH]; intros documents H; simpl in H.
  - injection H as <-. reflexivity.
  - destruct (convert_one r); [|discriminate].
    destruct (_convert_to_documents rs) as [ds|]; [|discriminate].
    injection H as <-. simpl. rewrite (IH ds); reflexivity.
Qed.

Lemma compress_documents_length svc self documents query w out w' :
  compress_documents svc self documents query w = (Ok out, w') ->
  (length out <= length documents)%nat.
Proof.
  destruct (decide (PyStr.strip query = "")) as [Hq|Hq].
  - destruct documents as [|doc rest]; unfold compress_documents.
    + intros [= <- _]. simpl. lia.
    + rewrite bool_decide_true by exact Hq. intros [= <- _]. lia.
  - rewrite compress_documents_run by exact Hq.
    destruct (compress_loop_spec svc self query documents [] 0 w)
      as (out' & w1 & Hrun & Hlen & _).
    rewrite Hrun. simpl. intros [= <- _]. exact Hlen.
Qed.

Lemma generate_queries_length svc self original_query w queries w' :
  0 <= num_variations self ->
  generate_queries svc self original_query w = (Ok queries, w') ->
  Z.of_nat (length queries) <= num_variations self + 1.
Proof.
  intros Hnv. destruct (decide (PyStr.strip original_query = "")) as [Hq|Hq].
  - rewrite generate_queries_blank by exact Hq. discriminate.
  - rewrite generate_queries_run by exact Hq. intros [= <- _].
    destruct (llm_generate svc _ _ _) as [result|e]; [|simpl; lia].
    destruct (first_generation_text result) as [text|]; [|simpl; lia].
    destruct (all_queries_of_shape self original_query text Hnv)
      as (vs & -> & Hlen & _).
    simpl length. lia.
Qed.

Lemma search_each_length svc self qdrant_filter pairs :
  (forall n req hits,
     qdrant_search svc n req = Ok hits -> Z.of_nat (length hits) <= limit req) ->
  forall all_results w found w',
    search_each svc self qdrant_filter pairs all_results w = (Ok found, w') ->
    Z.of_nat (length found)
    <= Z.of_nat (length all_results) + Z.of_nat (length pairs) * top_k self.
Proof.
  intros Hlimit. induction pairs as [|[q v] rest IH];
    intros all_results w found w' H; simpl in H.
  - injection H as <- _. simpl. lia.
  - apply bind_Ok_inv in H as (hits & w1 & Hsearch & Hrest).
    unfold search in Hsearch. injection Hsearch as Hsearch _.
    apply Hlimit in Hsearch. simpl in Hsearch.
    apply IH in Hrest. rewrite length_app in Hrest.
    simpl length. lia.
Qed.

Lemma retrieve_Ok_inv svc settings self query metadata_filter
    enable_multi_query w documents w' :
  retrieve svc settings self query metadata_filter enable_multi_query w
  = (Ok documents, w') ->
  retrieve_body svc settings self query metadata_filter enable_multi_query w
  = (Ok documents, w').
Proof.
  unfold retrieve, try_except, raise.
  destruct (retrieve_body _ _ _ _ _ _ _) as [[ds|e] w1]; intros H.
  - exact H.
  - discriminate H.
Qed.

(** What a successful [retrieve] returns went through the compression
    step: the converted hits, compressed when compression is enabled and
    there is a document. *)
Lemma retrieve_Ok_compression_step svc settings self query metadata_filter
    enable_multi_query w documents w' :
  retrieve svc settings self query metadata_filter enable_multi_query w
  = (Ok documents, w') ->
  exists all_results candidates w1 w2,
    _convert_to_documents (_deduplicate_results all_results) = Ok candidates
    /\ (if enable_compression self && negb (bool_decide (candidates = []))
        then compress_documents svc (compressor settings) candidates query
        else ret candidates) w1 = (Ok documents, w2).
Proof.
  intros Hrun. apply retrieve_Ok_inv in Hrun. unfold retrieve_body in Hrun.
  apply bind_Ok_inv in Hrun as (queries & w1 & _ & Hrun).
  apply bind_Ok_inv in Hrun as (query_embeddings & w2 & _ & Hrun).
  apply bind_Ok_inv in Hrun as (qdrant_filter & w2' & _ & Hrun).
  apply bind_Ok_inv in Hrun as (all_results & w3 & _ & Hrun).
  apply bind_Ok_inv in Hrun as (converted & w4 & Hconv & Hrun).
  apply bind_Ok_inv in Hrun as (compressed & w5 & Hcomp & Hrun).
  apply bind_Ok_inv in Hrun as (u & w6 & _ & Hrun).
  injection Hrun as <- _.
  unfold lift in Hconv. injection Hconv as Hconv <-.
  exists all_results, converted, w3, w5. split; [exact Hconv | exact Hcomp].
Qed.

(** C8.  With a query that is not blank, [compress_documents] returns a
    list in which no document has the sentinel as content; every returned
    document is the compressed form of an input document whose compression
    result is not the sentinel; the running total at the end of the loop
    is the estimate of the returned documents alone; and a turn of the
    loop on a document whose result is the sentinel leaves the list and the
    running total as they were.  Hence the result of [retrieve]: with
    compression enabled, what a successful [retrieve] returns is what
    [compress_documents] returned for the converted hits, so none of its
    documents has the sentinel as content, and each is the compressed form
    of a converted hit whose compression result is not the sentinel. *)
Theorem compress_documents_drops_not_relevant (svc : Services)
    (self : ContextualizedCompressor) (documents : list Document)
    (query : string) (w : World) :
  PyStr.strip query <> "" ->
  (exists out w',
    compress_documents svc self documents query w = (Ok out, w')
    /\ compress_loop svc self query documents [] 0 w
       = (Ok (out, estimated_tokens out), w')
    /\ (forall d', d' ∈ out -> page_content d' <> "NOT_RELEVANT")
    /\ (forall d', d' ∈ out ->
          exists k doc,
            documents !! k = Some doc
            /\ compression_result svc self (length (generate_calls w) + k)
                 (page_content doc) query <> "NOT_RELEVANT"
            /\ d' = compressed_doc doc
                      (compression_result svc self
                         (length (generate_calls w) + k)
                         (page_content doc) query))
    /\ (forall doc rest compressed_docs total_tokens w0,
          total_tokens < max_context_length self ->
          compression_result svc self (length (generate_calls w0))
            (page_content doc) query = "NOT_RELEVANT" ->
          compress_loop svc self query (doc :: rest) compressed_docs
            total_tokens w0
          = compress_loop svc self query rest compressed_docs total_tokens
              (log_generate
                 ([SystemMessage
                     (COMPRESSION_SYSTEM_PROMPT query (page_content doc))],
                  use_fallback_model self) w0)))
  /\ (forall (settings : Settings) (pipeline : RAGPipeline)
        (metadata_filter : option (Dict.t FilterValue))
        (enable_multi_query : bool) (w0 w0' : World) (found : list Document),
        enable_compression pipeline = true ->
        retrieve svc settings pipeline query metadata_filter
          enable_multi_query w0 = (Ok found, w0') ->
        exists all_results candidates w1 w2,
          _convert_to_documents (_deduplicate_results all_results)
          = Ok candidates
          /\ compress_documents svc (compressor settings) candidates query w1
             = (Ok found, w2)
          /\ (forall d', d' ∈ found -> page_content d' <> "NOT_RELEVANT")
          /\ (forall d', d' ∈ found ->
                exists k doc,
                  candidates !! k = Some doc
                  /\ compression_result svc (compressor settings)
                       (length (generate_calls w1) + k)
                       (page_content doc) query <> "NOT_RELEVANT"
                  /\ d' = compressed_doc doc
                            (compression_result svc (compressor settings)
                               (length (generate_calls w1) + k)
                               (page_content doc) query))).
Proof.
  intros Hq.
  assert (forall self0 documents0 w0,
            exists out w',
              compress_documents svc self0 documents0 query w0 = (Ok out, w')
              /\ compress_loop svc self0 query documents0 [] 0 w0
                 = (Ok (out, estimated_tokens out), w')
              /\ forall d', d' ∈ out ->
                   exists k doc,
                     documents0 !! k = Some doc
                     /\ compression_result svc self0
                          (length (generate_calls w0) + k)
                          (page_content doc) query <> "NOT_RELEVANT"
                     /\ d' = compressed_doc doc
                               (compression_result svc self0
                                  (length (generate_calls w0) + k)
                                  (page_content doc) query)) as Hkept.
  { intros self0 documents0 w0.
    destruct (compress_loop_spec svc self0 query documents0 [] 0 w0)
      as (out & w' & Hrun & _ & Hout).
    simpl in Hrun. exists out, w'. split; [|split; [exact Hrun | exact Hout]].
    rewrite compress_documents_run by exact Hq. rewrite Hrun. reflexivity. }
  split.
  - destruct (Hkept self documents w) as (out & w' & Hrun & Hloop & Hout).
    exists out, w'. split; [exact Hrun|]. split; [exact Hloop|].
    split; [|split; [exact Hout|]].
    + intros d' Hd'. destruct (Hout d' Hd') as (k & doc & _ & Hne & ->).
      exact Hne.
    + intros doc rest compressed_docs total_tokens w0 Hbudget Hc.
      rewrite compress_loop_step by exact Hbudget. cbv zeta.
      rewrite bool_decide_true by exact Hc. reflexivity.
  - intros settings pipeline metadata_filter enable_multi_query w0 w0' found
      Hec Hrun.
    apply retrieve_Ok_compression_step in Hrun
      as (all_results & candidates & w1 & w2 & Hconv & Hstep).
    rewrite Hec in Hstep. simpl in Hstep.
    assert (compress_documents svc (compressor settings) candidates query w1
            = (Ok found, w2)) as Hcomp.
    { destruct candidates as [|c cs]; [|exact Hstep].
      simpl in Hstep. exact Hstep. }
    exists all_results, candidates, w1, w2.
    split; [exact Hconv|]. split; [exact Hcomp|].
    destruct (Hkept (compressor settings) candidates w1)
      as (out & w' & Hrun & _ & Hout).
    rewrite Hcomp in Hrun. injection Hrun as <- _. split; [|exact Hout].
    intros d' Hd'. destruct (Hout d' Hd') as (k & doc & _ & Hne & ->).
    exact Hne.
Qed.

Lemma compress_documents_drops_not_relevant_witness :
  (exists out w',
     compress_documents second_not_relevant budget_1000 three_docs "recursion"
       fresh_world = (Ok out, w')
     /\ length out = 2%nat
     /\ forall d', d' ∈ out -> page_content d' <> "NOT_RELEVANT")
  /\ (exists found w',
        retrieve first_not_relevant default_settings compressing_pipeline
          "recursion" None false fresh_world = (Ok found, w')
        /\ length found = 1%nat
        /\ forall d', d' ∈ found -> page_content d' <> "NOT_RELEVANT").
Proof.
  split.
  - destruct (compress_documents_drops_not_relevant second_not_relevant
                budget_1000 three_docs "recursion" fresh_world)
      as [(out & w' & Hrun & _ & Hne & _) _].
    { vm_compute. discriminate. }
    exists out, w'. split; [exact Hrun|]. split; [|exact Hne].
    vm_compute in Hrun. injection Hrun as <- _. reflexivity.
  - destruct (compress_documents_drops_not_relevant first_not_relevant
                budget_1000 three_docs "recursion" fresh_world)
      as [_ Hretrieve].
    { vm_compute. discriminate. }
    destruct (retrieve first_not_relevant default_settings
                compressing_pipeline "recursion" None false fresh_world)
      as [[found|e] w'] eqn:Hrun; [|vm_compute in Hrun; discriminate Hrun].
    destruct (Hretrieve default_settings compressing_pipeline None false
                fresh_world w' found eq_refl Hrun)
      as (all_results & candidates & w1 & w2 & _ & _ & Hne & _).
    exists found, w'. split; [reflexivity|]. split; [|exact Hne].
    vm_compute in Hrun. injection Hrun as <- _. reflexivity.
Defined.

(** C4, as the code has it.  [top_k] caps each search, not the result.
    When the index honours the limit of every search, a successful
    [retrieve] returns at most [top_k] documents per query searched: at
    most [top_k] without query expansion, and at most
    [top_k * (variations + 1)] with it. *)
Theorem retrieve_length_bound (svc : Services) (settings : Settings)
    (self : RAGPipeline) (query : string)
    (metadata_filter : option (Dict.t FilterValue))
    (enable_multi_query : bool) (w w' : World) (documents : list Document) :
  (forall n req hits,
     qdrant_search svc n req = Ok hits -> Z.of_nat (length hits) <= limit req) ->
  0 <= top_k self ->
  0 <= rag_multi_query_variations settings ->
  retrieve svc settings self query metadata_filter enable_multi_query w
  = (Ok documents, w') ->
  Z.of_nat (length documents)
  <= top_k self
     * (if enable_multi_query
        then rag_multi_query_variations settings + 1
        else 1).
Proof.
  intros Hlimit Hk Hnv Hrun. apply retrieve_Ok_inv in Hrun.
  unfold retrieve_body in Hrun.
  apply bind_Ok_inv in Hrun as (queries & w1 & Hqueries & Hrun).
  apply bind_Ok_inv in Hrun as (query_embeddings & w2 & _ & Hrun).
  apply bind_Ok_inv in Hrun as (qdrant_filter & w2' & _ & Hrun).
  apply bind_Ok_inv in Hrun as (all_results & w3 & Hsearch & Hrun).
  apply bind_Ok_inv in Hrun as (converted & w4 & Hconv & Hrun).
  apply bind_Ok_inv in Hrun as (compressed & w5 & Hcomp & Hrun).
  apply bind_Ok_inv in Hrun as (u & w6 & _ & Hrun).
  injection Hrun as <- _.
  assert (Z.of_nat (length queries)
          <= (if enable_multi_query
              then rag_multi_query_variations settings + 1 else 1)) as Hq.
  { destruct enable_multi_query.
    - exact (generate_queries_length svc (multi_query_retriever settings)
               query w queries w1 Hnv Hqueries).
    - injection Hqueries as <- _. simpl. lia. }
  apply (search_each_length svc self _ _ Hlimit) in Hsearch.
  assert (length (zip queries query_embeddings) <= length queries)%nat as Hzip.
  { rewrite length_zip. lia. }
  unfold lift in Hconv. injection Hconv as Hconv _.
  apply convert_to_documents_length in Hconv.
  pose proof (deduplicate_length all_results) as Hdedup.
  assert (length compressed <= length converted)%nat as Hc.
  { destruct (enable_compression self && negb (bool_decide (converted = []))).
    - apply compress_documents_length in Hcomp. exact Hcomp.
    - injection Hcomp as <- _. lia. }
  simpl in Hsearch. nia.
Qed.

Lemma retrieve_length_bound_witness :
  exists documents w',
    retrieve one_variant_llm default_settings top_one "recursion" None false
      fresh_world = (Ok documents, w')
    /\ Z.of_nat (length documents) <= top_k top_one * 1.
Proof.
  destruct (retrieve one_variant_llm default_settings top_one "recursion" None
              false fresh_world) as [[documents|e] w'] eqn:Hrun;
    [|vm_compute in Hrun; discriminate Hrun].
  exists documents, w'. split; [reflexivity|].
  apply (retrieve_length_bound one_variant_llm default_settings top_one
           "recursion" None false fresh_world w' documents).
  - intros n req hits H. simpl in H. unfold one_hit_per_query in H.
    destruct (Z.leb_spec 1 (limit req)).
    + injection H as <-. simpl. lia.
    + destruct (Z.leb_spec 0 (limit req)).
      * injection H as <-. simpl. lia.
      * discriminate H.
  - vm_compute. discriminate.
  - vm_compute. discriminate.
  - exact Hrun.
Defined.

(** C4 as stated fails: with [top_k = 1] and one generated variant, two
    searches bring two different hits and both documents come back. *)
Lemma retrieve_exceeds_top_k :
  (exists d1 d2,
     fst (retrieve one_variant_llm default_settings top_one "recursion" None
            true fresh_world) = Ok [d1; d2])
  /\ ~ within_result_limit top_one
         (fst (retrieve one_variant_llm default_settings top_one "recursion"
                 None true fresh_world)).
Proof.
  split.
  - eexists _, _. vm_compute. reflexivity.
  - intros H.
    destruct (fst (retrieve one_variant_llm default_settings top_one
                     "recursion" None true fresh_world)) as [documents|e] eqn:E;
      vm_compute in E; [|discriminate E].
    injection E as <-. specialize (H _ eq_refl). vm_compute in H.
    apply H. reflexivity.
Qed.

(** C9.  Whatever is raised inside the [try] block of [retrieve] comes out
    as one [RetrievalError] whose details are the query and the collection
    name: so it is for a failure of the embedding step, of the search step
    and of the translation of the filter between them, and no other
    exception ever leaves [retrieve]. *)
Theorem retrieve_raises_only_retrieval_error (svc : Services)
    (settings : Settings) (self : RAGPipeline) (query : string)
    (metadata_filter : option (Dict.t FilterValue))
    (enable_multi_query : bool) (w : World) :
  let wrapped cause :=
    RetrievalError ("RAG retrieval failed: " +:+ exn_str cause)
      [("query", query); ("collection", collection_name self)] in
  let expand : M (list string) :=
    if enable_multi_query
    then generate_queries svc (multi_query_retriever settings) query
    else ret [query] in
  (forall cause w',
     retrieve_body svc settings self query metadata_filter enable_multi_query w
     = (Raise cause, w') ->
     retrieve svc settings self query metadata_filter enable_multi_query w
     = (Raise (wrapped cause), w'))
  /\ (forall queries w1 cause w',
        expand w = (Ok queries, w1) ->
        embed_documents svc queries true w1 = (Raise cause, w') ->
        retrieve svc settings self query metadata_filter enable_multi_query w
        = (Raise (wrapped cause), w'))
  /\ (forall queries w1 query_embeddings w2 qdrant_filter cause w',
        expand w = (Ok queries, w1) ->
        embed_documents svc queries true w1 = (Ok query_embeddings, w2) ->
        _build_qdrant_filter metadata_filter = Ok qdrant_filter ->
        search_each svc self qdrant_filter
          (zip queries query_embeddings) [] w2 = (Raise cause, w') ->
        retrieve svc settings self query metadata_filter enable_multi_query w
        = (Raise (wrapped cause), w'))
  /\ (forall queries w1 query_embeddings w2 cause,
        expand w = (Ok queries, w1) ->
        embed_documents svc queries true w1 = (Ok query_embeddings, w2) ->
        _build_qdrant_filter metadata_filter = Raise cause ->
        retrieve svc settings self query metadata_filter enable_multi_query w
        = (Raise (wrapped cause), w2))
  /\ (forall e w',
        retrieve svc settings self query metadata_filter enable_multi_query w
        = (Raise e, w') ->
        exists cause, e = wrapped cause).
Proof.
  intros wrapped expand.
  assert (forall cause w',
            retrieve_body svc settings self query metadata_filter
              enable_multi_query w = (Raise cause, w') ->
            retrieve svc settings self query metadata_filter
              enable_multi_query w = (Raise (wrapped cause), w')) as Hwrap.
  { intros cause w' H. unfold retrieve, try_except. rewrite H. reflexivity. }
  split; [exact Hwrap|]. split; [|split; [|split]].
  - intros queries w1 cause w' Hexpand Hembed. apply Hwrap.
    unfold retrieve_body. fold expand.
    rewrite (bind_Ok _ _ _ _ _ Hexpand). apply bind_Raise, Hembed.
  - intros queries w1 query_embeddings w2 qdrant_filter cause w'
      Hexpand Hembed Hfilter Hsearch.
    apply Hwrap. unfold retrieve_body. fold expand.
    rewrite (bind_Ok _ _ _ _ _ Hexpand), (bind_Ok _ _ _ _ _ Hembed).
    rewrite (bind_Ok _ _ w2 qdrant_filter w2)
      by (unfold lift; rewrite Hfilter; reflexivity).
    apply bind_Raise, Hsearch.
  - intros queries w1 query_embeddings w2 cause Hexpand Hembed Hfilter.
    apply Hwrap. unfold retrieve_body. fold expand.
    rewrite (bind_Ok _ _ _ _ _ Hexpand), (bind_Ok _ _ _ _ _ Hembed).
    apply bind_Raise. unfold lift. rewrite Hfilter. reflexivity.
  - intros e w'. unfold retrieve, try_except, raise.
    destruct (retrieve_body _ _ _ _ _ _ _) as [[ds|cause] w1]; intros H.
    + discriminate H.
    + injection H as <- _. exists cause. reflexivity.
Qed.

Lemma retrieve_raises_only_retrieval_error_witness :
  fst (retrieve failing_index default_settings top_one "recursion" None false
         fresh_world)
  = Raise (RetrievalError "RAG retrieval failed: connection reset"
             [("query", "recursion"); ("collection", "courses")]).
Proof.
  destruct (retrieve_raises_only_retrieval_error failing_index default_settings
              top_one "recursion" None false fresh_world)
    as (_ & _ & Hsearch & _).
  rewrite (Hsearch ["recursion"] fresh_world [[114; 9]]
             (snd (embed_documents failing_index ["recursion"] true fresh_world))
             None transport_error
             (snd (retrieve failing_index default_settings top_one "recursion"
                     None false fresh_world))).
  - reflexivity.
  - reflexivity.
  - vm_compute. reflexivity.
  - reflexivity.
  - vm_compute. reflexivity.
Defined.

(** * Further properties *)

(** ** The result merger, again *)

Lemma champion_max k l r :
  champion k None l = Some r ->
  r ∈ l /\ point_id r = k
  /\ forall h, h ∈ l -> point_id h = k -> score h <= score r.
Proof.
  intros H. apply champion_None_spec in H as (l1 & l2 & -> & Hk & Hlt & Hle).
  split; [|split; [exact Hk|]].
  - apply elem_of_app. right. left.
  - intros h Hh Hid. apply elem_of_app in Hh as [Hh|Hh].
    + specialize (Hlt h Hh Hid). lia.
    + apply elem_of_cons in Hh as [->|Hh]; [lia|]. apply Hle; assumption.
Qed.

Lemma dict_set_fresh {V} k (v : V) d :
  k ∉ Dict.keys d -> Dict.set k v d = d ++ [(k, v)].
Proof.
  induction d as [|[k0 v0] d IH]; simpl; intros Hk.
  - reflexivity.
  - apply not_elem_of_cons in Hk as [Hne Hk].
    destruct (String.eqb_spec k k0); [contradiction|].
    rewrite IH by exact Hk. reflexivity.
Qed.

Lemma fold_dedup_distinct l : forall d,
  NoDup (point_id <$> l) ->
  (forall h, h ∈ l -> point_id h ∉ Dict.keys d) ->
  fold_left dedup_step l d = d ++ ((fun r => (point_id r, r)) <$> l).
Proof.
  induction l as [|a l IH]; intros d Hnd Hfresh; simpl.
  - rewrite app_nil_r. reflexivity.
  - simpl in Hnd. apply NoDup_cons in Hnd as [Ha Hnd].
    assert (dedup_step d a = d ++ [(point_id a, a)]) as ->.
    { unfold dedup_step.
      assert (point_id a ∉ Dict.keys d) as Hk by (apply Hfresh; left).
      rewrite (proj2 (dict_get_None _ _) Hk). apply dict_set_fresh, Hk. }
    rewrite IH.
    + rewrite <- app_assoc. reflexivity.
    + exact Hnd.
    + intros h Hh. unfold Dict.keys. rewrite fmap_app. simpl.
      intros Hin. apply elem_of_app in Hin as [Hin|Hin].
      * apply (Hfresh h); [right; exact Hh | exact Hin].
      * apply list_elem_of_singleton in Hin. apply Ha. rewrite <- Hin.
        apply list_elem_of_fmap_2, Hh.
Qed.

Lemma sorted_reverse_fixed {A} (key : A -> Z) l :
  (forall x y, [x; y] `sublist_of` l -> key y <= key x) ->
  sorted_reverse key l = l.
Proof.
  induction l as [|a l IH]; intros Hdesc; simpl.
  - reflexivity.
  - rewrite IH by (intros x y Hxy; apply Hdesc, sublist_cons, Hxy).
    destruct l as [|b l]; simpl; [reflexivity|].
    specialize (Hdesc a b (pair_sublist_here a b (b :: l) ltac:(left))).
    destruct (Z.ltb_spec (key a) (key b)); [lia | reflexivity].
Qed.

Lemma deduplicate_distinct l :
  NoDup (point_id <$> l) -> _deduplicate_results l = sorted_reverse score l.
Proof.
  intros Hnd. unfold _deduplicate_results.
  rewrite fold_dedup_distinct.
  - unfold Dict.values. simpl. rewrite <- list_fmap_compose.
    f_equal. apply list_fmap_id.
  - exact Hnd.
  - intros h _ Hin. inversion Hin.
Qed.

(** X1.  Merging is idempotent: a merged list is left as it is. *)
Theorem deduplicate_idempotent (results : list ScoredPoint) :
  _deduplicate_results (_deduplicate_results results)
  = _deduplicate_results results.
Proof.
  rewrite deduplicate_distinct by apply merged_ids_NoDup.
  apply sorted_reverse_fixed. intros x y Hxy.
  apply (sorted_reverse_pairs score _ x y Hxy).
Qed.

(** X2.  Hits with pairwise distinct ids all survive the merge: the output is a
    rearrangement of the input. *)
Theorem deduplicate_distinct_ids_kept (results : list ScoredPoint) :
  NoDup (point_id <$> results) ->
  _deduplicate_results results ≡ₚ results.
Proof.
  intros Hnd. rewrite deduplicate_distinct by exact Hnd.
  apply sorted_reverse_perm.
Qed.

Lemma deduplicate_distinct_ids_kept_witness :
  _deduplicate_results [hit 1 5; hit 2 7; hit 3 6]
  ≡ₚ [hit 1 5; hit 2 7; hit 3 6].
Proof.
  apply (deduplicate_distinct_ids_kept [hit 1 5; hit 2 7; hit 3 6]).
  apply (bool_decide_unpack (NoDup (point_id <$> [hit 1 5; hit 2 7; hit 3 6]))).
  vm_compute. exact I.
Defined.

Lemma merged_pairs_incl l l' r :
  l ≡ₚ l' ->
  r ∈ _deduplicate_results l ->
  exists r', r' ∈ _deduplicate_results l'
             /\ point_id r' = point_id r /\ score r' = score r.
Proof.
  intros Hperm Hr. apply merged_member, champion_max in Hr as (Hin & _ & Hmax).
  assert (r ∈ l') as Hin' by (rewrite <- Hperm; exact Hin).
  destruct (champion_of_member r l' None Hin') as [r' Hr'].
  pose proof (champion_max _ _ _ Hr') as (Hr'in & Hk & Hmax').
  exists r'. split; [|split; [exact Hk|]].
  - apply merged_member. rewrite Hk. exact Hr'.
  - assert (r' ∈ l) as Hr'l by (rewrite Hperm; exact Hr'in).
    specialize (Hmax r' Hr'l Hk). specialize (Hmax' r Hin' eq_refl). lia.
Qed.

(** X3.  The merge does not depend on the order of its input for what it
    keeps: whatever the order in which the hits arrive, the same ids come
    out, each with the same score. *)
Theorem deduplicate_order_insensitive (results results' : list ScoredPoint) :
  results ≡ₚ results' ->
  (fun r => (point_id r, score r)) <$> _deduplicate_results results
  ≡ₚ (fun r => (point_id r, score r)) <$> _deduplicate_results results'.
Proof.
  intros Hperm.
  assert (forall l, NoDup ((fun r => (point_id r, score r))
                             <$> _deduplicate_results l)) as Hnd.
  { intros l. apply (NoDup_fmap_1 fst). rewrite <- list_fmap_compose.
    apply merged_ids_NoDup. }
  assert (forall l l' p, l ≡ₚ l' ->
            p ∈ (fun r => (point_id r, score r)) <$> _deduplicate_results l ->
            p ∈ (fun r => (point_id r, score r)) <$> _deduplicate_results l')
    as Hincl.
  { intros l l' p Hp Hin. apply list_elem_of_fmap in Hin as (r & -> & Hr).
    destruct (merged_pairs_incl l l' r Hp Hr) as (r' & Hr' & <- & <-).
    apply (list_elem_of_fmap_2 (fun r => (point_id r, score r))), Hr'. }
  apply NoDup_Permutation; [apply Hnd | apply Hnd |].
  intros p. split; apply Hincl; [exact Hperm | symmetry; exact Hperm].
Qed.

Lemma deduplicate_order_insensitive_witness :
  (fun r => (point_id r, score r))
    <$> _deduplicate_results [hit 1 5; hit 2 7; hit 1 9]
  ≡ₚ (fun r => (point_id r, score r))
       <$> _deduplicate_results [hit 1 9; hit 1 5; hit 2 7].
Proof.
  apply (deduplicate_order_insensitive [hit 1 5; hit 2 7; hit 1 9]
           [hit 1 9; hit 1 5; hit 2 7]).
  change [hit 1 5; hit 2 7; hit 1 9] with ([hit 1 5; hit 2 7] ++ [hit 1 9]).
  change [hit 1 9; hit 1 5; hit 2 7] with ([hit 1 9] ++ [hit 1 5; hit 2 7]).
  apply Permutation_app_comm.
Defined.

(** ** The truncation fallback of the compressor *)

Lemma len_append a b : PyStr.len (a +:+ b) = PyStr.len a + PyStr.len b.
Proof.
  unfold PyStr.len.
  assert (String.length (a +:+ b) = (String.length a + String.length b)%nat)
    as ->; [|lia].
  induction a as [|c a IH]; simpl; [reflexivity|].
  rewrite IH. reflexivity.
Qed.

Lemma len_prefix n s : PyStr.len (PyStr.prefix n s) <= Z.of_nat n.
Proof.
  unfold PyStr.len. revert s. induction n as [|n IH]; intros s; simpl.
  - lia.
  - destruct s as [|c s]; simpl String.length; [lia|].
    specialize (IH s). lia.
Qed.

Lemma len_nonneg s : 0 <= PyStr.len s.
Proof. unfold PyStr.len. lia. Qed.

Lemma estimated_tokens_nonneg documents : 0 <= estimated_tokens documents.
Proof.
  unfold estimated_tokens. induction documents as [|d ds IH]; simpl.
  - lia.
  - pose proof (len_nonneg (page_content d)).
    assert (0 <= PyStr.len (page_content d) / 4) by (apply Z.div_pos; lia).
    lia.
Qed.

Lemma estimated_tokens_cons d ds :
  estimated_tokens (d :: ds)
  = PyStr.len (page_content d) / 4 + estimated_tokens ds.
Proof. reflexivity. Qed.

Lemma fallback_loop_acc self documents : forall truncated_docs total_tokens,
  fallback_loop self documents truncated_docs total_tokens
  = truncated_docs ++ fallback_loop self documents [] total_tokens.
Proof.
  induction documents as [|doc rest IH]; intros acc total; simpl.
  - rewrite app_nil_r. reflexivity.
  - destruct (max_context_length self <? total + PyStr.len (page_content doc) / 4).
    + destruct (0 <? (max_context_length self - total) * 4); simpl.
      * reflexivity.
      * rewrite app_nil_r. reflexivity.
    + rewrite (IH (acc ++ [doc])), (IH ([] ++ [doc])).
      rewrite <- app_assoc. reflexivity.
Qed.

Lemma fallback_loop_budget self documents : forall total_tokens,
  total_tokens <= max_context_length self ->
  total_tokens + estimated_tokens (fallback_loop self documents [] total_tokens)
  <= max_context_length self.
Proof.
  induction documents as [|doc rest IH]; intros total Htotal; simpl.
  - unfold estimated_tokens. simpl. lia.
  - destruct (Z.ltb_spec (max_context_length self)
                (total + PyStr.len (page_content doc) / 4)) as [Hover|Hfits].
    + destruct (Z.ltb_spec 0 ((max_context_length self - total) * 4))
        as [Hroom|Hnone].
      * rewrite estimated_tokens_cons. simpl page_content.
        rewrite len_append.
        pose proof (len_prefix
                      (Z.to_nat ((max_context_length self - total) * 4))
                      (page_content doc)) as Hp.
        rewrite Z2Nat.id in Hp by lia.
        change (PyStr.len "...") with 3.
        change (estimated_tokens []) with 0.
        assert ((PyStr.len
                   (PyStr.prefix
                      (Z.to_nat ((max_context_length self - total) * 4))
                      (page_content doc)) + 3) / 4
                < max_context_length self - total + 1).
        { apply Z.div_lt_upper_bound; lia. }
        lia.
      * change (estimated_tokens []) with 0. lia.
    + rewrite fallback_loop_acc. simpl app. rewrite estimated_tokens_cons.
      specialize (IH (total + PyStr.len (page_content doc) / 4) Hfits). lia.
Qed.

(** X4.  The fallback keeps its promise: with a budget that is not negative,
    the estimated tokens of what [_fallback_truncate] returns never exceed
    [max_context_length], the cut document and its ellipsis included. *)
Theorem fallback_truncate_within_budget (self : ContextualizedCompressor)
    (documents : list Document) :
  0 <= max_context_length self ->
  estimated_tokens (_fallback_truncate self documents)
  <= max_context_length self.
Proof.
  intros Hmax. unfold _fallback_truncate.
  pose proof (fallback_loop_budget self documents 0 Hmax). lia.
Qed.

Lemma fallback_truncate_within_budget_witness :
  estimated_tokens
    (_fallback_truncate budget_1000
       ((fun n => sample_doc n (string_times "abcd" 400)) <$> [1; 2; 3]))
  <= max_context_length budget_1000.
Proof.
  apply (fallback_truncate_within_budget budget_1000).
  vm_compute. discriminate.
Defined.

Lemma fallback_loop_fits self documents : forall total_tokens,
  total_tokens + estimated_tokens documents <= max_context_length self ->
  fallback_loop self documents [] total_tokens = documents.
Proof.
  induction documents as [|doc rest IH]; intros total Hfits; simpl.
  - reflexivity.
  - rewrite estimated_tokens_cons in Hfits.
    pose proof (estimated_tokens_nonneg rest).
    destruct (Z.ltb_spec (max_context_length self)
                (total + PyStr.len (page_content doc) / 4)); [lia|].
    rewrite fallback_loop_acc. simpl app. rewrite IH by lia. reflexivity.
Qed.

(** X5.  Documents that fit the budget together pass through the fallback
    untouched. *)
Theorem fallback_truncate_fits (self : ContextualizedCompressor)
    (documents : list Document) :
  estimated_tokens documents <= max_context_length self ->
  _fallback_truncate self documents = documents.
Proof.
  intros Hfits. unfold _fallback_truncate. apply fallback_loop_fits. lia.
Qed.

Lemma fallback_truncate_fits_witness :
  _fallback_truncate budget_1000 three_docs = three_docs.
Proof.
  apply (fallback_truncate_fits budget_1000 three_docs).
  vm_compute. discriminate.
Defined.

Lemma fallback_loop_shape self documents : forall total_tokens,
  exists n tail,
    fallback_loop self documents [] total_tokens = take n documents ++ tail
    /\ (tail = []
        \/ exists doc chars,
             documents !! n = Some doc
             /\ tail = [{| page_content :=
                             PyStr.prefix chars (page_content doc) +:+ "...";
                           metadata :=
                             Dict.set "truncated" (VBool true) (metadata doc) |}]).
Proof.
  induction documents as [|doc rest IH]; intros total; simpl.
  - exists 0%nat, []. split; [reflexivity | left; reflexivity].
  - destruct (max_context_length self <? total + PyStr.len (page_content doc) / 4).
    + destruct (0 <? (max_context_length self - total) * 4).
      * exists 0%nat. eexists. split; [reflexivity|]. right.
        exists doc. eexists. split; reflexivity.
      * exists 0%nat, []. split; [reflexivity | left; reflexivity].
    + rewrite fallback_loop_acc. simpl app.
      destruct (IH (total + PyStr.len (page_content doc) / 4))
        as (n & tail & -> & Htail).
      exists (S n), tail. split; [reflexivity | exact Htail].
Qed.

(** X6.  What the fallback returns is a prefix of the documents, unchanged and
    in order, followed by at most one more document: the next one, cut to
    a prefix of its content, an ellipsis appended and marked
    [truncated]. *)
Theorem fallback_truncate_shape (self : ContextualizedCompressor)
    (documents : list Document) :
  exists n tail,
    _fallback_truncate self documents = take n documents ++ tail
    /\ (tail = []
        \/ exists doc chars,
             documents !! n = Some doc
             /\ tail = [{| page_content :=
                             PyStr.prefix chars (page_content doc) +:+ "...";
                           metadata :=
                             Dict.set "truncated" (VBool true) (metadata doc) |}]).
Proof. apply fallback_loop_shape. Qed.

(** ** The compressor, again *)

Section CompressionFacts.

Context (svc : Services) (self : ContextualizedCompressor) (query : string).

Local Abbreviation cd := (fun p : Document * string => compressed_doc p.1 p.2).
Local Abbreviation call_of :=
  (fun doc : Document =>
     ([SystemMessage (COMPRESSION_SYSTEM_PROMPT query (page_content doc))],
      use_fallback_model self)).

Lemma compress_loop_facts documents : forall compressed_docs total_tokens w,
  exists (kept : list (Document * string)) (n : nat) w',
    compress_loop svc self query documents compressed_docs total_tokens w
    = (Ok (compressed_docs ++ (cd <$> kept),
           total_tokens + estimated_tokens (cd <$> kept)), w')
    /\ (fst <$> kept) `sublist_of` take n documents
    /\ (n <= length documents)%nat
    /\ (forall front last,
          kept = front ++ [last] ->
          total_tokens + estimated_tokens (cd <$> front)
          < max_context_length self)
    /\ (forall p, p ∈ kept ->
          exists i, p.2 = compression_result svc self i (page_content p.1) query)
    /\ generate_calls w' = generate_calls w ++ (call_of <$> take n documents)
    /\ embed_calls w' = embed_calls w
    /\ search_calls w' = search_calls w
    /\ _cache w' = _cache w
    /\ _embeddings w' = _embeddings w
    /\ observed w' = observed w.
Proof.
  induction documents as [|doc rest IH]; intros acc total w.
  - exists [], 0%nat, w. simpl. rewrite !app_nil_r, Z.add_0_r.
    repeat split; try reflexivity; try apply sublist_nil_l; try (simpl; lia).
    + intros front last E. destruct front; discriminate E.
    + intros p Hp. inversion Hp.
  - destruct (Z.le_gt_cases (max_context_length self) total) as [Hstop|Hgo].
    + exists [], 0%nat, w. rewrite compress_loop_stop by exact Hstop.
      simpl. rewrite !app_nil_r, Z.add_0_r.
      repeat split; try reflexivity; try apply sublist_nil_l; try (simpl; lia).
      * intros front last E. destruct front; discriminate E.
      * intros p Hp. inversion Hp.
    + rewrite compress_loop_step by exact Hgo. cbv zeta.
      set (c := compression_result svc self (length (generate_calls w))
                  (page_content doc) query).
      set (w1 := log_generate _ w).
      case_bool_decide as Hc.
      * destruct (IH acc total w1)
          as (kept & n & w' & Hrun & Hsub & Hn & Hbud & Hres & Hgen & Hframe).
        exists kept, (S n), w'. split; [exact Hrun|].
        split; [simpl; apply sublist_cons, Hsub|].
        split; [simpl; lia|]. split; [exact Hbud|]. split; [exact Hres|].
        split; [|exact Hframe].
        rewrite Hgen. unfold w1, log_generate. simpl.
        rewrite <- app_assoc. reflexivity.
      * destruct (IH (acc ++ [compressed_doc doc c])
                    (total + PyStr.len c / 4) w1)
          as (kept & n & w' & Hrun & Hsub & Hn & Hbud & Hres & Hgen & Hframe).
        exists ((doc, c) :: kept), (S n), w'. split; [|split; [|split; [|split; [|split; [|split]]]]].
        -- rewrite Hrun. rewrite <- app_assoc. simpl fmap.
           rewrite estimated_tokens_cons. simpl page_content.
           rewrite Z.add_assoc. reflexivity.
        -- simpl. apply sublist_skip, Hsub.
        -- simpl; lia.
        -- intros front last E. destruct front as [|p front]; simpl in E.
           ++ simpl fmap. change (estimated_tokens []) with 0. lia.
           ++ injection E as <- E. specialize (Hbud front last E).
              rewrite fmap_cons, estimated_tokens_cons.
              change (page_content (compressed_doc (doc, c).1 (doc, c).2))
                with c.
              lia.
        -- intros p Hp. apply elem_of_cons in Hp as [->|Hp].
           ++ eexists. reflexivity.
           ++ apply Hres, Hp.
        -- rewrite Hgen. unfold w1, log_generate. simpl.
           rewrite <- app_assoc. reflexivity.
        -- exact Hframe.
Qed.

End CompressionFacts.

Lemma fmap_snoc_inv {A B} (f : A -> B) (l : list A) front last :
  f <$> l = front ++ [last] ->
  exists lfront llast,
    l = lfront ++ [llast] /\ front = f <$> lfront /\ last = f llast.
Proof.
  intros H. apply fmap_app_inv in H as (l1 & l2 & -> & H2 & ->).
  destruct l2 as [|x [|y l2]]; try discriminate H2.
  injection H2 as ->. exists l1, x. auto.
Qed.

(** X7.  The budget of [compress_documents] is soft by one document: whatever
    is returned, the documents before the last one are estimated strictly
    below [max_context_length]; only the last one may carry the total to
    the budget or beyond. *)
Theorem compress_documents_overshoot_by_last (svc : Services)
    (self : ContextualizedCompressor) (documents : list Document)
    (query : string) (w w' : World) (out front : list Document)
    (last : Document) :
  PyStr.strip query <> "" ->
  compress_documents svc self documents query w = (Ok out, w') ->
  out = front ++ [last] ->
  estimated_tokens front < max_context_length self.
Proof.
  intros Hq Hrun Hout. rewrite compress_documents_run in Hrun by exact Hq.
  destruct (compress_loop_facts svc self query documents [] 0 w)
    as (kept & n & w1 & Hloop & _ & _ & Hbud & _).
  rewrite Hloop in Hrun. simpl in Hrun. injection Hrun as <- _.
  apply fmap_snoc_inv in Hout as (kf & kl & -> & -> & _).
  specialize (Hbud kf kl eq_refl). lia.
Qed.

Lemma compress_documents_overshoot_by_last_witness :
  estimated_tokens
    [compressed_doc (sample_doc 1 "one") (string_times "abcd" 400);
     compressed_doc (sample_doc 2 "two") (string_times "abcd" 400)]
  < max_context_length budget_1000.
Proof.
  apply (compress_documents_overshoot_by_last long_answers budget_1000
           three_docs "recursion" fresh_world
           (snd (compress_documents long_answers budget_1000 three_docs
                   "recursion" fresh_world))
           [compressed_doc (sample_doc 1 "one") (string_times "abcd" 400);
            compressed_doc (sample_doc 2 "two") (string_times "abcd" 400);
            compressed_doc (sample_doc 3 "three") (string_times "abcd" 400)]
           _ (compressed_doc (sample_doc 3 "three") (string_times "abcd" 400))).
  - vm_compute. discriminate.
  - vm_compute. reflexivity.
  - reflexivity.
Defined.

Lemma compress_documents_trivial_run svc self documents query w :
  PyStr.strip query = "" ->
  compress_documents svc self documents query w = (Ok documents, w).
Proof.
  intros Hq. destruct documents as [|doc rest]; [reflexivity|].
  unfold compress_documents. rewrite bool_decide_true by exact Hq.
  reflexivity.
Qed.

(** X8.  [compress_documents] never raises.  It makes at most one generation
    call per document, each with the compression prompt of that document
    and the compressor's [use_fallback_model] flag, in document order; and
    it leaves the embedding cache, the embedding and search logs and the
    metrics alone. *)
Theorem compress_documents_effects (svc : Services)
    (self : ContextualizedCompressor) (documents : list Document)
    (query : string) (w : World) :
  exists out n w',
    compress_documents svc self documents query w = (Ok out, w')
    /\ (n <= length documents)%nat
    /\ generate_calls w'
       = generate_calls w
         ++ ((fun doc =>
                ([SystemMessage
                    (COMPRESSION_SYSTEM_PROMPT query (page_content doc))],
                 use_fallback_model self)) <$> take n documents)
    /\ embed_calls w' = embed_calls w
    /\ search_calls w' = search_calls w
    /\ _cache w' = _cache w
    /\ _embeddings w' = _embeddings w
    /\ observed w' = observed w.
Proof.
  destruct (decide (PyStr.strip query = "")) as [Hq|Hq].
  - exists documents, 0%nat, w. split.
    + apply compress_documents_trivial_run; exact Hq.
    + simpl. rewrite app_nil_r. repeat split; try reflexivity. lia.
  - destruct (compress_loop_facts svc self query documents [] 0 w)
      as (kept & n & w' & Hloop & _ & Hn & _ & _ & Hgen & Hframe).
    eexists _, n, w'. split.
    + rewrite compress_documents_run by exact Hq. rewrite Hloop. reflexivity.
    + split; [exact Hn|]. split; [exact Hgen | exact Hframe].
Qed.

(** X9.  Compression keeps the ranking: the returned documents are compressed
    forms of input documents, in the order of the input. *)
Theorem compress_documents_keeps_order (svc : Services)
    (self : ContextualizedCompressor) (documents : list Document)
    (query : string) (w w' : World) (out : list Document) :
  PyStr.strip query <> "" ->
  compress_documents svc self documents query w = (Ok out, w') ->
  exists kept : list (Document * string),
    out = (fun p => compressed_doc p.1 p.2) <$> kept
    /\ (fst <$> kept) `sublist_of` documents.
Proof.
  intros Hq Hrun. rewrite compress_documents_run in Hrun by exact Hq.
  destruct (compress_loop_facts svc self query documents [] 0 w)
    as (kept & n & w1 & Hloop & Hsub & _).
  rewrite Hloop in Hrun. simpl in Hrun. injection Hrun as <- _.
  exists kept. split; [reflexivity|].
  etransitivity; [exact Hsub | apply sublist_take].
Qed.

Lemma compress_documents_keeps_order_witness :
  exists kept : list (Document * string),
    fst (compress_documents second_not_relevant budget_1000 three_docs
           "recursion" fresh_world)
    = Ok ((fun p => compressed_doc p.1 p.2) <$> kept)
    /\ (fst <$> kept) `sublist_of` three_docs.
Proof.
  destruct (compress_documents second_not_relevant budget_1000 three_docs
              "recursion" fresh_world) as [[out|e] w'] eqn:Hrun;
    [|vm_compute in Hrun; discriminate Hrun].
  destruct (compress_documents_keeps_order second_not_relevant budget_1000
              three_docs "recursion" fresh_world w' out)
    as (kept & -> & Hsub).
  - vm_compute. discriminate.
  - exact Hrun.
  - exists kept. split; [reflexivity | exact Hsub].
Defined.




(** Compression rewrites four metadata entries and keeps every other one:
    [compressed] is true, the two lengths are those of the original and of
    the compressed content, and any other key, the id and the score among
    them, reads as it did before. *)
Lemma compressed_doc_metadata (doc : Document) (compressed_content k : string) :
  Dict.get k (metadata (compressed_doc doc compressed_content))
  = if String.eqb k "compression_ratio"
    then Some (compression_ratio compressed_content (page_content doc))
    else if String.eqb k "compressed_length"
    then Some (VNum (PyStr.len compressed_content))
    else if String.eqb k "original_length"
    then Some (VNum (PyStr.len (page_content doc)))
    else if String.eqb k "compressed" then Some (VBool true)
    else Dict.get k (metadata doc).
Proof.
  unfold compressed_doc. simpl metadata. rewrite !dict_get_set. reflexivity.
Qed.

(** ** The embeddings manager, again *)

Lemma embed_documents_attempt_cases svc texts use_cache w :
  texts <> [] ->
  embed_documents_attempt svc texts use_cache w
  = match uncached_texts svc (_cache w) use_cache texts with
    | [] => (Ok (cached_vectors svc (_cache w) use_cache texts), w)
    | batch =>
        if _embeddings w then
          match aembed_documents svc (length (embed_calls w)) batch with
          | Ok vs =>
              let w2 :=
                if use_cache
                then with_cache
                       (fold_left
                          (fun c p => <[_get_cache_key svc (fst p) := snd p]> c)
                          (zip batch vs) (_cache w))
                       (log_embed batch w)
                else log_embed batch w in
              match merge_with_cached (seq 0 (length texts))
                      (uncached_positions svc (_cache w) use_cache 0 texts)
                      vs (cached_vectors svc (_cache w) use_cache texts) 0 0 with
              | Ok r => (Ok r, w2)
              | Raise e =>
                  (Raise (EmbeddingError
                            ("Failed to generate batch embeddings: "
                             +:+ exn_str e)), w2)
              end
          | Raise e =>
              (Raise (EmbeddingError
                        ("Failed to generate batch embeddings: " +:+ exn_str e)),
               log_embed batch w)
          end
        else
          (Raise (EmbeddingError
                    ("Failed to generate batch embeddings: "
                     +:+ "Embeddings not initialized")), w)
    end.
Proof.
  intros Hne.
  assert (embed_documents_attempt svc texts use_cache w
          = try_except
              (fun w =>
                 let '(embeddings, texts_to_embed, text_indices) :=
                   partition_cached svc (_cache w) use_cache 0 texts [] [] [] in
                 match texts_to_embed with
                 | [] => ret embeddings w
                 | _ =>
                     (let* new_embeddings :=
                        embeddings_aembed_documents svc texts_to_embed in
                      let* _ :=
                        cache_results svc use_cache
                          (zip texts_to_embed new_embeddings) in
                      lift (merge_with_cached (seq 0 (length texts)) text_indices
                              new_embeddings embeddings 0 0)) w
                 end)
              (fun e =>
                 raise (EmbeddingError
                          ("Failed to generate batch embeddings: " +:+ exn_str e)))
              w) as ->.
  { destruct texts; [contradiction | reflexivity]. }
  unfold try_except. rewrite partition_cached_spec. simpl app.
  destruct (uncached_texts svc (_cache w) use_cache texts) as [|u us] eqn:Hun.
  - reflexivity.
  - unfold bind, embeddings_aembed_documents, bind, embeddings, cache_results,
      lift, raise.
    destruct (_embeddings w); [|reflexivity].
    destruct (aembed_documents svc _ _) as [vs|e]; [|reflexivity].
    cbv zeta.
    destruct (merge_with_cached _ _ _ _ _ _) as [r|e];
      destruct use_cache; reflexivity.
Qed.

Lemma retry3_inv {A} (c : M A) w r w' :
  retry3 c w = (r, w') ->
  exists w0, c w0 = (r, w').
Proof.
  unfold retry3, try_except.
  destruct (c w) as [[a|e] w1] eqn:E1.
  - intros [= <- <-]. exists w. exact E1.
  - destruct (c w1) as [[a|e2] w2] eqn:E2.
    + intros [= <- <-]. exists w1. exact E2.
    + intros H. exists w2. exact H.
Qed.

Lemma merge_with_cached_length indices : forall ixs new emb ni ci r,
  merge_with_cached indices ixs new emb ni ci = Ok r ->
  length r = length indices.
Proof.
  induction indices as [|i rest IH]; intros ixs new emb ni ci r H; simpl in H.
  - injection H as <-. reflexivity.
  - destruct (bool_decide (i ∈ ixs)).
    + destruct (index new ni); [|discriminate].
      destruct (merge_with_cached rest ixs new emb (S ni) ci) as [r'|] eqn:E;
        [|discriminate].
      injection H as <-. simpl. rewrite (IH _ _ _ _ _ _ E). reflexivity.
    + destruct (index emb ci); [|discriminate].
      destruct (merge_with_cached rest ixs new emb ni (S ci)) as [r'|] eqn:E;
        [|discriminate].
      injection H as <-. simpl. rewrite (IH _ _ _ _ _ _ E). reflexivity.
Qed.

Lemma cached_vectors_length svc cache use_cache texts :
  uncached_texts svc cache use_cache texts = [] ->
  length (cached_vectors svc cache use_cache texts) = length texts.
Proof.
  intros Hun. rewrite <- (all_cached_in_input_order svc cache use_cache texts [])
    by exact Hun.
  apply in_input_order_length. rewrite Hun. simpl. lia.
Qed.

Lemma embed_documents_attempt_length svc texts use_cache w r w' :
  embed_documents_attempt svc texts use_cache w = (Ok r, w') ->
  length r = length texts.
Proof.
  destruct texts as [|t ts] eqn:Ht.
  { intros [= <- _]. reflexivity. }
  rewrite <- Ht. rewrite embed_documents_attempt_cases by (subst; discriminate).
  destruct (uncached_texts _ _ _ _) as [|u us] eqn:Hun.
  - intros [= <- _]. apply cached_vectors_length, Hun.
  - cbv zeta. destruct (_embeddings w); [|discriminate].
    destruct (aembed_documents svc (length (embed_calls w)) (u :: us))
      as [vs|e]; [|discriminate].
    destruct (merge_with_cached _ _ _ _ _ _) as [r0|e] eqn:Hm; [|discriminate].
    intros [= <- _]. apply merge_with_cached_length in Hm.
    rewrite Hm. apply length_seq.
Qed.

(** X11.  Whatever the embedding service returns, a call of [embed_documents]
    that succeeds returns exactly one vector per input text. *)
Theorem embed_documents_one_vector_per_text (svc : Services)
    (texts : list string) (use_cache : bool) (w w' : World)
    (vectors : list Embedding) :
  embed_documents svc texts use_cache w = (Ok vectors, w') ->
  length vectors = length texts.
Proof.
  intros H. apply retry3_inv in H as (w0 & H).
  apply (embed_documents_attempt_length _ _ _ _ _ _ H).
Qed.

Lemma embed_documents_one_vector_per_text_witness :
  length [[97; 1]; [98; 1]; [97; 1]] = length ["a"; "b"; "a"].
Proof.
  apply (embed_documents_one_vector_per_text caching_service ["a"; "b"; "a"]
           true fresh_world
           (snd (embed_documents caching_service ["a"; "b"; "a"] true
                   fresh_world))).
  vm_compute. reflexivity.
Defined.

Lemma embed_documents_attempt_raises svc texts use_cache w e w' :
  embed_documents_attempt svc texts use_cache w = (Raise e, w') ->
  exists cause,
    e = EmbeddingError
          ("Failed to generate batch embeddings: " +:+ exn_str cause).
Proof.
  destruct (decide (texts = [])) as [->|Hne]; [discriminate|].
  rewrite embed_documents_attempt_cases by exact Hne. cbv zeta.
  destruct (uncached_texts _ _ _ _) as [|u us]; [discriminate|].
  destruct (_embeddings w).
  - destruct (aembed_documents svc (length (embed_calls w)) (u :: us))
      as [vs|cause].
    + destruct (merge_with_cached _ _ _ _ _ _) as [r|cause]; [discriminate|].
      intros [= <- _]. exists cause. reflexivity.
    + intros [= <- _]. exists cause. reflexivity.
  - intros [= <- _]. exists (EmbeddingError "Embeddings not initialized").
    reflexivity.
Qed.

(** X12.  The only exception that leaves [embed_documents] is an
    [EmbeddingError] about the batch; the cause is quoted in its
    message. *)
Theorem embed_documents_raises_embedding_error (svc : Services)
    (texts : list string) (use_cache : bool) (w w' : World) (e : Exn) :
  embed_documents svc texts use_cache w = (Raise e, w') ->
  exists cause,
    e = EmbeddingError
          ("Failed to generate batch embeddings: " +:+ exn_str cause).
Proof.
  intros H. apply retry3_inv in H as (w0 & H).
  apply (embed_documents_attempt_raises _ _ _ _ _ _ H).
Qed.

Lemma embed_documents_raises_embedding_error_witness :
  exists cause,
    EmbeddingError "Failed to generate batch embeddings: connection reset"
    = EmbeddingError
        ("Failed to generate batch embeddings: " +:+ exn_str cause).
Proof.
  apply (embed_documents_raises_embedding_error failing_embeddings ["a"] true
           fresh_world
           (snd (embed_documents failing_embeddings ["a"] true fresh_world))).
  vm_compute. reflexivity.
Defined.

Lemma embed_documents_attempt_fails svc texts use_cache w e :
  _embeddings w = true ->
  uncached_texts svc (_cache w) use_cache texts <> [] ->
  aembed_documents svc (length (embed_calls w))
    (uncached_texts svc (_cache w) use_cache texts) = Raise e ->
  embed_documents_attempt svc texts use_cache w
  = (Raise (EmbeddingError
              ("Failed to generate batch embeddings: " +:+ exn_str e)),
     log_embed (uncached_texts svc (_cache w) use_cache texts) w).
Proof.
  intros Hinit Hun Hcall.
  assert (texts <> []) as Hne by (intros ->; apply Hun; reflexivity).
  rewrite embed_documents_attempt_cases by exact Hne. cbv zeta.
  destruct (uncached_texts svc (_cache w) use_cache texts) as [|u us];
    [contradiction|].
  rewrite Hinit, Hcall. reflexivity.
Qed.

(** X13.  A service that keeps failing is tried three times, on the same batch,
    and the third failure is the one reported; the cache is not
    touched. *)
Theorem embed_documents_three_attempts (svc : Services)
    (texts : list string) (use_cache : bool) (w : World) :
  _embeddings w = true ->
  uncached_texts svc (_cache w) use_cache texts <> [] ->
  (forall n, exists e,
     aembed_documents svc n (uncached_texts svc (_cache w) use_cache texts)
     = Raise e) ->
  exists e w',
    aembed_documents svc (length (embed_calls w) + 2)
      (uncached_texts svc (_cache w) use_cache texts) = Raise e
    /\ embed_documents svc texts use_cache w
       = (Raise (EmbeddingError
                   ("Failed to generate batch embeddings: " +:+ exn_str e)), w')
    /\ embed_calls w'
       = embed_calls w
         ++ replicate 3 (uncached_texts svc (_cache w) use_cache texts)
    /\ _cache w' = _cache w.
Proof.
  intros Hinit Hun Hfail.
  set (u := uncached_texts svc (_cache w) use_cache texts) in *.
  set (w1 := log_embed u w). set (w2 := log_embed u w1).
  destruct (Hfail (length (embed_calls w))) as [e0 H0].
  destruct (Hfail (length (embed_calls w1))) as [e1 H1].
  destruct (Hfail (length (embed_calls w2))) as [e2 H2].
  exists e2, (log_embed u w2). split; [|split; [|split]].
  - rewrite <- H2. f_equal. unfold w2, w1, log_embed. simpl.
    rewrite !length_app. simpl. lia.
  - unfold embed_documents, retry3, try_except.
    rewrite (embed_documents_attempt_fails svc texts use_cache w e0 Hinit Hun H0).
    cbv beta iota. fold u. fold w1.
    rewrite (embed_documents_attempt_fails svc texts use_cache w1 e1 Hinit Hun H1).
    cbv beta iota.
    change (log_embed (uncached_texts svc (_cache w1) use_cache texts) w1)
      with w2.
    rewrite (embed_documents_attempt_fails svc texts use_cache w2 e2 Hinit Hun H2).
    reflexivity.
  - unfold w2, w1, log_embed. simpl. rewrite <- !app_assoc. reflexivity.
  - reflexivity.
Qed.

Lemma embed_documents_three_attempts_witness :
  exists e w',
    aembed_documents failing_embeddings (length (embed_calls fresh_world) + 2)
      (uncached_texts failing_embeddings (_cache fresh_world) true ["a"; "b"])
    = Raise e
    /\ embed_documents failing_embeddings ["a"; "b"] true fresh_world
       = (Raise (EmbeddingError
                   ("Failed to generate batch embeddings: " +:+ exn_str e)), w')
    /\ embed_calls w'
       = embed_calls fresh_world
         ++ replicate 3
              (uncached_texts failing_embeddings (_cache fresh_world) true
                 ["a"; "b"])
    /\ _cache w' = _cache fresh_world.
Proof.
  apply (embed_documents_three_attempts failing_embeddings ["a"; "b"] true
           fresh_world).
  - reflexivity.
  - vm_compute. discriminate.
  - intros n. exists transport_error. reflexivity.
Defined.

(** X14.  A batch that the cache answers entirely needs nothing else: no
    service call is made, the world is unchanged, and it does not matter
    whether the embedding model was ever initialized. *)
Theorem embed_documents_all_cached (svc : Services) (texts : list string)
    (use_cache : bool) (w : World) :
  uncached_texts svc (_cache w) use_cache texts = [] ->
  embed_documents svc texts use_cache w
  = (Ok (cached_vectors svc (_cache w) use_cache texts), w).
Proof.
  intros Hun. unfold embed_documents. apply retry3_first_success.
  destruct (decide (texts = [])) as [->|Hne]; [reflexivity|].
  rewrite embed_documents_attempt_cases by exact Hne. rewrite Hun.
  reflexivity.
Qed.

Lemma embed_documents_all_cached_witness :
  embed_documents caching_service ["a"; "b"] true
    (with_cache (<["a" := [1]]> (<["b" := [2]]> ∅)) cold_world)
  = (Ok (cached_vectors caching_service
           (_cache (with_cache (<["a" := [1]]> (<["b" := [2]]> ∅)) cold_world))
           true ["a"; "b"]),
     with_cache (<["a" := [1]]> (<["b" := [2]]> ∅)) cold_world).
Proof.
  apply (embed_documents_all_cached caching_service ["a"; "b"] true
           (with_cache (<["a" := [1]]> (<["b" := [2]]> ∅)) cold_world)).
  vm_compute. reflexivity.
Defined.

(** X15.  Before [initialize] has run, a batch with a text that the cache does
    not hold fails with an [EmbeddingError] that says so; no service call
    is made and the world is unchanged. *)
Theorem embed_documents_uninitialized (svc : Services) (texts : list string)
    (use_cache : bool) (w : World) :
  _embeddings w = false ->
  uncached_texts svc (_cache w) use_cache texts <> [] ->
  embed_documents svc texts use_cache w
  = (Raise (EmbeddingError
              "Failed to generate batch embeddings: Embeddings not initialized"),
     w).
Proof.
  intros Hinit Hun.
  assert (texts <> []) as Hne by (intros ->; apply Hun; reflexivity).
  assert (embed_documents_attempt svc texts use_cache w
          = (Raise (EmbeddingError
                      "Failed to generate batch embeddings: Embeddings not initialized"),
             w)) as Hattempt.
  { rewrite embed_documents_attempt_cases by exact Hne. cbv zeta.
    destruct (uncached_texts svc (_cache w) use_cache texts) as [|u us];
      [contradiction|].
    rewrite Hinit. reflexivity. }
  unfold embed_documents, retry3, try_except. rewrite !Hattempt. reflexivity.
Qed.

Lemma embed_documents_uninitialized_witness :
  embed_documents caching_service ["a"] true cold_world
  = (Raise (EmbeddingError
              "Failed to generate batch embeddings: Embeddings not initialized"),
     cold_world).
Proof.
  apply (embed_documents_uninitialized caching_service ["a"] true cold_world).
  - reflexivity.
  - vm_compute. discriminate.
Defined.

Lemma merge_with_cached_enough svc cache use_cache texts :
  forall i ixs new ni emb ci r,
    (forall j, j ∈ ixs -> (j < i)%nat) ->
    (ni <= length new)%nat ->
    merge_with_cached (seq i (length texts))
      (ixs ++ uncached_positions svc cache use_cache i texts) new emb ni ci
    = Ok r ->
    (ni + length (uncached_texts svc cache use_cache texts) <= length new)%nat.
Proof.
  induction texts as [|text rest IH]; intros i ixs new ni emb ci r Hixs Hni H.
  - simpl. lia.
  - simpl in H. unfold uncached_texts. rewrite filter_cons.
    destruct (cache_hit svc cache use_cache text) as [e|] eqn:Hhit.
    + rewrite decide_False by discriminate.
      rewrite bool_decide_false in H.
      2:{ intros Hin. apply elem_of_app in Hin as [Hin|Hin].
          - apply Hixs in Hin. lia.
          - apply uncached_positions_ge in Hin. lia. }
      destruct (index emb ci); [|discriminate].
      destruct (merge_with_cached _ _ _ _ _ _) as [r'|] eqn:E; [|discriminate].
      apply (IH (S i) ixs new ni emb (S ci) r'); [|exact Hni|exact E].
      intros j Hj. apply Hixs in Hj. lia.
    + rewrite decide_True by reflexivity. simpl length.
      rewrite bool_decide_true in H by (apply elem_of_app; right; left).
      unfold index in H. destruct (new !! ni) as [v|] eqn:Hlook; [|discriminate].
      apply lookup_lt_Some in Hlook.
      replace (ixs ++ i :: uncached_positions svc cache use_cache (S i) rest)
        with ((ixs ++ [i]) ++ uncached_positions svc cache use_cache (S i) rest)
        in H by (rewrite <- app_assoc; reflexivity).
      destruct (merge_with_cached _ _ _ _ _ _) as [r'|] eqn:E; [|discriminate].
      assert (S ni + length (uncached_texts svc cache use_cache rest)
              <= length new)%nat; [|unfold uncached_texts in *; lia].
      apply (IH (S i) (ixs ++ [i]) new (S ni) emb ci r'); [|lia|exact E].
      intros j Hj. apply elem_of_app in Hj as [Hj|Hj].
      * apply Hixs in Hj. lia.
      * apply list_elem_of_singleton in Hj. lia.
Qed.

Lemma fold_insert_keeps svc (pairs : list (string * Embedding)) :
  forall (c : gmap string Embedding) k,
    is_Some (c !! k) ->
    is_Some (fold_left (fun c p => <[_get_cache_key svc (fst p) := snd p]> c)
               pairs c !! k).
Proof.
  induction pairs as [|[t v] pairs IH]; intros c k Hk; simpl.
  - exact Hk.
  - apply IH. rewrite lookup_insert_is_Some.
    destruct (decide (_get_cache_key svc t = k)); [left; assumption|].
    right. split; assumption.
Qed.

Lemma fold_insert_adds svc (pairs : list (string * Embedding)) :
  forall (c : gmap string Embedding) t v,
    (t, v) ∈ pairs ->
    is_Some (fold_left (fun c p => <[_get_cache_key svc (fst p) := snd p]> c)
               pairs c !! _get_cache_key svc t).
Proof.
  induction pairs as [|[t0 v0] pairs IH]; intros c t v Hin; simpl.
  - inversion Hin.
  - apply elem_of_cons in Hin as [[= <- <-]|Hin].
    + apply fold_insert_keeps. rewrite lookup_insert_eq. eauto.
    + apply (IH _ t v Hin).
Qed.

Lemma zip_covers (u : list string) : forall (vs : list Embedding) t,
  (length u <= length vs)%nat -> t ∈ u -> exists v, (t, v) ∈ zip u vs.
Proof.
  induction u as [|t0 u IH]; intros vs t Hlen Hin.
  - inversion Hin.
  - destruct vs as [|v vs]; simpl in Hlen; [lia|].
    apply elem_of_cons in Hin as [->|Hin].
    + exists v. left.
    + destruct (IH vs t ltac:(lia) Hin) as [v' Hv']. exists v'. right. exact Hv'.
Qed.

Lemma uncached_texts_nil svc cache use_cache texts :
  (forall t, t ∈ texts -> is_Some (cache_hit svc cache use_cache t)) ->
  uncached_texts svc cache use_cache texts = [].
Proof.
  induction texts as [|t ts IH]; intros H; [reflexivity|].
  unfold uncached_texts in *. rewrite filter_cons.
  destruct (H t ltac:(left)) as [e He]. rewrite decide_False by congruence.
  apply IH. intros t' Ht'. apply H. right. exact Ht'.
Qed.

Lemma uncached_texts_spec svc cache use_cache texts t :
  t ∈ texts ->
  is_Some (cache_hit svc cache use_cache t)
  \/ t ∈ uncached_texts svc cache use_cache texts.
Proof.
  intros Hin. destruct (cache_hit svc cache use_cache t) as [e|] eqn:Hhit.
  - left. eauto.
  - right. unfold uncached_texts. apply list_elem_of_filter. auto.
Qed.

Lemma embed_documents_attempt_caches svc texts w r w' :
  embed_documents_attempt svc texts true w = (Ok r, w') ->
  forall t, t ∈ texts -> is_Some (_cache w' !! _get_cache_key svc t).
Proof.
  intros Hrun t Hin.
  assert (texts <> []) as Hne by (intros ->; inversion Hin).
  rewrite embed_documents_attempt_cases in Hrun by exact Hne. cbv zeta in Hrun.
  destruct (uncached_texts svc (_cache w) true texts) as [|u us] eqn:Hun.
  - injection Hrun as _ <-.
    destruct (uncached_texts_spec svc (_cache w) true texts t Hin) as [H|H].
    + exact H.
    + rewrite Hun in H. inversion H.
  - destruct (_embeddings w); [|discriminate].
    destruct (aembed_documents svc (length (embed_calls w)) (u :: us))
      as [vs|e]; [|discriminate].
    destruct (merge_with_cached _ _ _ _ _ _) as [r0|e] eqn:Hm; [|discriminate].
    injection Hrun as _ <-. simpl.
    apply (merge_with_cached_enough svc (_cache w) true texts 0 [] vs 0) in Hm;
      [|intros j Hj; inversion Hj|lia].
    rewrite Hun in Hm. simpl in Hm.
    destruct (uncached_texts_spec svc (_cache w) true texts t Hin) as [H|H].
    + apply fold_insert_keeps. exact H.
    + rewrite Hun in H.
      destruct (zip_covers (u :: us) vs t ltac:(simpl; lia) H) as [v Hv].
      apply (fold_insert_adds svc _ _ t v Hv).
Qed.

(** X16.  After a cached batch has succeeded, every text of it is in the cache:
    embedding the same batch again calls no service and changes
    nothing. *)
Theorem embed_documents_again_from_cache (svc : Services)
    (texts : list string) (w w' : World) (vectors : list Embedding) :
  embed_documents svc texts true w = (Ok vectors, w') ->
  uncached_texts svc (_cache w') true texts = []
  /\ embed_documents svc texts true w'
     = (Ok (cached_vectors svc (_cache w') true texts), w').
Proof.
  intros H. apply retry3_inv in H as (w0 & H).
  assert (uncached_texts svc (_cache w') true texts = []) as Hun.
  { apply uncached_texts_nil. intros t Ht.
    apply (embed_documents_attempt_caches _ _ _ _ _ H t Ht). }
  split; [exact Hun|].
  unfold embed_documents. apply retry3_first_success.
  destruct (decide (texts = [])) as [->|Hne]; [reflexivity|].
  rewrite embed_documents_attempt_cases by exact Hne. rewrite Hun.
  reflexivity.
Qed.

Lemma embed_documents_again_from_cache_witness :
  uncached_texts caching_service
    (_cache (snd (embed_documents caching_service ["a"; "b"; "a"] true
                    fresh_world))) true ["a"; "b"; "a"] = []
  /\ embed_documents caching_service ["a"; "b"; "a"] true
       (snd (embed_documents caching_service ["a"; "b"; "a"] true fresh_world))
     = (Ok (cached_vectors caching_service
              (_cache (snd (embed_documents caching_service ["a"; "b"; "a"]
                              true fresh_world))) true ["a"; "b"; "a"]),
        snd (embed_documents caching_service ["a"; "b"; "a"] true fresh_world)).
Proof.
  apply (embed_documents_again_from_cache caching_service ["a"; "b"; "a"]
           fresh_world _ [[97; 1]; [98; 1]; [97; 1]]).
  vm_compute. reflexivity.
Defined.

Lemma retry3_cases {A} (c : M A) w r w' :
  retry3 c w = (r, w') ->
  c w = (r, w')
  \/ (exists e1 w1, c w = (Raise e1, w1) /\ c w1 = (r, w'))
  \/ (exists e1 w1 e2 w2,
        c w = (Raise e1, w1) /\ c w1 = (Raise e2, w2) /\ c w2 = (r, w')).
Proof.
  unfold retry3, try_except.
  destruct (c w) as [[a|e1] w1] eqn:E1.
  - intros [= <- <-]. left. reflexivity.
  - destruct (c w1) as [[a|e2] w2] eqn:E2.
    + intros [= <- <-]. right. left. eauto.
    + intros H. right. right. exists e1, w1, e2, w2. auto.
Qed.

Lemma no_cache_uncached svc cache texts :
  uncached_texts svc cache false texts = texts.
Proof.
  induction texts as [|t ts IH]; [reflexivity|].
  unfold uncached_texts in *. rewrite filter_cons, IH.
  rewrite decide_True by reflexivity. reflexivity.
Qed.

Lemma embed_documents_attempt_no_cache svc texts w r w' :
  embed_documents_attempt svc texts false w = (r, w') ->
  _cache w' = _cache w
  /\ exists k, (k <= 1)%nat
               /\ embed_calls w' = embed_calls w ++ replicate k texts.
Proof.
  destruct (decide (texts = [])) as [->|Hne].
  { intros [= _ <-]. split; [reflexivity|]. exists 0%nat. simpl.
    rewrite app_nil_r. split; [lia | reflexivity]. }
  rewrite embed_documents_attempt_cases by exact Hne. cbv zeta.
  rewrite no_cache_uncached.
  destruct texts as [|t ts]; [contradiction|].
  destruct (_embeddings w).
  - destruct (aembed_documents svc (length (embed_calls w)) (t :: ts))
      as [vs|e].
    + destruct (merge_with_cached _ _ _ _ _ _); intros [= _ <-];
        (split; [reflexivity|]); exists 1%nat; (split; [lia | reflexivity]).
    + intros [= _ <-]. split; [reflexivity|]. exists 1%nat.
      split; [lia | reflexivity].
  - intros [= _ <-]. split; [reflexivity|]. exists 0%nat. simpl.
    rewrite app_nil_r. split; [lia | reflexivity].
Qed.

(** X17.  With [use_cache=False] the cache is bypassed both ways: whatever
    happens, it is left as it was, and every service call, of which there
    are at most three, is made on the whole list of texts. *)
Theorem embed_documents_without_cache (svc : Services) (texts : list string)
    (w w' : World) (r : Result (list Embedding)) :
  embed_documents svc texts false w = (r, w') ->
  _cache w' = _cache w
  /\ exists k, (k <= 3)%nat
               /\ embed_calls w' = embed_calls w ++ replicate k texts.
Proof.
  intros H. apply retry3_cases in H
    as [H1|[(e1 & w1 & H1 & H2)|(e1 & w1 & e2 & w2 & H1 & H2 & H3)]].
  - apply embed_documents_attempt_no_cache in H1 as (Hc & k & Hk & Hlog).
    split; [exact Hc|]. exists k. split; [lia | exact Hlog].
  - apply embed_documents_attempt_no_cache in H1 as (Hc1 & k1 & Hk1 & Hlog1).
    apply embed_documents_attempt_no_cache in H2 as (Hc2 & k2 & Hk2 & Hlog2).
    split; [congruence|]. exists (k1 + k2)%nat. split; [lia|].
    rewrite Hlog2, Hlog1, <- app_assoc, replicate_add. reflexivity.
  - apply embed_documents_attempt_no_cache in H1 as (Hc1 & k1 & Hk1 & Hlog1).
    apply embed_documents_attempt_no_cache in H2 as (Hc2 & k2 & Hk2 & Hlog2).
    apply embed_documents_attempt_no_cache in H3 as (Hc3 & k3 & Hk3 & Hlog3).
    split; [congruence|]. exists (k1 + (k2 + k3))%nat. split; [lia|].
    rewrite Hlog3, Hlog2, Hlog1, <- !app_assoc, !replicate_add. reflexivity.
Qed.

Lemma embed_documents_without_cache_witness :
  _cache (snd (embed_documents caching_service ["a"; "b"; "a"] false
                 fresh_world)) = _cache fresh_world
  /\ exists k, (k <= 3)%nat
               /\ embed_calls (snd (embed_documents caching_service
                                      ["a"; "b"; "a"] false fresh_world))
                  = embed_calls fresh_world ++ replicate k ["a"; "b"; "a"].
Proof.
  apply (embed_documents_without_cache caching_service ["a"; "b"; "a"]
           fresh_world _
           (fst (embed_documents caching_service ["a"; "b"; "a"] false
                   fresh_world))).
  vm_compute. reflexivity.
Defined.

(** *** [embed_query] *)

Lemma embed_query_attempt_hit svc aembed_query text w e :
  PyStr.strip text <> "" ->
  _cache w !! _get_cache_key svc text = Some e ->
  embed_query_attempt svc aembed_query text true w = (Ok e, w).
Proof.
  intros Hq Hhit. unfold embed_query_attempt.
  rewrite bool_decide_false by exact Hq.
  unfold cache_hit. rewrite Hhit. reflexivity.
Qed.

(** X18.  A blank text is refused with an [EmbeddingError] before the cache or
    the service is consulted: the world is unchanged after the three
    attempts of the retry decorator. *)
Theorem embed_query_blank (svc : Services)
    (aembed_query : nat -> string -> Result Embedding)
    (text : string) (use_cache : bool) (w : World) :
  PyStr.strip text = "" ->
  embed_query svc aembed_query text use_cache w
  = (Raise (EmbeddingError "Cannot embed empty text"), w).
Proof.
  intros Hq.
  assert (forall w0, embed_query_attempt svc aembed_query text use_cache w0
                     = (Raise (EmbeddingError "Cannot embed empty text"), w0))
    as Hattempt.
  { intros w0. unfold embed_query_attempt.
    rewrite bool_decide_true by exact Hq. reflexivity. }
  unfold embed_query, retry3, try_except. rewrite !Hattempt. reflexivity.
Qed.

Lemma embed_query_blank_witness :
  embed_query caching_service (fun _ text => Ok (text_vector text)) "  " true
    fresh_world
  = (Raise (EmbeddingError "Cannot embed empty text"), fresh_world).
Proof.
  apply (embed_query_blank caching_service). vm_compute. reflexivity.
Defined.

Lemma embed_query_attempt_Ok svc aembed_query text w v w' :
  embed_query_attempt svc aembed_query text true w = (Ok v, w') ->
  PyStr.strip text <> "" /\ _cache w' !! _get_cache_key svc text = Some v.
Proof.
  unfold embed_query_attempt. case_bool_decide as Hq; [discriminate|].
  split; [exact Hq|]. revert H. unfold cache_hit.
  destruct (_cache w !! _get_cache_key svc text) as [e|] eqn:Hhit.
  - intros [= <- <-]. exact Hhit.
  - unfold try_except, bind, embeddings_aembed_query, bind, embeddings,
      cache_results, ret, raise.
    destruct (_embeddings w); [|discriminate].
    destruct (aembed_query _ _) as [emb|e]; [|discriminate].
    intros [= <- <-]. simpl. apply lookup_insert_eq.
Qed.

(** X19.  Cache round trip of [embed_query]: once a text has been embedded with
    the cache on, asking for it again returns the same vector without any
    service call; the world stays as it is. *)
Theorem embed_query_again_from_cache (svc : Services)
    (aembed_query : nat -> string -> Result Embedding)
    (text : string) (w w' : World) (vector : Embedding) :
  embed_query svc aembed_query text true w = (Ok vector, w') ->
  embed_query svc aembed_query text true w' = (Ok vector, w').
Proof.
  intros H. apply retry3_inv in H as (w0 & H).
  apply embed_query_attempt_Ok in H as [Hq Hhit].
  unfold embed_query. apply retry3_first_success.
  apply embed_query_attempt_hit; assumption.
Qed.

Lemma embed_query_again_from_cache_witness :
  embed_query caching_service (fun _ text => Ok (text_vector text)) "loops" true
    (snd (embed_query caching_service (fun _ text => Ok (text_vector text))
            "loops" true fresh_world))
  = (Ok [108; 5],
     snd (embed_query caching_service (fun _ text => Ok (text_vector text))
            "loops" true fresh_world)).
Proof.
  apply (embed_query_again_from_cache caching_service
           (fun _ text => Ok (text_vector text)) "loops" fresh_world).
  vm_compute. reflexivity.
Defined.

(** X20.  The batch and the single-text operations share the cache: a text
    that a successful cached batch contained is afterwards answered by
    [embed_query] from the cache, without a service call. *)
Theorem embed_query_after_batch (svc : Services)
    (aembed_query : nat -> string -> Result Embedding)
    (texts : list string) (text : string) (w w' : World)
    (vectors : list Embedding) :
  embed_documents svc texts true w = (Ok vectors, w') ->
  text ∈ texts ->
  PyStr.strip text <> "" ->
  exists vector,
    _cache w' !! _get_cache_key svc text = Some vector
    /\ embed_query svc aembed_query text true w' = (Ok vector, w').
Proof.
  intros H Hin Hq. apply retry3_inv in H as (w0 & H).
  destruct (embed_documents_attempt_caches _ _ _ _ _ H text Hin) as [v Hv].
  exists v. split; [exact Hv|].
  unfold embed_query. apply retry3_first_success.
  apply embed_query_attempt_hit; assumption.
Qed.

Lemma embed_query_after_batch_witness :
  exists vector,
    _cache (snd (embed_documents caching_service ["a"; "b"] true fresh_world))
      !! _get_cache_key caching_service "b" = Some vector
    /\ embed_query caching_service (fun _ _ => Raise transport_error) "b" true
         (snd (embed_documents caching_service ["a"; "b"] true fresh_world))
       = (Ok vector,
          snd (embed_documents caching_service ["a"; "b"] true fresh_world)).
Proof.
  apply (embed_query_after_batch caching_service
           (fun _ _ => Raise transport_error) ["a"; "b"] "b" fresh_world _
           [[97; 1]; [98; 1]]).
  - vm_compute. reflexivity.
  - right. left.
  - vm_compute. discriminate.
Defined.

(** ** The orchestrator, again *)

Lemma bind_inv {A B} (c : M A) (k : A -> M B) w r w' :
  bind c k w = (r, w') ->
  (exists e, c w = (Raise e, w') /\ r = Raise e)
  \/ (exists a w1, c w = (Ok a, w1) /\ k a w1 = (r, w')).
Proof.
  unfold bind. destruct (c w) as [[a|e] w1]; intros H.
  - right. exists a, w1. split; [reflexivity | exact H].
  - left. injection H as <- <-. exists e. split; reflexivity.
Qed.

Lemma embed_documents_attempt_frame svc texts use_cache w r w' :
  embed_documents_attempt svc texts use_cache w = (r, w') ->
  only_embeddings_changed w w'.
Proof.
  destruct (decide (texts = [])) as [->|Hne].
  { intros [= _ <-]. repeat split. }
  rewrite embed_documents_attempt_cases by exact Hne. cbv zeta.
  destruct (uncached_texts svc (_cache w) use_cache texts) as [|u us].
  { intros [= _ <-]. repeat split. }
  destruct (_embeddings w).
  - destruct (aembed_documents svc (length (embed_calls w)) (u :: us))
      as [vs|e].
    + destruct (merge_with_cached _ _ _ _ _ _); intros [= _ <-];
        destruct use_cache; repeat split.
    + intros [= _ <-]. repeat split.
  - intros [= _ <-]. repeat split.
Qed.

Lemma only_embeddings_changed_trans w1 w2 w3 :
  only_embeddings_changed w1 w2 -> only_embeddings_changed w2 w3 ->
  only_embeddings_changed w1 w3.
Proof.
  intros (A1 & A2 & A3) (B1 & B2 & B3). repeat split; congruence.
Qed.

Lemma embed_documents_frame svc texts use_cache w r w' :
  embed_documents svc texts use_cache w = (r, w') ->
  only_embeddings_changed w w'.
Proof.
  intros H. apply retry3_cases in H
    as [H1|[(e1 & w1 & H1 & H2)|(e1 & w1 & e2 & w2 & H1 & H2 & H3)]].
  - apply (embed_documents_attempt_frame _ _ _ _ _ _ H1).
  - eapply only_embeddings_changed_trans;
      eapply embed_documents_attempt_frame; eassumption.
  - eapply only_embeddings_changed_trans;
      [eapply embed_documents_attempt_frame; eassumption|].
    eapply only_embeddings_changed_trans;
      eapply embed_documents_attempt_frame; eassumption.
Qed.

Lemma generate_queries_frame svc self original_query w r w' :
  generate_queries svc self original_query w = (r, w') ->
  only_generation_changed w w'.
Proof.
  destruct (decide (PyStr.strip original_query = "")) as [Hq|Hq].
  - rewrite generate_queries_blank by exact Hq. intros [= _ <-]. repeat split.
  - rewrite generate_queries_run by exact Hq. intros [= _ <-]. repeat split.
Qed.

Lemma compress_documents_frame svc self documents query w r w' :
  compress_documents svc self documents query w = (r, w') ->
  only_generation_changed w w'.
Proof.
  destruct (decide (PyStr.strip query = "")) as [Hq|Hq].
  - rewrite compress_documents_trivial_run by exact Hq.
    intros [= _ <-]. repeat split.
  - rewrite compress_documents_run by exact Hq.
    destruct (compress_loop_facts svc self query documents [] 0 w)
      as (kept & n & w1 & Hloop & _ & _ & _ & _ & _ & Hframe).
    rewrite Hloop. intros [= _ <-]. exact Hframe.
Qed.

Lemma track_quality_frame self documents w r w' :
  track_quality self documents w = (r, w') ->
  generate_calls w' = generate_calls w /\ search_calls w' = search_calls w.
Proof.
  destruct documents as [|d ds]; [intros [= _ <-]; split; reflexivity|].
  unfold track_quality, bind, lift.
  destruct (sum_scores (d :: ds) (inject_Z 0)); intros [= _ <-];
    split; reflexivity.
Qed.

(** The search loop sends one request per pair, in order, and stops at
    the first failure. *)
Lemma search_each_log svc self qdrant_filter pairs :
  forall all_results w r w',
    search_each svc self qdrant_filter pairs all_results w = (r, w') ->
    exists k,
      (k <= length pairs)%nat
      /\ search_calls w'
         = search_calls w
           ++ (search_request self qdrant_filter <$> take k (snd <$> pairs))
      /\ generate_calls w' = generate_calls w
      /\ (forall found, r = Ok found -> k = length pairs).
Proof.
  induction pairs as [|[q v] rest IH]; intros acc w r w' H; simpl in H.
  - injection H as <- <-. exists 0%nat. simpl. rewrite app_nil_r.
    repeat split; lia || auto.
  - apply bind_inv in H as [(e & Hs & ->)|(hits & w1 & Hs & Hrest)];
      unfold search in Hs; injection Hs as Hs <-.
    + exists 1%nat. simpl. repeat split; try lia.
      intros found Hf. discriminate Hf.
    + destruct (IH _ _ _ _ Hrest) as (k & Hk & Hlog & Hgen & Hok).
      exists (S k). simpl. split; [lia|]. split; [|split].
      * rewrite Hlog. simpl. rewrite <- app_assoc. reflexivity.
      * rewrite Hgen. reflexivity.
      * intros found Hf. rewrite (Hok found Hf). reflexivity.
Qed.

Lemma try_except_raise_inv {A} (c : M A) (wrap : Exn -> Exn) w r w' :
  try_except c (fun e => raise (wrap e)) w = (r, w') ->
  exists r0, c w = (r0, w') /\ (forall a, r = Ok a -> r0 = Ok a).
Proof.
  unfold try_except, raise. destruct (c w) as [[a|e] w1]; intros [= <- <-].
  - exists (Ok a). split; [reflexivity | auto].
  - exists (Raise e). split; [reflexivity|]. intros a [=].
Qed.

(** The searches of one run of the [try] block: none unless the filter
    was built, and then all with that filter. *)
Lemma retrieve_body_searches svc settings self query metadata_filter
    enable_multi_query w r w' :
  retrieve_body svc settings self query metadata_filter enable_multi_query w
  = (r, w') ->
  exists qdrant_filter vectors,
    search_calls w'
    = search_calls w ++ (search_request self qdrant_filter <$> vectors)
    /\ (_build_qdrant_filter metadata_filter = Ok qdrant_filter
        \/ vectors = [] /\ exists e, r = Raise e)
    /\ (enable_multi_query = false -> (length vectors <= 1)%nat)
    /\ (forall documents, r = Ok documents ->
        enable_multi_query = false -> length vectors = 1%nat)
    /\ (enable_multi_query = false -> enable_compression self = false ->
        generate_calls w' = generate_calls w).
Proof.
  intros H. unfold retrieve_body in H.
  assert (forall w0 e, search_calls w0 = search_calls w ->
            (enable_multi_query = false -> generate_calls w0 = generate_calls w) ->
            exists (qdrant_filter : option Filter) (vectors : list Embedding),
              search_calls w0
              = search_calls w ++ (search_request self qdrant_filter <$> vectors)
              /\ (_build_qdrant_filter metadata_filter = Ok qdrant_filter
                  \/ vectors = [] /\ exists e', @Raise (list Document) e = Raise e')
              /\ (enable_multi_query = false -> (length vectors <= 1)%nat)
              /\ (forall documents, @Raise (list Document) e = Ok documents ->
                  enable_multi_query = false -> length vectors = 1%nat)
              /\ (enable_multi_query = false -> enable_compression self = false ->
                  generate_calls w0 = generate_calls w)) as Hnone.
  { intros w0 e Hs Hg. exists None, []. simpl. rewrite app_nil_r.
    split; [exact Hs|]. split; [right; eauto|]. split; [intros; lia|].
    split; [intros documents [=]|]. auto. }
  apply bind_inv in H as [(e & Hq & ->)|(queries & w1 & Hq & H)].
  { apply Hnone.
    - destruct enable_multi_query.
      + apply generate_queries_frame in Hq as (_ & Hs & _). exact Hs.
      + discriminate Hq.
    - intros ->. discriminate Hq. }
  assert (search_calls w1 = search_calls w
          /\ (enable_multi_query = false ->
              generate_calls w1 = generate_calls w /\ queries = [query]))
    as [Hs1 Hg1].
  { destruct enable_multi_query.
    - apply generate_queries_frame in Hq as (_ & Hs & _).
      split; [exact Hs | discriminate].
    - injection Hq as <- <-. auto. }
  apply bind_inv in H as [(e & He & ->)|(query_embeddings & w2 & He & H)].
  { apply embed_documents_frame in He as (Hg & Hs & _). apply Hnone.
    - congruence.
    - intros E. destruct (Hg1 E) as [Hg1' _]. congruence. }
  pose proof He as Hlen. apply retry3_inv in Hlen as (w0 & Hlen).
  apply embed_documents_attempt_length in Hlen.
  apply embed_documents_frame in He as (Hg2 & Hs2 & _).
  apply bind_inv in H as [(e & Hf & ->)|(qdrant_filter & w2' & Hf & H)].
  { unfold lift in Hf. injection Hf as _ <-. apply Hnone.
    - congruence.
    - intros E. destruct (Hg1 E) as [Hg1' _]. congruence. }
  unfold lift in Hf. injection Hf as Hf <-.
  exists qdrant_filter.
  assert (forall w3 r3,
            search_each svc self qdrant_filter
              (zip queries query_embeddings) [] w2 = (r3, w3) ->
            exists vectors,
              search_calls w3
              = search_calls w ++ (search_request self qdrant_filter <$> vectors)
              /\ (enable_multi_query = false -> (length vectors <= 1)%nat)
              /\ (forall found, r3 = Ok found ->
                  enable_multi_query = false -> length vectors = 1%nat)
              /\ (enable_multi_query = false ->
                  generate_calls w3 = generate_calls w)) as Hsearch.
  { intros w3 r3 Hse.
    apply search_each_log in Hse as (k & Hk & Hlog & Hgen & Hok).
    exists (take k (snd <$> zip queries query_embeddings)).
    split; [rewrite Hlog; congruence|]. split; [|split].
    - intros E. destruct (Hg1 E) as [_ ->].
      rewrite length_take, length_fmap, length_zip.
      change (length [query]) with 1%nat. lia.
    - intros found Hfound E. destruct (Hg1 E) as [_ ->].
      rewrite (Hok found Hfound). rewrite length_take, length_fmap, !length_zip.
      change (length [query]) with 1%nat in *. lia.
    - intros E. destruct (Hg1 E) as [Hg1' _]. congruence. }
  apply bind_inv in H as [(e & Hse & ->)|(all_results & w3 & Hse & H)].
  { destruct (Hsearch _ _ Hse) as (vs & H1 & H2 & _ & H4).
    exists vs. repeat split; auto. intros documents [=]. }
  destruct (Hsearch _ _ Hse) as (vs & H1 & H2 & H3 & H4).
  specialize (H3 all_results eq_refl).
  exists vs.
  apply bind_inv in H as [(e & Hc & ->)|(converted & w4 & Hc & H)].
  { unfold lift in Hc. injection Hc as _ <-. repeat split; auto. }
  unfold lift in Hc. injection Hc as _ <-.
  assert (forall w5 r5,
            (if enable_compression self && negb (bool_decide (converted = []))
             then compress_documents svc (compressor settings) converted query
             else ret converted) w3 = (r5, w5) ->
            search_calls w5 = search_calls w3
            /\ (enable_compression self = false ->
                generate_calls w5 = generate_calls w3)) as Hcomp.
  { intros w5 r5 Hc.
    destruct (enable_compression self) eqn:Hec; simpl in Hc.
    - destruct (negb (bool_decide (converted = []))).
      + apply compress_documents_frame in Hc as (_ & Hs & _).
        split; [exact Hs | discriminate].
      + injection Hc as _ <-. auto.
    - injection Hc as _ <-. auto. }
  apply bind_inv in H as [(e & Hc & ->)|(compressed & w5 & Hc & H)].
  { destruct (Hcomp _ _ Hc) as [Hs5 Hg5].
    split; [congruence|]. split; [auto|]. split; [exact H2|]. split; [auto|].
    intros E Hec. rewrite (Hg5 Hec). auto. }
  destruct (Hcomp _ _ Hc) as [Hs5 Hg5].
  apply bind_inv in H as [(e & Ht & ->)|(u & w6 & Ht & H)].
  { apply track_quality_frame in Ht as [Hg6 Hs6].
    split; [congruence|]. split; [auto|]. split; [exact H2|]. split; [auto|].
    intros E Hec. rewrite Hg6, (Hg5 Hec). auto. }
  apply track_quality_frame in Ht as [Hg6 Hs6].
  injection H as _ <-.
  split; [congruence|]. split; [auto|]. split; [exact H2|]. split; [auto|].
  intros E Hec. rewrite Hg6, (Hg5 Hec). auto.
Qed.

Lemma retrieve_searches svc settings self query metadata_filter
    enable_multi_query w r w' :
  retrieve svc settings self query metadata_filter enable_multi_query w
  = (r, w') ->
  exists r0,
    retrieve_body svc settings self query metadata_filter enable_multi_query w
    = (r0, w')
    /\ (forall documents, r = Ok documents -> r0 = Ok documents).
Proof. unfold retrieve. apply try_except_raise_inv. Qed.

(** X21.  Every search that [retrieve] issues, whether retrieval then succeeds
    or fails, goes to the pipeline's collection with [top_k] as limit, the
    pipeline's score threshold and the translated metadata filter; the
    requests differ in the query vector only.  Without query expansion
    there is at most one, and when the filter cannot be translated there
    is none. *)
Theorem retrieve_search_requests (svc : Services) (settings : Settings)
    (self : RAGPipeline) (query : string)
    (metadata_filter : option (Dict.t FilterValue))
    (enable_multi_query : bool) (w w' : World) (r : Result (list Document)) :
  retrieve svc settings self query metadata_filter enable_multi_query w
  = (r, w') ->
  exists vectors,
    match _build_qdrant_filter metadata_filter with
    | Ok qdrant_filter =>
        search_calls w'
        = search_calls w ++ (search_request self qdrant_filter <$> vectors)
    | Raise _ => vectors = [] /\ search_calls w' = search_calls w
    end
    /\ (enable_multi_query = false -> (length vectors <= 1)%nat).
Proof.
  intros H. apply retrieve_searches in H as (r0 & H & _).
  apply retrieve_body_searches in H
    as (qdrant_filter & vectors & Hlog & Hbuilt & Hle & _).
  exists vectors. split; [|exact Hle].
  destruct Hbuilt as [->|[-> _]]; [exact Hlog|].
  simpl in Hlog. rewrite app_nil_r in Hlog.
  destruct (_build_qdrant_filter metadata_filter) as [f|e].
  - simpl. rewrite app_nil_r. exact Hlog.
  - split; [reflexivity | exact Hlog].
Qed.

Lemma retrieve_search_requests_witness :
  exists vectors,
    match _build_qdrant_filter None with
    | Ok qdrant_filter =>
        search_calls (snd (retrieve one_variant_llm default_settings top_one
                             "recursion" None true fresh_world))
        = search_calls fresh_world
          ++ (search_request top_one qdrant_filter <$> vectors)
    | Raise _ =>
        vectors = []
        /\ search_calls (snd (retrieve one_variant_llm default_settings top_one
                                "recursion" None true fresh_world))
           = search_calls fresh_world
    end
    /\ (true = false -> (length vectors <= 1)%nat).
Proof.
  apply (retrieve_search_requests one_variant_llm default_settings top_one
           "recursion" None true fresh_world _
           (fst (retrieve one_variant_llm default_settings top_one "recursion"
                   None true fresh_world))).
  vm_compute. reflexivity.
Defined.

(** X22.  Without query expansion a successful [retrieve] has issued exactly one
    search, with the translated filter; and when compression is off as
    well, it has made no generation call at all. *)
Theorem retrieve_single_search (svc : Services) (settings : Settings)
    (self : RAGPipeline) (query : string)
    (metadata_filter : option (Dict.t FilterValue))
    (w w' : World) (documents : list Document) :
  retrieve svc settings self query metadata_filter false w
  = (Ok documents, w') ->
  (exists qdrant_filter vector,
     _build_qdrant_filter metadata_filter = Ok qdrant_filter
     /\ search_calls w'
        = search_calls w ++ [search_request self qdrant_filter vector])
  /\ (enable_compression self = false ->
      generate_calls w' = generate_calls w).
Proof.
  intros H. apply retrieve_searches in H as (r0 & H & Hok).
  rewrite (Hok documents eq_refl) in H.
  apply retrieve_body_searches in H
    as (qdrant_filter & vectors & Hlog & Hbuilt & _ & Hone & Hgen).
  specialize (Hone documents eq_refl eq_refl). split.
  - destruct vectors as [|v [|v' vs]]; try discriminate Hone.
    destruct Hbuilt as [Hbuilt|[[=] _]].
    exists qdrant_filter, v. split; [exact Hbuilt | exact Hlog].
  - intros Hec. apply Hgen; [reflexivity | exact Hec].
Qed.

Lemma retrieve_single_search_witness :
  (exists qdrant_filter vector,
     _build_qdrant_filter None = Ok qdrant_filter
     /\ search_calls (snd (retrieve one_variant_llm default_settings top_one
                             "recursion" None false fresh_world))
        = search_calls fresh_world ++ [search_request top_one qdrant_filter vector])
  /\ (enable_compression top_one = false ->
      generate_calls (snd (retrieve one_variant_llm default_settings top_one
                             "recursion" None false fresh_world))
      = generate_calls fresh_world).
Proof.
  destruct (retrieve one_variant_llm default_settings top_one "recursion" None
              false fresh_world) as [[documents|e] w'] eqn:Hrun;
    [|vm_compute in Hrun; discriminate Hrun].
  apply (retrieve_single_search one_variant_llm default_settings top_one
           "recursion" None fresh_world w' documents Hrun).
Defined.

(** X23.  [retrieve_by_topic] restricts every search it issues to the topic: the
    filter of each request is a single equality condition on the field
    [topic]. *)
Theorem retrieve_by_topic_filters (svc : Services) (settings : Settings)
    (self : RAGPipeline) (query topic : string) (w w' : World)
    (r : Result (list Document)) :
  retrieve_by_topic svc settings self query topic w = (r, w') ->
  exists requests,
    search_calls w' = search_calls w ++ requests
    /\ forall req, req ∈ requests ->
         query_filter req
         = Some {| must := [{| key := "topic";
                               match_ := MatchValue (VStr topic) |}] |}.
Proof.
  unfold retrieve_by_topic. intros H.
  apply retrieve_searches in H as (r0 & H & _).
  apply retrieve_body_searches in H
    as (qdrant_filter & vectors & Hlog & Hbuilt & _).
  eexists. split; [exact Hlog|].
  intros req Hreq. apply list_elem_of_fmap in Hreq as (v & -> & Hv).
  destruct Hbuilt as [Hbuilt|[-> _]]; [|inversion Hv].
  injection Hbuilt as <-. reflexivity.
Qed.

Lemma retrieve_by_topic_filters_witness :
  exists requests,
    search_calls (snd (retrieve_by_topic one_variant_llm default_settings
                         top_one "recursion" "python" fresh_world))
    = search_calls fresh_world ++ requests
    /\ forall req, req ∈ requests ->
         query_filter req
         = Some {| must := [{| key := "topic";
                               match_ := MatchValue (VStr "python") |}] |}.
Proof.
  apply (retrieve_by_topic_filters one_variant_llm default_settings top_one
           "recursion" "python" fresh_world _
           (fst (retrieve_by_topic one_variant_llm default_settings top_one
                   "recursion" "python" fresh_world))).
  vm_compute. reflexivity.
Defined.

(** *** The filter and the documents *)

Lemma forallb_is_str vs :
  forallb is_str vs = true <-> forall x, x ∈ vs -> exists s, x = VStr s.
Proof.
  rewrite forallb_forall. split; intros H x Hx.
  - apply list_elem_of_In in Hx. specialize (H x Hx).
    destruct x; try discriminate H. eauto.
  - apply list_elem_of_In in Hx. destruct (H x Hx) as [s ->]. reflexivity.
Qed.

Lemma forallb_is_int vs :
  forallb is_int vs = true <-> forall x, x ∈ vs -> exists n, x = VNum n.
Proof.
  rewrite forallb_forall. split; intros H x Hx.
  - apply list_elem_of_In in Hx. specialize (H x Hx).
    destruct x; try discriminate H. eauto.
  - apply list_elem_of_In in Hx. destruct (H x Hx) as [n ->]. reflexivity.
Qed.

(** What the client makes of one value: the condition, if it takes the
    value, and its validation error otherwise. *)
Lemma filter_value_cases (value : FilterValue) :
  let made := match value with
              | Many vs => models_MatchAny vs
              | One v => models_MatchValue v
              end in
  (accepted_by_client value
   /\ made = Ok (match value with
                 | Many vs => MatchAny vs
                 | One v => MatchValue v
                 end))
  \/ (~ accepted_by_client value
      /\ exists message, made = Raise (OtherError "ValidationError" message)).
Proof.
  destruct value as [v|vs]; simpl.
  - destruct v; simpl; eauto.
  - unfold models_MatchAny.
    destruct (forallb is_str vs) eqn:Hs; simpl.
    { left. split; [|reflexivity]. left. apply forallb_is_str, Hs. }
    destruct (forallb is_int vs) eqn:Hi.
    { left. split; [|reflexivity]. right. apply forallb_is_int, Hi. }
    right. split; [|eauto]. intros [H|H].
    + apply forallb_is_str in H. congruence.
    + apply forallb_is_int in H. congruence.
Qed.

Lemma build_conditions_accepted items : forall conditions,
  (forall entry, entry ∈ items -> accepted_by_client (snd entry)) ->
  build_conditions items conditions
  = Ok (conditions ++ (condition_of <$> items)).
Proof.
  induction items as [|[k v] items IH]; intros conditions Hall; simpl.
  - rewrite app_nil_r. reflexivity.
  - destruct (filter_value_cases v) as [[_ Hmade]|[Hno _]].
    + cbv zeta in Hmade. rewrite Hmade. rewrite IH.
      * rewrite <- app_assoc. reflexivity.
      * intros entry Hentry. apply Hall. right. exact Hentry.
    + exfalso. apply Hno. apply (Hall (k, v)). left.
Qed.

Lemma build_conditions_refused before entry after : forall conditions,
  (forall x, x ∈ before -> accepted_by_client (snd x)) ->
  ~ accepted_by_client (snd entry) ->
  exists message,
    build_conditions (before ++ entry :: after) conditions
    = Raise (OtherError "ValidationError" message).
Proof.
  induction before as [|[k v] before IH]; intros conditions Hall Hno; simpl.
  - destruct entry as [k v]. simpl in Hno.
    destruct (filter_value_cases v) as [[Hyes _]|[_ [message Hmade]]];
      [contradiction|].
    cbv zeta in Hmade. rewrite Hmade. eauto.
  - destruct (filter_value_cases v) as [[_ Hmade]|[Hno' _]].
    + cbv zeta in Hmade. rewrite Hmade. apply IH; [|exact Hno].
      intros x Hx. apply Hall. right. exact Hx.
    + exfalso. apply Hno'. apply (Hall (k, v)). left.
Qed.

Lemma build_conditions_length items : forall conditions made,
  build_conditions items conditions = Ok made ->
  length made = (length conditions + length items)%nat.
Proof.
  induction items as [|[k v] items IH]; intros conditions made H; simpl in H.
  - injection H as <-. simpl. lia.
  - destruct (match v with
              | Many vs => models_MatchAny vs
              | One v0 => models_MatchValue v0
              end) as [m|e]; [|discriminate H].
    apply IH in H. rewrite length_app in H. simpl in *. lia.
Qed.

(** X24.  [_build_qdrant_filter] gives no filter exactly for [None] and for the
    empty dict.  For a dict whose values the index client takes (a bool,
    an int or a str; a list of str or a list of int) it gives one
    condition per entry, in the order of the dict and on the same keys: a
    list becomes a match-any, a single value an equality.  At the first
    value that the client does not take (a float, a null, a mixed list)
    it raises the client's validation error. *)
Theorem build_qdrant_filter_conditions
    (metadata_filter : option (Dict.t FilterValue)) :
  (_build_qdrant_filter metadata_filter = Ok None
   <-> metadata_filter = None \/ metadata_filter = Some [])
  /\ (forall items : list (string * FilterValue),
        metadata_filter = Some items -> items <> [] ->
        (forall entry, entry ∈ items -> accepted_by_client (snd entry)) ->
        _build_qdrant_filter metadata_filter
        = Ok (Some {| must := condition_of <$> items |}))
  /\ (forall before entry after,
        metadata_filter = Some (before ++ entry :: after) ->
        (forall x, x ∈ before -> accepted_by_client (snd x)) ->
        ~ accepted_by_client (snd entry) ->
        exists message,
          _build_qdrant_filter metadata_filter
          = Raise (OtherError "ValidationError" message)).
Proof.
  split; [|split].
  - destruct metadata_filter as [[|it items]|]; split; auto.
    + unfold _build_qdrant_filter.
      destruct (build_conditions (it :: items) []) as [made|e] eqn:E;
        [|discriminate].
      apply build_conditions_length in E.
      destruct made; [discriminate E | discriminate].
    + intros [H|H]; discriminate H.
  - intros items -> Hne Hall. destruct items as [|it items]; [congruence|].
    unfold _build_qdrant_filter.
    rewrite build_conditions_accepted by exact Hall. reflexivity.
  - intros before entry after -> Hall Hno.
    destruct (build_conditions_refused before entry after [] Hall Hno)
      as [message H].
    exists message. unfold _build_qdrant_filter. rewrite H.
    destruct before; reflexivity.
Qed.

(** A float is refused; after the queries are embedded, [retrieve] then
    fails without a search. *)
Example build_qdrant_filter_refuses_float :
  _build_qdrant_filter float_filter
  = Raise (OtherError "ValidationError" "validation error for MatchValue")
  /\ exists message details w',
       retrieve one_variant_llm default_settings top_one "recursion"
         float_filter false fresh_world
       = (Raise (RetrievalError message details), w')
       /\ embed_calls w' = [["recursion"]]
       /\ search_calls w' = [].
Proof.
  split; [reflexivity|]. eexists _, _, _. split; [vm_compute; reflexivity|].
  split; reflexivity.
Qed.






(** ** Query expansion, again *)

(** X26.  On a query that is not blank, [generate_queries] makes exactly one
    generation call, with the expansion messages and on the primary model,
    touches nothing else and returns a list, whether the call answers or
    fails.  When the call fails the list is the original query alone;
    when it answers, the variants are cleaned lines of the answer in the
    order of the answer: none is invented and none is moved. *)
Theorem generate_queries_variants_in_order (svc : Services)
    (self : MultiQueryRetriever) (original_query : string) (w : World) :
  PyStr.strip original_query <> "" ->
  exists queries w',
    generate_queries svc self original_query w = (Ok queries, w')
    /\ generate_calls w'
       = generate_calls w ++ [(expansion_messages self original_query, false)]
    /\ only_generation_changed w w'
    /\ (generation_failed svc (length (generate_calls w))
          (expansion_messages self original_query) false = true ->
        queries = [original_query])
    /\ (forall result variations_text,
          llm_generate svc (length (generate_calls w))
            (expansion_messages self original_query) false = Ok result ->
          first_generation_text result = Ok variations_text ->
          0 <= num_variations self ->
          exists variants,
            queries = original_query :: variants
            /\ variants `sublist_of`
                 map remove_numbering (parse_variations variations_text)).
Proof.
  intros Hq. rewrite generate_queries_run by exact Hq.
  eexists _, _. split; [reflexivity|]. split; [reflexivity|].
  split; [repeat split|]. split.
  - unfold generation_failed.
    destruct (llm_generate svc _ _ _) as [result|e]; [|reflexivity].
    destruct (first_generation_text result); [discriminate | reflexivity].
  - intros result variations_text -> -> Hnv.
    unfold all_queries_of, PyStr.slice_to.
    destruct (Z.leb_spec 0 (num_variations self + 1)) as [_|]; [|lia].
    replace (Z.to_nat (num_variations self + 1))
      with (S (Z.to_nat (num_variations self))) by lia.
    simpl take. eexists. split; [reflexivity|].
    etransitivity; [apply sublist_take | apply sublist_filter].
Qed.

Lemma generate_queries_variants_in_order_witness :
  (exists variants w',
     generate_queries numbering_llm three_variations "recursion" fresh_world
     = (Ok ("recursion" :: variants), w')
     /\ variants `sublist_of`
          map remove_numbering (parse_variations "1. What is recursion?
2) Define recursion

recursion
 3. Recursive calls ")
     /\ generate_calls w'
        = [(expansion_messages three_variations "recursion", false)])
  /\ (exists w',
        generate_queries failing_llm three_variations "recursion" fresh_world
        = (Ok ["recursion"], w')
        /\ generate_calls w'
           = [(expansion_messages three_variations "recursion", false)]).
Proof.
  split.
  - destruct (generate_queries_variants_in_order numbering_llm
                three_variations "recursion" fresh_world)
      as (queries & w' & Hrun & Hlog & _ & _ & Hanswer).
    { vm_compute. discriminate. }
    destruct (Hanswer _ _ eq_refl eq_refl) as (variants & -> & Hsub).
    { vm_compute. discriminate. }
    exists variants, w'. split; [exact Hrun|]. split; [exact Hsub | exact Hlog].
  - destruct (generate_queries_variants_in_order failing_llm
                three_variations "recursion" fresh_world)
      as (queries & w' & Hrun & Hlog & _ & Hfail & _).
    { vm_compute. discriminate. }
    rewrite (Hfail eq_refl) in Hrun.
    exists w'. split; [exact Hrun | exact Hlog].
Defined.

(** ** The quiz generator's use of the pipeline *)

(** X27.  [_get_topic_context] never raises: a retrieval that fails, like one
    that finds nothing, gives the empty context.  It searches without
    query expansion, so at most one search request is issued for it. *)
Theorem get_topic_context_never_raises (svc : Services) (settings : Settings)
    (self : QuizGenerator) (topic : string) (w : World) :
  exists context w' requests,
    _get_topic_context svc settings self topic w = (Ok context, w')
    /\ search_calls w' = search_calls w ++ requests
    /\ (length requests <= 1)%nat
    /\ (forall e,
          fst (retrieve svc settings (rag_pipeline self)
                 ("Explain " +:+ topic +:+ " concepts and examples") None false
                 w) = Raise e ->
          context = "").
Proof.
  unfold _get_topic_context, try_except, bind.
  destruct (retrieve svc settings (rag_pipeline self)
              ("Explain " +:+ topic +:+ " concepts and examples") None false w)
    as [r w1] eqn:Hrun.
  pose proof Hrun as Hs. apply retrieve_searches in Hs as (r0 & Hs & _).
  apply retrieve_body_searches in Hs
    as (qdrant_filter & vectors & Hlog & _ & Hle & _).
  specialize (Hle eq_refl).
  destruct r as [documents|e].
  - destruct documents as [|d ds]; eexists _, w1, _;
      (split; [reflexivity|]); (split; [exact Hlog|]);
      (split; [rewrite length_fmap; exact Hle|]); intros e He; discriminate He.
  - eexists _, w1, _. split; [reflexivity|]. split; [exact Hlog|].
    split; [rewrite length_fmap; exact Hle|]. intros _ _. reflexivity.
Qed.

(** ** The vector index client *)

Lemma qdrant_collection_exists_total api name s :
  exists found s1,
    Qdrant._collection_exists api name s = (Qdrant.Done found, s1)
    /\ Qdrant.search_requests s1 = Qdrant.search_requests s
    /\ Qdrant._client s1 = Qdrant._client s
    /\ (Qdrant.collections_calls s1 <= S (Qdrant.collections_calls s))%nat
    /\ (Qdrant._client s = false -> found = false)
    /\ (forall kind message,
          Qdrant.get_collections api (Qdrant.collections_calls s)
          = Qdrant.Errored kind message -> found = false)
    /\ (forall names, Qdrant._client s = true ->
          Qdrant.get_collections api (Qdrant.collections_calls s)
          = Qdrant.Answered names ->
          found = existsb (fun c => String.eqb c name) names).
Proof.
  unfold Qdrant._collection_exists, Qdrant.try_except, Qdrant.bind,
    Qdrant.client_get_collections, Qdrant.bind, Qdrant.client, Qdrant.ret.
  destruct (Qdrant._client s) eqn:Hc.
  - destruct (Qdrant.get_collections api (Qdrant.collections_calls s))
      as [names|kind message] eqn:Hg; eexists _, _; (split; [reflexivity|]);
      simpl; repeat split; try lia; try discriminate; auto.
    + intros names' _ [= <-]. reflexivity.
  - eexists _, _. split; [reflexivity|]. rewrite Hc.
    repeat split; try lia; try discriminate; auto.
Qed.

Lemma qdrant_search_attempt_cases api settings name vector limit_ threshold
    filter_ s :
  exists found s1,
    Qdrant._collection_exists api name s = (Qdrant.Done found, s1)
    /\ Qdrant.search_attempt api settings name vector limit_ threshold filter_ s
       = if found then
           match Qdrant.client_search_call api
                   {| Qdrant.collection_name := name;
                      Qdrant.query_vector := vector;
                      Qdrant.limit := limit_;
                      Qdrant.score_threshold :=
                        python_or threshold (rag_score_threshold settings);
                      Qdrant.query_filter := filter_;
                      Qdrant.with_payload := true;
                      Qdrant.with_vectors := false |} s1 with
           | (Qdrant.Done hits, s2) => (Qdrant.Done hits, s2)
           | (Qdrant.Failed e, s2) =>
               (Qdrant.Failed
                  (Qdrant.QdrantQueryError
                     ("Search failed in collection '" +:+ name +:+ "': "
                      +:+ Qdrant.exn_str e)
                     [("collection", VStr name); ("limit", VNum limit_)]), s2)
           end
         else
           (Qdrant.Failed
              (Qdrant.CollectionNotFoundError
                 ("Collection '" +:+ name +:+ "' not found")
                 [("collection", VStr name)]), s1).
Proof.
  destruct (qdrant_collection_exists_total api name s)
    as (found & s1 & Hex & _).
  exists found, s1. split; [exact Hex|].
  unfold Qdrant.search_attempt, Qdrant.try_except, Qdrant.bind at 1.
  rewrite Hex. destruct found; simpl.
  - unfold Qdrant.client_search_call, Qdrant.bind, Qdrant.client, Qdrant.raise.
    destruct (Qdrant._client s1); [|reflexivity].
    destruct (Qdrant.client_search api _ _) as [hits|kind message];
      reflexivity.
  - reflexivity.
Qed.

Lemma qdrant_retry_if_final {A} (c : Qdrant.Q A) n s r s' :
  c s = (r, s') ->
  (forall e, r = Qdrant.Failed e -> Qdrant.transient e = false) ->
  Qdrant.retry_if Qdrant.transient n c s = (r, s').
Proof.
  intros Hrun Hfinal. destruct n as [|n]; simpl; rewrite Hrun.
  - destruct r; reflexivity.
  - destruct r as [a|e]; [reflexivity|].
    rewrite (Hfinal e eq_refl). reflexivity.
Qed.

Lemma qdrant_search_attempt_errors api settings name vector limit_ threshold
    filter_ s e s' :
  Qdrant.search_attempt api settings name vector limit_ threshold filter_ s
  = (Qdrant.Failed e, s') ->
  e = Qdrant.CollectionNotFoundError
        ("Collection '" +:+ name +:+ "' not found") [("collection", VStr name)]
  \/ exists cause,
       e = Qdrant.QdrantQueryError
             ("Search failed in collection '" +:+ name +:+ "': "
              +:+ Qdrant.exn_str cause)
             [("collection", VStr name); ("limit", VNum limit_)].
Proof.
  destruct (qdrant_search_attempt_cases api settings name vector limit_
              threshold filter_ s) as (found & s1 & _ & ->).
  destruct found.
  - destruct (Qdrant.client_search_call api _ s1) as [[hits|cause] s2].
    + discriminate.
    + intros [= <- _]. right. exists cause. reflexivity.
  - intros [= <- _]. left. reflexivity.
Qed.

(** X28.  The retry decorator of [search] never retries: the failures it is
    told to retry never reach it, the body of [search] having turned
    every client failure into a [QdrantQueryError] by then.  Whatever the
    configured number of attempts, [search] is its single attempt; it
    lists the collections at most once and sends at most one search
    request. *)
Theorem qdrant_search_never_retries (api : Qdrant.Client)
    (settings : Settings) (qdrant_retry_attempts : nat) (name : string)
    (vector : Embedding) (limit_ : Z) (threshold : option Z)
    (filter_ : option Filter) (s : Qdrant.State) :
  Qdrant.search api settings qdrant_retry_attempts name vector limit_
    threshold filter_ s
  = Qdrant.search_attempt api settings name vector limit_ threshold filter_ s
  /\ exists requests,
       Qdrant.search_requests
         (snd (Qdrant.search api settings qdrant_retry_attempts name vector
                 limit_ threshold filter_ s))
       = Qdrant.search_requests s ++ requests
       /\ (length requests <= 1)%nat
       /\ (Qdrant.collections_calls
             (snd (Qdrant.search api settings qdrant_retry_attempts name
                     vector limit_ threshold filter_ s))
           <= S (Qdrant.collections_calls s))%nat.
Proof.
  assert (Qdrant.search api settings qdrant_retry_attempts name vector limit_
            threshold filter_ s
          = Qdrant.search_attempt api settings name vector limit_ threshold
              filter_ s) as Heq.
  { unfold Qdrant.search.
    destruct (Qdrant.search_attempt api settings name vector limit_ threshold
                filter_ s) as [r s'] eqn:Hrun.
    apply qdrant_retry_if_final; [exact Hrun|].
    intros e ->. apply qdrant_search_attempt_errors in Hrun
      as [->|[cause ->]]; reflexivity. }
  split; [exact Heq|]. rewrite Heq.
  destruct (qdrant_collection_exists_total api name s)
    as (found & s1 & Hex & Hreq & _ & Hcalls & _).
  destruct (qdrant_search_attempt_cases api settings name vector limit_
              threshold filter_ s) as (found' & s1' & Hex' & ->).
  rewrite Hex in Hex'. injection Hex' as <- <-.
  destruct found.
  - unfold Qdrant.client_search_call, Qdrant.bind, Qdrant.client.
    destruct (Qdrant._client s1).
    + destruct (Qdrant.client_search api _ _) as [hits|kind message]; simpl;
        eexists [_]; rewrite Hreq; repeat split; simpl; lia.
    + simpl. exists []. rewrite app_nil_r. repeat split; simpl; auto; lia.
  - simpl. exists []. rewrite app_nil_r. repeat split; simpl; auto; lia.
Qed.

(** X29.  [search] fails in two ways only: with [CollectionNotFoundError] for
    the collection, or with a [QdrantQueryError] that names the collection
    and the limit and quotes the cause. *)
Theorem qdrant_search_errors (api : Qdrant.Client) (settings : Settings)
    (qdrant_retry_attempts : nat) (name : string) (vector : Embedding)
    (limit_ : Z) (threshold : option Z) (filter_ : option Filter)
    (s s' : Qdrant.State) (e : Qdrant.Exn) :
  Qdrant.search api settings qdrant_retry_attempts name vector limit_
    threshold filter_ s = (Qdrant.Failed e, s') ->
  e = Qdrant.CollectionNotFoundError
        ("Collection '" +:+ name +:+ "' not found") [("collection", VStr name)]
  \/ exists cause,
       e = Qdrant.QdrantQueryError
             ("Search failed in collection '" +:+ name +:+ "': "
              +:+ Qdrant.exn_str cause)
             [("collection", VStr name); ("limit", VNum limit_)].
Proof.
  intros H.
  destruct (Qdrant.search_attempt api settings name vector limit_ threshold
              filter_ s) as [r s1] eqn:Hrun.
  assert (Qdrant.search api settings qdrant_retry_attempts name vector limit_
            threshold filter_ s = (r, s1)) as Heq.
  { unfold Qdrant.search. apply qdrant_retry_if_final; [exact Hrun|].
    intros e0 ->. apply qdrant_search_attempt_errors in Hrun
      as [->|[cause ->]]; reflexivity. }
  rewrite Heq in H. injection H as -> <-.
  apply (qdrant_search_attempt_errors _ _ _ _ _ _ _ _ _ _ Hrun).
Qed.

(** X30.  An index that cannot be asked is reported as a missing collection:
    when the client is not initialized, or listing the collections fails,
    [search] raises [CollectionNotFoundError] and sends no search
    request. *)
Theorem qdrant_search_unreachable (api : Qdrant.Client) (settings : Settings)
    (qdrant_retry_attempts : nat) (name : string) (vector : Embedding)
    (limit_ : Z) (threshold : option Z) (filter_ : option Filter)
    (s : Qdrant.State) :
  (Qdrant._client s = false
   \/ exists kind message,
        Qdrant.get_collections api (Qdrant.collections_calls s)
        = Qdrant.Errored kind message) ->
  exists s',
    Qdrant.search api settings qdrant_retry_attempts name vector limit_
      threshold filter_ s
    = (Qdrant.Failed
         (Qdrant.CollectionNotFoundError
            ("Collection '" +:+ name +:+ "' not found")
            [("collection", VStr name)]), s')
    /\ Qdrant.search_requests s' = Qdrant.search_requests s.
Proof.
  intros Hdown.
  destruct (qdrant_collection_exists_total api name s)
    as (found & s1 & Hex & Hreq & _ & _ & Hnoclient & Hfails & _).
  assert (found = false) as ->.
  { destruct Hdown as [Hc|(kind & message & He)];
      [apply Hnoclient, Hc | apply (Hfails kind message He)]. }
  destruct (qdrant_search_attempt_cases api settings name vector limit_
              threshold filter_ s) as (found' & s1' & Hex' & Hrun).
  rewrite Hex in Hex'. injection Hex' as <- <-.
  exists s1. split; [|exact Hreq].
  unfold Qdrant.search. apply qdrant_retry_if_final; [exact Hrun|].
  intros e [= <-]. reflexivity.
Qed.

Example qdrant_timeout_not_retried :
  Qdrant.search timing_out_client default_settings 3 "courses" [1; 2] 5 None
    None ready_manager
  = (Qdrant.Failed
       (Qdrant.QdrantQueryError
          "Search failed in collection 'courses': timed out"
          [("collection", VStr "courses"); ("limit", VNum 5)]),
     {| Qdrant._client := true;
        Qdrant._is_healthy := true;
        Qdrant.collections_calls := 1;
        Qdrant.search_requests :=
          [{| Qdrant.collection_name := "courses";
              Qdrant.query_vector := [1; 2];
              Qdrant.limit := 5;
              Qdrant.score_threshold := 7;
              Qdrant.query_filter := None;
              Qdrant.with_payload := true;
              Qdrant.with_vectors := false |}] |}).
Proof. vm_compute. reflexivity. Qed.

Lemma qdrant_search_errors_witness :
  Qdrant.QdrantQueryError "Search failed in collection 'courses': timed out"
    [("collection", VStr "courses"); ("limit", VNum 5)]
  = Qdrant.CollectionNotFoundError
      ("Collection '" +:+ "courses" +:+ "' not found")
      [("collection", VStr "courses")]
  \/ exists cause,
       Qdrant.QdrantQueryError
         "Search failed in collection 'courses': timed out"
         [("collection", VStr "courses"); ("limit", VNum 5)]
       = Qdrant.QdrantQueryError
           ("Search failed in collection '" +:+ "courses" +:+ "': "
            +:+ Qdrant.exn_str cause)
           [("collection", VStr "courses"); ("limit", VNum 5)].
Proof.
  apply (qdrant_search_errors timing_out_client default_settings 3 "courses"
           [1; 2] 5 None None ready_manager
           (snd (Qdrant.search timing_out_client default_settings 3 "courses"
                   [1; 2] 5 None None ready_manager))).
  vm_compute. reflexivity.
Defined.

Lemma qdrant_search_unreachable_witness :
  exists s',
    Qdrant.search unreachable_client default_settings 3 "courses" [1; 2] 5
      None None ready_manager
    = (Qdrant.Failed
         (Qdrant.CollectionNotFoundError
            ("Collection '" +:+ "courses" +:+ "' not found")
            [("collection", VStr "courses")]), s')
    /\ Qdrant.search_requests s' = Qdrant.search_requests ready_manager.
Proof.
  apply (qdrant_search_unreachable unreachable_client default_settings 3
           "courses" [1; 2] 5 None None ready_manager).
  right. exists "UnexpectedResponse", "503 Service Unavailable". reflexivity.
Defined.
